(** * Skin-tone analysis and skin-tone modification: a shallow embedding

    The development follows [src/core/color_analyzer.py] (class
    [ColorAnalyzer]) and [src/core/skin_tone_modifier.py] (class
    [SkinToneModifier]).

    Conventions of the embedding.
    - A [numpy] array of 8-bit pixels of shape (H, W, 3) is a list of rows of
      triples of [Z]; a mask of shape (H, W) is a list of rows of [Z].
    - Python and numpy floating-point numbers are rationals ([Q]).  Where a
      discrete result hangs on the last bit of a computed number (the
      threshold tests of the undertone and of the temperature on a computed
      difference, the casts to 8-bit integers after a scaling or a blend in
      the modifier) every operation is followed by the rounding of its
      format: [fl64] for Python floats and numpy float64, [fl32] for numpy
      float32, both round to nearest, ties to even, as IEEE 754 defines
      them and as [SpecFloat] of the standard library implements them.
      Elsewhere (lightness, confidence, hues) the numbers are exact
      rationals.  The conversions to 8-bit integers ([astype(np.uint8)])
      truncate toward zero.
    - Code that can raise returns a [result]; [try ... except Exception as e]
      is [try_except].
    - The functions of OpenCV, scikit-learn and scikit-image that the code
      calls are not part of the repository.  They are the fields of the
      classes [Cv2], [SkLearn] and [SkImage]; what the proofs need of them is
      stated as explicit contracts. *)

From Stdlib Require Import Ascii String ZArith QArith Qround Lqa Bool Lia Arith List.
From Stdlib Require Import Permutation Sorted SpecFloat.
Import ListNotations.

Local Open Scope string_scope.
Local Open Scope Z_scope.

(* ================================================================== *)
(** ** Python exceptions *)

Inductive exc_class : Type :=
| ValueError
| IndexError
| LibraryError.   (* cv2.error and other exceptions raised inside a library *)

Record exn : Type := Exn { exn_class : exc_class; exn_msg : string }.

(** [str(e)] *)
Definition str (e : exn) : string := exn_msg e.

Inductive result (A : Type) : Type :=
| Ok (a : A)
| Raise (e : exn).
Arguments Ok {A} a.
Arguments Raise {A} e.

Definition bind {A B : Type} (c : result A) (k : A -> result B) : result B :=
  match c with
  | Ok a => k a
  | Raise e => Raise e
  end.

Notation "x <- c ;; k" := (bind c (fun x => k))
  (at level 61, c at next level, right associativity).

(** [try: body except Exception as e: handler e] *)
Definition try_except {A : Type} (body : result A) (handler : exn -> result A)
  : result A :=
  match body with
  | Ok a => Ok a
  | Raise e => handler e
  end.

(** [except Exception as e: raise ValueError(f"<prefix>{str(e)}")] *)
Definition reraise {A : Type} (prefix : string) (e : exn) : result A :=
  Raise (Exn ValueError (prefix ++ str e)).

Definition is_ok {A : Type} (r : result A) : bool :=
  match r with Ok _ => true | Raise _ => false end.

(* ================================================================== *)
(** ** Rational helpers standing for Python float operations *)

Definition Qltb (x y : Q) : bool := negb (Qle_bool y x).

(** Python's [min(a, b)] and [max(a, b)]: the first argument wins a tie. *)
Definition py_min (a b : Q) : Q := if Qltb b a then b else a.
Definition py_max (a b : Q) : Q := if Qltb a b then b else a.

(** [np.clip(x, lo, hi)] *)
Definition np_clip (x lo hi : Q) : Q :=
  if Qltb x lo then lo else if Qltb hi x then hi else x.

(** Python's float [x % m] for [m > 0]: the result has the sign of [m]. *)
Definition py_mod (x m : Q) : Q := (x - m * inject_Z (Qfloor (x / m)))%Q.

(** Truncation toward zero, as a float-to-integer cast does. *)
Definition Qtrunc (x : Q) : Z := if Qltb x 0 then Qceiling x else Qfloor x.

(** [x.astype(np.uint8)] on a float: truncation, then the low eight bits. *)
Definition astype_uint8 (x : Q) : Z := (Qtrunc x) mod 256.

(* ================================================================== *)
(** ** Binary floating point

    A floating-point number is the rational it denotes.  The result of an
    operation in a format is the exact result rounded to that format: to
    nearest, ties to even.  The rounding is the one of [SpecFloat]: the
    quotient of numerator and denominator is developed by
    [SFdiv_core_binary] and rounded by [binary_round_aux], with [prec] bits
    of precision and the exponent range that ends at [emax] (subnormal
    numbers included).  An overflow, which no computation below reaches,
    would read as 0. *)

(** The rational that a finite floating-point number denotes. *)
Definition SF2Q (x : spec_float) : Q :=
  match x with
  | S754_finite s m e =>
      let v := match e with
               | Zneg p => Zpos m # (2 ^ p)
               | _ => inject_Z (Zpos m * 2 ^ e)
               end in
      if s then (- v)%Q else v
  | _ => 0%Q
  end.

(** The positive rational [n / d], rounded. *)
Definition round_pos (prec emax : Z) (n d : positive) : spec_float :=
  let '(m, e, l) := SFdiv_core_binary prec emax (Zpos n) 0 (Zpos d) 0 in
  binary_round_aux prec emax false m e l.

Definition round_Q (prec emax : Z) (x : Q) : Q :=
  match Qnum x with
  | Z0 => 0%Q
  | Zpos n => SF2Q (round_pos prec emax n (Qden x))
  | Zneg n => (- SF2Q (round_pos prec emax n (Qden x)))%Q
  end.

(** binary64: Python's [float] and numpy's [float64]. *)
Definition fl64 : Q -> Q := round_Q 53 1024.

(** binary32: numpy's [float32]. *)
Definition fl32 : Q -> Q := round_Q 24 128.

(* ================================================================== *)
(** ** Arrays *)

Definition Pixel : Type := (Z * Z * Z)%type.       (* one (3,) uint8 entry *)
Definition FPixel : Type := (Q * Q * Q)%type.      (* the same, as floats *)
Definition Image : Type := list (list Pixel).      (* (H, W, 3) uint8 *)
Definition FImage : Type := list (list FPixel).    (* (H, W, 3) float32 *)
Definition Mask : Type := list (list Z).           (* (H, W) uint8 *)

Definition chan0 {A : Type} (p : A * A * A) : A := fst (fst p).
Definition chan1 {A : Type} (p : A * A * A) : A := snd (fst p).
Definition chan2 {A : Type} (p : A * A * A) : A := snd p.

(** Lengths of the rows: two arrays are congruent when these agree. *)
Definition shape {A : Type} (a : list (list A)) : list nat :=
  map (@List.length A) a.

(** [a.shape[0]] and [a.shape[1]] *)
Definition shape0 {A : Type} (a : list (list A)) : nat := List.length a.
Definition shape1 {A : Type} (a : list (list A)) : nat :=
  match a with
  | [] => 0%nat
  | row :: _ => List.length row
  end.

Definition map2d {A B : Type} (f : A -> B) (a : list (list A))
  : list (list B) :=
  map (map f) a.

(** Element-wise combination of two rows of the same length. *)
Fixpoint zip_row {A B C : Type} (f : A -> B -> C) (a : list A) (b : list B)
  : option (list C) :=
  match a, b with
  | [], [] => Some []
  | x :: a', y :: b' =>
      match zip_row f a' b' with
      | Some r => Some (f x y :: r)
      | None => None
      end
  | _, _ => None
  end.

(** Element-wise combination of two 2-D arrays; numpy and OpenCV raise when
    the shapes differ. *)
Fixpoint zip2d_opt {A B C : Type} (f : A -> B -> C)
  (a : list (list A)) (b : list (list B)) : option (list (list C)) :=
  match a, b with
  | [], [] => Some []
  | ra :: a', rb :: b' =>
      match zip_row f ra rb, zip2d_opt f a' b' with
      | Some r, Some rest => Some (r :: rest)
      | _, _ => None
      end
  | _, _ => None
  end.

Definition zip2d {A B C : Type} (cls : exc_class) (f : A -> B -> C)
  (a : list (list A)) (b : list (list B)) : result (list (list C)) :=
  match zip2d_opt f a b with
  | Some r => Ok r
  | None => Raise (Exn cls "operands could not be broadcast together")
  end.

Definition Zsum (l : list Z) : Z := fold_right Z.add 0 l.

(** [np.sum(mask)] on a uint8 array: numpy accumulates in an unsigned
    64-bit integer. *)
Definition np_sum (m : Mask) : Z := Zsum (map Zsum m) mod 2 ^ 64.

(** [np.sum(mask > 0)] *)
Definition count_positive (m : Mask) : Z :=
  Zsum (map (fun row => Z.of_nat (List.length (filter (fun v => 0 <? v) row))) m).

(** [image[mask > 0]]: the pixels at the positions where the mask is
    positive, in row-major order; an IndexError when the shapes differ. *)
Definition bool_index (image : Image) (mask : Mask) : result (list Pixel) :=
  match zip2d_opt (fun p v => (p, v)) image mask with
  | Some rows =>
      Ok (map fst (filter (fun pv => 0 <? snd pv) (concat rows)))
  | None =>
      Raise (Exn IndexError
               "boolean index did not match indexed array")
  end.

(** [arr[i]] on a 1-D array *)
Definition getitem {A : Type} (l : list A) (i : nat) : result A :=
  match nth_error l i with
  | Some x => Ok x
  | None => Raise (Exn IndexError "index out of bounds")
  end.

(** [a, b, c = arr] and [arr.reshape(1, 1, 3)] on a 1-D array: both need
    exactly three entries. *)
Definition unpack3 (l : list Q) : result FPixel :=
  match l with
  | [a; b; c] => Ok (a, b, c)
  | _ => Raise (Exn ValueError "cannot unpack or reshape: expected 3 values")
  end.

Definition Qsum (l : list Q) : Q := fold_right Qplus 0%Q l.

(** [np.mean(arr)] on a 1-D float array. *)
Definition np_mean (l : list Q) : Q :=
  (Qsum l / inject_Z (Z.of_nat (List.length l)))%Q.

(** [np.mean(pixels, axis=0)] on an (N, 3) array. *)
Definition np_mean_axis0 (pixels : list Pixel) : list Q :=
  [ np_mean (map (fun p => inject_Z (chan0 p)) pixels);
    np_mean (map (fun p => inject_Z (chan1 p)) pixels);
    np_mean (map (fun p => inject_Z (chan2 p)) pixels) ].

(** [np.bincount(labels)]: entry [v] counts the occurrences of [v]; the
    length is one more than the largest label. *)
Definition bincount (labels : list nat) : list Z :=
  match labels with
  | [] => []
  | _ =>
      map (fun v => Z.of_nat (count_occ Nat.eq_dec labels v))
          (seq 0 (S (fold_right Nat.max 0%nat labels)))
  end.

(** [np.argsort(a)]: the indices that sort [a] in ascending order.  Equal
    keys keep their index order here (insertion sort, as numpy uses on
    short arrays); no statement below depends on how ties are ordered. *)
Fixpoint argsort_insert (kv : Z * nat) (l : list (Z * nat))
  : list (Z * nat) :=
  match l with
  | [] => [kv]
  | h :: t =>
      if fst kv <? fst h then kv :: h :: t
      else h :: argsort_insert kv t
  end.

Definition argsort_pairs (l : list (Z * nat)) : list (Z * nat) :=
  fold_left (fun acc kv => argsort_insert kv acc) l [].

Definition argsort (a : list Z) : list nat :=
  map snd (argsort_pairs (combine a (seq 0 (List.length a)))).

(** [arr[indices]]: fancy indexing of the rows of a 2-D array. *)
Fixpoint take_rows {A : Type} (arr : list A) (indices : list nat)
  : result (list A) :=
  match indices with
  | [] => Ok []
  | i :: rest =>
      x <- getitem arr i ;;
      xs <- take_rows arr rest ;;
      Ok (x :: xs)
  end.

(* ================================================================== *)
(** ** The library functions the code calls *)

Inductive ColorConversion : Type :=
| COLOR_RGB2HSV
| COLOR_RGB2YCrCb
| COLOR_RGB2LAB
| COLOR_LAB2RGB
| COLOR_HSV2RGB.

Inductive MorphType : Type := MORPH_OPEN | MORPH_CLOSE.

(** OpenCV on 8-bit arrays.  [morphologyEx] is used with the 5x5 elliptical
    structuring element only, [GaussianBlur] with sigma 0 and the given
    kernel size. *)
Class Cv2 : Type := {
  cvtColor : Image -> ColorConversion -> result Image;
  morphologyEx : Mask -> MorphType -> result Mask;
  GaussianBlur : Mask -> nat * nat -> result Mask
}.

(** scikit-learn: [KMeans(n_clusters, random_state=42, n_init=10).fit(X)],
    giving [cluster_centers_] and [labels_]. *)
Class SkLearn : Type := {
  KMeans_fit : nat -> list Pixel -> result (list FPixel * list nat)
}.

(** scikit-image, on the 1x1 image that the analyzer passes. *)
Class SkImage : Type := {
  rgb2lab : FPixel -> result FPixel;
  rgb2hsv : FPixel -> result FPixel
}.

(** [cv2.inRange(src, lower, upper)]: 255 where every channel lies within the
    inclusive bounds, 0 elsewhere. *)
Definition in_bounds (lower upper p : Pixel) : bool :=
  (chan0 lower <=? chan0 p) && (chan0 p <=? chan0 upper) &&
  (chan1 lower <=? chan1 p) && (chan1 p <=? chan1 upper) &&
  (chan2 lower <=? chan2 p) && (chan2 p <=? chan2 upper).

Definition inRange (src : Image) (lower upper : Pixel) : Mask :=
  map2d (fun p => if in_bounds lower upper p then 255 else 0) src.

(** [cv2.bitwise_and(a, b)] *)
Definition bitwise_and (a b : Mask) : result Mask :=
  zip2d LibraryError Z.land a b.

(** The skin ranges, shared by the analyzer and the modifier. *)
Definition lower_hsv : Pixel := (0, 20, 70).
Definition upper_hsv : Pixel := (20, 255, 255).
Definition lower_ycrcb : Pixel := (0, 135, 85).
Definition upper_ycrcb : Pixel := (255, 180, 135).

(* ================================================================== *)
(** ** [ColorAnalyzer] *)

Inductive hval : Type :=
| HNum (x : Q)
| HList (l : list Q).

(** A Python dict with string keys, in insertion order. *)
Definition dict : Type := list (string * hval).

Fixpoint dict_get (d : dict) (k : string) : option hval :=
  match d with
  | [] => None
  | (k', v) :: rest => if String.eqb k k' then Some v else dict_get rest k
  end.

Definition dict_keys (d : dict) : list string := map fst d.

(** The dict returned by [analyze_skin_tone]. *)
Record Analysis : Type := {
  category : string;
  undertone : string;
  lightness : Q;
  temperature : string;
  dominant_colors : list Pixel;
  average_color : list Q;
  harmony_info : dict;
  skin_pixel_count : nat;
  confidence : Q
}.

(** [self.skin_tone_categories]: key, range, name, in insertion order. *)
Definition skin_tone_categories : list (string * ((Q * Q) * string)) :=
  [ ("very_light",   ((0%Q, 25%Q),  "Very Light"));
    ("light",        ((25%Q, 40%Q), "Light"));
    ("light_medium", ((40%Q, 55%Q), "Light Medium"));
    ("medium",       ((55%Q, 70%Q), "Medium"));
    ("medium_dark",  ((70%Q, 85%Q), "Medium Dark"));
    ("dark",         ((85%Q, 100%Q), "Dark")) ].

(** [min_val <= lightness < max_val] *)
Definition in_range (range : Q * Q) (lightness : Q) : bool :=
  Qle_bool (fst range) lightness && Qltb lightness (snd range).

(** The [for] loop of [_classify_skin_tone_category]: the name of the first
    category whose range holds the lightness. *)
Fixpoint first_category (items : list (string * ((Q * Q) * string)))
  (lightness : Q) : option string :=
  match items with
  | [] => None
  | (_, (range, name)) :: rest =>
      if in_range range lightness then Some name
      else first_category rest lightness
  end.

Definition _classify_skin_tone_category (lightness : Q) : string :=
  match first_category skin_tone_categories lightness with
  | Some name => name
  | None =>
      (* Fallback *)
      if Qltb lightness 25 then "Very Light"
      else if Qle_bool 85 lightness then "Dark"
      else "Medium"
  end.

(** [avg_color / 255.0], [red_ratio - blue_ratio] and the literals are
    binary64. *)
Definition _determine_undertone (avg_color : list Q) (skin_pixels : list Pixel)
  : string :=
  let body : result string :=
    let rgb_normalized := map (fun c => fl64 (c / 255)) avg_color in
    red_ratio <- getitem rgb_normalized 0 ;;
    green_ratio <- getitem rgb_normalized 1 ;;
    blue_ratio <- getitem rgb_normalized 2 ;;
    let red_blue_diff := fl64 (red_ratio - blue_ratio) in
    if Qltb (fl64 0.05) red_blue_diff then Ok "Warm"
    else if Qltb red_blue_diff (- fl64 0.05) then Ok "Cool"
    else Ok "Neutral" in
  match body with
  | Ok s => s
  | Raise _ => "Neutral"
  end.

Definition _calculate_color_temperature (rgb_color : list Q) : string :=
  let body : result string :=
    rgb <- unpack3 (map (fun c => fl64 (c / 255)) rgb_color) ;;
    let '(r, g, b) := rgb in
    if Qltb b r then
      if Qltb (fl64 0.1) (fl64 (r - b)) then Ok "Warm" else Ok "Neutral-Warm"
    else if Qltb r b then
      if Qltb (fl64 0.1) (fl64 (b - r)) then Ok "Cool" else Ok "Neutral-Cool"
    else Ok "Neutral" in
  match body with
  | Ok s => s
  | Raise _ => "Neutral"
  end.

(** [_calculate_confidence].  [skin_pixels / total_pixels] divides a numpy
    integer: for [total_pixels = 0] the quotient is nan or inf (a warning,
    not an exception), every [<] test is False and the last branch is
    taken. *)
Definition _calculate_confidence (skin_mask : Mask) (image : Image) : Q :=
  let body : result Q :=
    let total_pixels := Z.of_nat (shape0 image) * Z.of_nat (shape1 image) in
    let skin_pixels := count_positive skin_mask in
    let confidence :=
      if total_pixels =? 0 then 0.8%Q
      else
        let skin_ratio := (inject_Z skin_pixels / inject_Z total_pixels)%Q in
        if Qltb skin_ratio 0.05 then 0.3%Q
        else if Qltb skin_ratio 0.15 then 0.6%Q
        else if Qltb skin_ratio 0.4 then 0.9%Q
        else 0.8%Q in
    Ok (py_min 1%Q (py_max 0%Q confidence)) in
  match body with
  | Ok c => c
  | Raise _ => 0.5%Q
  end.

(** The dict returned on the [except] path of [_get_color_harmony_info]. *)
Definition default_harmony_info : dict :=
  [ ("base_hue", HNum 0%Q);
    ("complementary", HNum 180%Q);
    ("triadic", HList [120%Q; 240%Q]);
    ("analogous", HList [30%Q; 330%Q]) ].

Section ColorAnalyzer.
Context {cv : Cv2} {sk : SkLearn} {si : SkImage}.

Definition _detect_skin_regions (image : Image) : result Mask :=
  try_except
    (hsv <- cvtColor image COLOR_RGB2HSV ;;
     ycrcb <- cvtColor image COLOR_RGB2YCrCb ;;
     let mask_hsv := inRange hsv lower_hsv upper_hsv in
     let mask_ycrcb := inRange ycrcb lower_ycrcb upper_ycrcb in
     skin_mask <- bitwise_and mask_hsv mask_ycrcb ;;
     skin_mask <- morphologyEx skin_mask MORPH_OPEN ;;
     skin_mask <- morphologyEx skin_mask MORPH_CLOSE ;;
     skin_mask <- GaussianBlur skin_mask (3%nat, 3%nat) ;;
     Ok skin_mask)
    (reraise "Skin detection failed: ").

Definition _get_dominant_colors (pixels : list Pixel) (n_colors : nat)
  : result (list Pixel) :=
  try_except
    (fit <- KMeans_fit n_colors pixels ;;
     let '(cluster_centers, labels) := fit in
     let label_counts := bincount labels in
     let sorted_indices := rev (argsort label_counts) in
     dominant_colors <- take_rows cluster_centers sorted_indices ;;
     Ok (map (fun c => (astype_uint8 (chan0 c), astype_uint8 (chan1 c),
                        astype_uint8 (chan2 c))) dominant_colors))
    (reraise "Dominant color extraction failed: ").

Definition _calculate_lightness (rgb_color : list Q) : Q :=
  let body : result Q :=
    rgb <- unpack3 rgb_color ;;
    let '(r, g, b) := rgb in
    lab <- rgb2lab ((r / 255)%Q, (g / 255)%Q, (b / 255)%Q) ;;
    let lightness := chan0 lab in
    Ok (py_max 0%Q (py_min 100%Q lightness)) in
  match body with
  | Ok l => l
  | Raise _ => (np_mean rgb_color / 255 * 100)%Q
  end.

Definition _get_color_harmony_info (rgb_color : list Q) : result dict :=
  try_except
    (rgb <- unpack3 rgb_color ;;
     let '(r, g, b) := rgb in
     hsv <- rgb2hsv ((r / 255)%Q, (g / 255)%Q, (b / 255)%Q) ;;
     let '(hue, saturation, value) := hsv in
     let hue_degrees := (hue * 360)%Q in
     let complementary_hue := py_mod (hue_degrees + 180) 360 in
     let triadic_hue1 := py_mod (hue_degrees + 120) 360 in
     let triadic_hue2 := py_mod (hue_degrees + 240) 360 in
     let analogous_hue1 := py_mod (hue_degrees + 30) 360 in
     let analogous_hue2 := py_mod (hue_degrees - 30) 360 in
     Ok [ ("base_hue", HNum hue_degrees);
          ("complementary", HNum complementary_hue);
          ("triadic", HList [triadic_hue1; triadic_hue2]);
          ("analogous", HList [analogous_hue1; analogous_hue2]);
          ("saturation", HNum saturation);
          ("value", HNum value) ])
    (fun _ => Ok default_harmony_info).

Definition analyze_skin_tone (image : Image) : result Analysis :=
  try_except
    (skin_mask <- _detect_skin_regions image ;;
     if np_sum skin_mask =? 0 then
       Raise (Exn ValueError "No skin regions detected in the image")
     else
       skin_pixels <- bool_index image skin_mask ;;
       dominant <- _get_dominant_colors skin_pixels 5 ;;
       let avg_skin_color := np_mean_axis0 skin_pixels in
       let lightness := _calculate_lightness avg_skin_color in
       let category := _classify_skin_tone_category lightness in
       let undertone := _determine_undertone avg_skin_color skin_pixels in
       let temperature := _calculate_color_temperature avg_skin_color in
       harmony <- _get_color_harmony_info avg_skin_color ;;
       Ok {| category := category;
             undertone := undertone;
             lightness := lightness;
             temperature := temperature;
             dominant_colors := dominant;
             average_color := avg_skin_color;
             harmony_info := harmony;
             skin_pixel_count := List.length skin_pixels;
             confidence := _calculate_confidence skin_mask image |})
    (reraise "Skin tone analysis failed: ").

End ColorAnalyzer.

(* ================================================================== *)
(** ** [SkinToneModifier] *)

(** [arr.astype(np.float32)] and [arr.astype(np.uint8)] on images.  Every
    8-bit value is a float32 number. *)
Definition astype_float32 (a : Image) : FImage :=
  map2d (fun p => (inject_Z (chan0 p), inject_Z (chan1 p), inject_Z (chan2 p)))
        a.

Definition astype_uint8_pixel (p : FPixel) : Pixel :=
  (astype_uint8 (chan0 p), astype_uint8 (chan1 p), astype_uint8 (chan2 p)).

Definition astype_uint8_image (a : FImage) : Image :=
  map2d astype_uint8_pixel a.

(** [arr[:, :, c] = np.where(skin_mask > 0, f(arr[:, :, c]), arr[:, :, c])]
    for c = 0, 1, 2. *)
Definition where_chan0 (skin_mask : Mask) (f : Q -> Q) (arr : FImage)
  : result FImage :=
  zip2d ValueError
    (fun v p => if 0 <? v then (f (chan0 p), chan1 p, chan2 p) else p)
    skin_mask arr.

Definition where_chan1 (skin_mask : Mask) (f : Q -> Q) (arr : FImage)
  : result FImage :=
  zip2d ValueError
    (fun v p => if 0 <? v then (chan0 p, f (chan1 p), chan2 p) else p)
    skin_mask arr.

Definition where_chan2 (skin_mask : Mask) (f : Q -> Q) (arr : FImage)
  : result FImage :=
  zip2d ValueError
    (fun v p => if 0 <? v then (chan0 p, chan1 p, f (chan2 p)) else p)
    skin_mask arr.

(** One entry of the [adjustments] table of [change_skin_tone]. *)
Record Preset : Type := {
  preset_lightness : Q;
  preset_warmth : Q;
  preset_saturation : Q
}.

Definition adjustments : list (string * Preset) :=
  [ ("lighter", {| preset_lightness := 15; preset_warmth := 0;
                   preset_saturation := -5 |});
    ("darker",  {| preset_lightness := -15; preset_warmth := 5;
                   preset_saturation := 5 |});
    ("warmer",  {| preset_lightness := 0; preset_warmth := 20;
                   preset_saturation := 10 |});
    ("cooler",  {| preset_lightness := 0; preset_warmth := -20;
                   preset_saturation := -5 |}) ].

Fixpoint lookup_preset (table : list (string * Preset)) (k : string)
  : option Preset :=
  match table with
  | [] => None
  | (k', v) :: rest => if String.eqb k k' then Some v else lookup_preset rest k
  end.

(** The three kinds of adjustment that the application offers. *)
Inductive AdjustmentKind : Type := Lightness | Warmth | Saturation.

Section SkinToneModifier.
Context {cv : Cv2}.

Definition _detect_skin_mask (image : Image) : result Mask :=
  try_except
    (hsv <- cvtColor image COLOR_RGB2HSV ;;
     ycrcb <- cvtColor image COLOR_RGB2YCrCb ;;
     let mask_hsv := inRange hsv lower_hsv upper_hsv in
     let mask_ycrcb := inRange ycrcb lower_ycrcb upper_ycrcb in
     skin_mask <- bitwise_and mask_hsv mask_ycrcb ;;
     skin_mask <- morphologyEx skin_mask MORPH_OPEN ;;
     skin_mask <- morphologyEx skin_mask MORPH_CLOSE ;;
     skin_mask <- GaussianBlur skin_mask (5%nat, 5%nat) ;;
     Ok skin_mask)
    (reraise "Skin mask detection failed: ").

(** [arr * factor] for a float32 array and a Python float: numpy converts
    the factor to float32 and multiplies in float32. *)
Definition mul32 (x factor : Q) : Q := fl32 (x * fl32 factor).

(** The LAB array that [adjust_lightness] hands to the conversion back to
    RGB: the L channel scaled and clipped to [0, 100] under the mask, then
    the whole array cast to uint8. *)
Definition scaled_lab (skin_mask : Mask) (adjustment : Q) (lab8 : Image)
  : result Image :=
  let lab := astype_float32 lab8 in
  let adjustment_factor := fl64 (1 + fl64 (adjustment / 100)) in
  lab <- where_chan0 skin_mask
           (fun l => np_clip (mul32 l adjustment_factor) 0 100) lab ;;
  Ok (astype_uint8_image lab).

Definition adjust_lightness (image : Image) (adjustment : Q) : result Image :=
  try_except
    (let result := image in
     skin_mask <- _detect_skin_mask image ;;
     if np_sum skin_mask =? 0 then Ok result
     else
       lab8 <- cvtColor result COLOR_RGB2LAB ;;
       lab <- scaled_lab skin_mask adjustment lab8 ;;
       cvtColor lab COLOR_LAB2RGB)
    (reraise "Lightness adjustment failed: ").

Definition adjust_warmth (image : Image) (adjustment : Q) : result Image :=
  try_except
    (let result := astype_float32 image in
     skin_mask <- _detect_skin_mask image ;;
     if np_sum skin_mask =? 0 then Ok image
     else
       let warmth_factor := fl64 (adjustment / 100) in
       let red_adjustment :=
         if Qltb 0 warmth_factor
         then fl64 (1 + fl64 (warmth_factor * fl64 0.3))
         else fl64 (1 + fl64 (warmth_factor * fl64 0.2)) in
       let blue_adjustment :=
         if Qltb 0 warmth_factor
         then fl64 (1 - fl64 (warmth_factor * fl64 0.2))
         else fl64 (1 - fl64 (warmth_factor * fl64 0.3)) in
       result <- where_chan0 skin_mask
                   (fun r => np_clip (mul32 r red_adjustment) 0 255) result ;;
       result <- where_chan2 skin_mask
                   (fun b => np_clip (mul32 b blue_adjustment) 0 255) result ;;
       Ok (astype_uint8_image result))
    (reraise "Warmth adjustment failed: ").

Definition adjust_saturation (image : Image) (adjustment : Q)
  : result Image :=
  try_except
    (let result := image in
     skin_mask <- _detect_skin_mask image ;;
     if np_sum skin_mask =? 0 then Ok result
     else
       hsv8 <- cvtColor result COLOR_RGB2HSV ;;
       let hsv := astype_float32 hsv8 in
       let saturation_factor := fl64 (1 + fl64 (adjustment / 100)) in
       hsv <- where_chan1 skin_mask
                (fun s => np_clip (mul32 s saturation_factor) 0 255) hsv ;;
       cvtColor (astype_uint8_image hsv) COLOR_HSV2RGB)
    (reraise "Saturation adjustment failed: ").

Definition change_skin_tone (image : Image) (target_tone : string)
  : result Image :=
  try_except
    (let result := image in
     match lookup_preset adjustments target_tone with
     | None =>
         Raise (Exn ValueError ("Unknown target tone: " ++ target_tone))
     | Some params =>
         result <- (if Qeq_bool (preset_lightness params) 0 then Ok result
                    else adjust_lightness result (preset_lightness params)) ;;
         result <- (if Qeq_bool (preset_warmth params) 0 then Ok result
                    else adjust_warmth result (preset_warmth params)) ;;
         result <- (if Qeq_bool (preset_saturation params) 0 then Ok result
                    else adjust_saturation result
                           (preset_saturation params)) ;;
         Ok result
     end)
    (reraise "Skin tone change failed: ").

(** The dispatch of [adjust_skin_tone] in [src/app/main.py] on the kind of
    adjustment. *)
Definition adjust (kind : AdjustmentKind) (image : Image) (value : Q)
  : result Image :=
  match kind with
  | Lightness => adjust_lightness image value
  | Warmth => adjust_warmth image value
  | Saturation => adjust_saturation image value
  end.

End SkinToneModifier.

(* ================================================================== *)
(** ** Test doubles for the libraries

    Small executable stand-ins on which the definitions above can be run.
    The colour conversions follow the formulas that OpenCV documents for
    8-bit images (HSV, YCrCb); LAB, which needs cube roots, is stood in for
    by YCrCb (luma in place of L on the 8-bit scale).  The morphology and the
    blur leave the mask as it is.  [KMeans_fit] validates its arguments as
    scikit-learn does and runs Lloyd's iterations from a farthest-first
    choice of initial centres.  The theorems quantify over all instances of
    the classes; the doubles only serve the concrete examples. *)

Module TestDouble.

Definition Qround_half_up (x : Q) : Z := Qfloor (x + (1 # 2)).

Definition saturate_u8 (z : Z) : Z := Z.max 0 (Z.min 255 z).

Definition max3 (a b c : Z) : Z := Z.max a (Z.max b c).
Definition min3 (a b c : Z) : Z := Z.min a (Z.min b c).

Definition rgb2hsv_u8 (p : Pixel) : Pixel :=
  let '(r, g, b) := p in
  let v := max3 r g b in
  let d := v - min3 r g b in
  let s := if v =? 0 then 0%Q else (255 * inject_Z d / inject_Z v)%Q in
  let h :=
    if d =? 0 then 0%Q
    else if v =? r then (60 * inject_Z (g - b) / inject_Z d)%Q
    else if v =? g then (120 + 60 * inject_Z (b - r) / inject_Z d)%Q
    else (240 + 60 * inject_Z (r - g) / inject_Z d)%Q in
  let h := if Qltb h 0 then (h + 360)%Q else h in
  (saturate_u8 (Qround_half_up (h / 2)) mod 180,
   saturate_u8 (Qround_half_up s), v).

Definition rgb2ycrcb_u8 (p : Pixel) : Pixel :=
  let '(r, g, b) := p in
  let y := (0.299 * inject_Z r + 0.587 * inject_Z g + 0.114 * inject_Z b)%Q in
  (saturate_u8 (Qround_half_up y),
   saturate_u8 (Qround_half_up ((inject_Z r - y) * 0.713 + 128)),
   saturate_u8 (Qround_half_up ((inject_Z b - y) * 0.564 + 128))).

Definition ycrcb2rgb_u8 (p : Pixel) : Pixel :=
  let '(y, cr, cb) := p in
  let y := inject_Z y in
  let cr := inject_Z (cr - 128) in
  let cb := inject_Z (cb - 128) in
  (saturate_u8 (Qround_half_up (y + 1.403 * cr)),
   saturate_u8 (Qround_half_up (y - 0.714 * cr - 0.344 * cb)),
   saturate_u8 (Qround_half_up (y + 1.773 * cb))).

Definition hsv2rgb_u8 (p : Pixel) : Pixel :=
  let '(h, s, v) := p in
  let hq := (inject_Z h * 2 / 60)%Q in
  let i := Qfloor hq in
  let f := (hq - inject_Z i)%Q in
  let s := (inject_Z s / 255)%Q in
  let v := inject_Z v in
  let p' := (v * (1 - s))%Q in
  let q := (v * (1 - s * f))%Q in
  let t := (v * (1 - s * (1 - f)))%Q in
  let out (x : Q) := saturate_u8 (Qround_half_up x) in
  if i =? 0 then (out v, out t, out p')
  else if i =? 1 then (out q, out v, out p')
  else if i =? 2 then (out p', out v, out t)
  else if i =? 3 then (out p', out q, out v)
  else if i =? 4 then (out t, out p', out v)
  else (out v, out p', out q).

Definition is_empty_image (a : Image) : bool :=
  match a with
  | [] => true
  | _ => existsb (fun row => match row with [] => true | _ => false end) a
  end.

Definition cvtColor_double (src : Image) (code : ColorConversion)
  : result Image :=
  if is_empty_image src then
    Raise (Exn LibraryError "(-215:Assertion failed) !_src.empty()")
  else
    Ok (map2d (match code with
               | COLOR_RGB2HSV => rgb2hsv_u8
               | COLOR_RGB2YCrCb => rgb2ycrcb_u8
               | COLOR_RGB2LAB => rgb2ycrcb_u8
               | COLOR_LAB2RGB => ycrcb2rgb_u8
               | COLOR_HSV2RGB => hsv2rgb_u8
               end) src).

Definition Cv2_double : Cv2 := {|
  cvtColor := cvtColor_double;
  morphologyEx := fun m _ => Ok m;
  GaussianBlur := fun m _ => Ok m
|}.

(** k-means *)

Definition to_float (p : Pixel) : FPixel :=
  (inject_Z (chan0 p), inject_Z (chan1 p), inject_Z (chan2 p)).

Definition sqdist (a b : FPixel) : Q :=
  Qred ((chan0 a - chan0 b) * (chan0 a - chan0 b)
        + (chan1 a - chan1 b) * (chan1 a - chan1 b)
        + (chan2 a - chan2 b) * (chan2 a - chan2 b)).

Fixpoint argmin_from (best_i : nat) (best : Q) (i : nat) (l : list Q)
  : nat :=
  match l with
  | [] => best_i
  | x :: t =>
      if Qltb x best then argmin_from i x (S i) t
      else argmin_from best_i best (S i) t
  end.

(** Index of the nearest centre, the first one on a tie. *)
Definition nearest (centers : list FPixel) (p : FPixel) : nat :=
  match map (sqdist p) centers with
  | [] => 0%nat
  | d :: t => argmin_from 0 d 1 t
  end.

Definition min_dist (chosen : list FPixel) (p : FPixel) : Q :=
  match map (sqdist p) chosen with
  | [] => 0%Q
  | d :: t => fold_left py_min t d
  end.

(** The sample that lies farthest from the centres chosen so far. *)
Fixpoint farthest (chosen : list FPixel) (best : FPixel) (X : list FPixel)
  : FPixel :=
  match X with
  | [] => best
  | x :: t =>
      if Qltb (min_dist chosen best) (min_dist chosen x)
      then farthest chosen x t
      else farthest chosen best t
  end.

Fixpoint init_centers (k : nat) (X : list FPixel) (chosen : list FPixel)
  : list FPixel :=
  match k with
  | O => chosen
  | S k' =>
      match X with
      | [] => chosen
      | x :: _ => init_centers k' X (chosen ++ [farthest chosen x X])
      end
  end.

Definition mean_pixel (l : list FPixel) : FPixel :=
  (Qred (np_mean (map chan0 l)), Qred (np_mean (map chan1 l)),
   Qred (np_mean (map chan2 l))).

Definition lloyd_step (X : list FPixel) (centers : list FPixel)
  : list FPixel :=
  map (fun jc =>
         match filter (fun x => Nat.eqb (nearest centers x) (fst jc)) X with
         | [] => snd jc
         | members => mean_pixel members
         end)
      (combine (seq 0 (List.length centers)) centers).

Fixpoint lloyd (iterations : nat) (X : list FPixel) (centers : list FPixel)
  : list FPixel :=
  match iterations with
  | O => centers
  | S n => lloyd n X (lloyd_step X centers)
  end.

Definition KMeans_double (n_clusters : nat) (X : list Pixel)
  : result (list FPixel * list nat) :=
  if (n_clusters =? 0)%nat then
    Raise (Exn ValueError "n_clusters must be an int in the range [1, inf)")
  else if (List.length X <? n_clusters)%nat then
    Raise (Exn ValueError "n_samples should be >= n_clusters")
  else
    let Xf := map to_float X in
    let centers :=
      match Xf with
      | [] => []
      | x :: _ => lloyd 4 Xf (init_centers (n_clusters - 1) Xf [x])
      end in
    Ok (centers, map (nearest centers) Xf).

Definition SkLearn_double : SkLearn := {|
  KMeans_fit := KMeans_double
|}.

(** The same clustering with the centres computed as scikit-learn computes
    them on dense data, in binary64: the mean of all samples is subtracted
    from the samples before the iterations, a centre is the sum of the
    centred samples of its cluster times the reciprocal of their number,
    and the mean is added back to the centres at the end. *)
Fixpoint sum64 (l : list Q) (acc : Q) : Q :=
  match l with
  | [] => acc
  | x :: t => sum64 t (fl64 (acc + x))
  end.

Definition mean64 (l : list Q) : Q :=
  fl64 (sum64 l 0 / inject_Z (Z.of_nat (List.length l))).

Definition centre64 (X_mean : Q) (members : list Q) : Q :=
  let centred := map (fun x => fl64 (x - X_mean)) members in
  let alpha := fl64 (1 / inject_Z (Z.of_nat (List.length members))) in
  Qred (fl64 (fl64 (sum64 centred 0 * alpha) + X_mean)).

Definition KMeans_centred (n_clusters : nat) (X : list Pixel)
  : result (list FPixel * list nat) :=
  fit <- KMeans_double n_clusters X ;;
  let '(centers, labels) := fit in
  let Xf := map to_float X in
  let members j :=
    map fst (filter (fun xl => Nat.eqb (snd xl) j) (combine Xf labels)) in
  let centre j (exact : FPixel) : FPixel :=
    match members j with
    | [] => exact
    | m =>
        (centre64 (mean64 (map chan0 Xf)) (map chan0 m),
         centre64 (mean64 (map chan1 Xf)) (map chan1 m),
         centre64 (mean64 (map chan2 Xf)) (map chan2 m))
    end in
  Ok (map (fun jc => centre (fst jc) (snd jc))
          (combine (seq 0 (List.length centers)) centers),
      labels).

Definition SkLearn_centred : SkLearn := {|
  KMeans_fit := KMeans_centred
|}.

(** scikit-image: hue, saturation and value as [rgb2hsv] computes them; the
    lightness is stood in for by 100 times the luma. *)
Definition rgb2hsv_double (p : FPixel) : result FPixel :=
  let '(r, g, b) := p in
  let v := py_max r (py_max g b) in
  let mn := py_min r (py_min g b) in
  let d := (v - mn)%Q in
  let s := if Qeq_bool d 0 then 0%Q else Qred (d / v) in
  let h :=
    if Qeq_bool d 0 then 0%Q
    else if Qeq_bool v r then ((g - b) / d)%Q
    else if Qeq_bool v g then (2 + (b - r) / d)%Q
    else (4 + (r - g) / d)%Q in
  Ok (Qred (py_mod (h / 6) 1), s, Qred v).

Definition rgb2lab_double (p : FPixel) : result FPixel :=
  let '(r, g, b) := p in
  Ok (Qred (100 * (0.299 * r + 0.587 * g + 0.114 * b)), 0%Q, 0%Q).

Definition SkImage_double : SkImage := {|
  rgb2lab := rgb2lab_double;
  rgb2hsv := rgb2hsv_double
|}.

(** A scikit-image whose conversions raise, to exercise the [except]
    paths. *)
Definition SkImage_failing : SkImage := {|
  rgb2lab := fun _ => Raise (Exn LibraryError "conversion failed");
  rgb2hsv := fun _ => Raise (Exn LibraryError "conversion failed")
|}.

(** Sample images: a uniform skin-coloured patch, a black patch, an image
    without pixels, and a row with one skin pixel and one black pixel. *)
Definition skin_colour : Pixel := (200, 150, 120).
Definition skin_patch : Image := repeat (repeat skin_colour 4) 4.
Definition black_patch : Image := repeat (repeat (0, 0, 0) 4) 4.
Definition no_pixels : Image := [].
Definition mixed_row : Image := [[skin_colour; (0, 0, 0)]].

(** Nine pixels of one colour and one pixel of another. *)
Definition nine_violet_one_orange : list Pixel :=
  (repeat (130, 9, 237) 9 ++ [(200, 101, 50)])%list.

(** Twenty pixels and a mask that marks one of them. *)
Definition twenty_pixels : Image := repeat (repeat (0, 0, 0) 10) 2.
Definition one_in_twenty : Mask := [255 :: repeat 0 9; repeat 0 10].

End TestDouble.

(* ================================================================== *)
(** ** [ColorAnalyzer.get_seasonal_color_palette] *)

(** The entries of a skin-analysis dict that its consumers read; a key that
    is missing from the dict is [None]. *)
Record SkinAnalysisDict : Type := {
  sa_category : option string;
  sa_undertone : option string;
  sa_lightness : option Q
}.

(** The dict that [analyze_skin_tone] returns, as its consumers see it. *)
Definition as_dict (a : Analysis) : SkinAnalysisDict :=
  {| sa_category := Some (category a);
     sa_undertone := Some (undertone a);
     sa_lightness := Some (lightness a) |}.

(** [skin_analysis[key]] raises KeyError on a missing key; the function
    catches every exception and returns 'Universal'. *)
Definition get_seasonal_color_palette (skin_analysis : SkinAnalysisDict)
  : string :=
  let body : option string :=
    match sa_lightness skin_analysis with
    | None => None
    | Some lightness =>
        match sa_undertone skin_analysis with
        | None => None
        | Some undertone =>
            if String.eqb undertone "Cool" then
              if Qltb 60 lightness then Some "Summer" else Some "Winter"
            else if String.eqb undertone "Warm" then
              if Qltb 60 lightness then Some "Spring" else Some "Autumn"
            else
              if Qltb 60 lightness then Some "Light Summer"
              else Some "Deep Autumn"
        end
    end in
  match body with
  | Some season => season
  | None => "Universal"
  end.

(* ================================================================== *)
(** ** [SkinToneModifier]: feathered adjustment and texture smoothing *)

(** [cv2.bilateralFilter(image, 15, 80, 80)] *)
Class Cv2Filter : Type := {
  bilateralFilter : Image -> result Image
}.

(** One channel of [a * (1 - alpha) + b * alpha] on float32 arrays: the
    difference, the two products and the sum are float32 operations. *)
Definition mix (alpha a b : Q) : Q :=
  fl32 (fl32 (a * fl32 (1 - alpha)) + fl32 (b * alpha)).

(** The loop over the three channels,
    [result[:, :, c] = result[:, :, c] * (1 - alpha) + other[:, :, c] * alpha],
    on float copies of two images, followed by [astype(np.uint8)]. *)
Definition blend (image other : Image) (alpha : list (list Q))
  : result Image :=
  let result := astype_float32 image in
  let other := astype_float32 other in
  pairs <- zip2d ValueError (fun p a => (p, a)) result other ;;
  result <- zip2d ValueError
              (fun (pa : FPixel * FPixel) (f : Q) =>
                 (mix f (chan0 (fst pa)) (chan0 (snd pa)),
                  mix f (chan1 (fst pa)) (chan1 (snd pa)),
                  mix f (chan2 (fst pa)) (chan2 (snd pa))))
              pairs alpha ;;
  Ok (astype_uint8_image result).

(** [feathered_mask.astype(np.float32) / 255.0], one entry: a float32
    division. *)
Definition feather_weight (v : Z) : Q := fl32 (inject_Z v / 255).

(** [(skin_mask / 255.0 * smoothing).astype(np.float32)], one entry: the
    uint8 mask over a Python float is float64, and so is the product; the
    cast rounds it to float32. *)
Definition texture_weight (smoothing : Q) (v : Z) : Q :=
  fl32 (fl64 (fl64 (inject_Z v / 255) * smoothing)).

Section SkinToneModifierBlending.
Context {cv : Cv2} {cvf : Cv2Filter}.

Definition apply_gradual_adjustment (image : Image) (adjustment_type : string)
  (intensity : Q) (feather_radius : nat) : result Image :=
  try_except
    (skin_mask <- _detect_skin_mask image ;;
     if np_sum skin_mask =? 0 then Ok image
     else
       feathered_mask <- GaussianBlur skin_mask
                           ((feather_radius * 2 + 1)%nat,
                            (feather_radius * 2 + 1)%nat) ;;
       let feathered_mask :=
         map2d feather_weight feathered_mask in
       if String.eqb adjustment_type "lightness" then
         adjusted <- adjust_lightness image intensity ;;
         blend image adjusted feathered_mask
       else if String.eqb adjustment_type "warmth" then
         adjusted <- adjust_warmth image intensity ;;
         blend image adjusted feathered_mask
       else if String.eqb adjustment_type "saturation" then
         adjusted <- adjust_saturation image intensity ;;
         blend image adjusted feathered_mask
       else Ok image)
    (reraise "Gradual adjustment failed: ").

Definition enhance_skin_texture (image : Image) (smoothing : Q)
  : result Image :=
  try_except
    (skin_mask <- _detect_skin_mask image ;;
     if np_sum skin_mask =? 0 then Ok image
     else
       smoothed <- bilateralFilter image ;;
       let skin_mask_norm :=
         map2d (texture_weight smoothing) skin_mask in
       blend image smoothed skin_mask_norm)
    (reraise "Skin texture enhancement failed: ").

End SkinToneModifierBlending.

(** A stand-in for the bilateral filter: the mean of each row, to have a
    filter that changes pixels. *)
Definition row_mean_filter (image : Image) : result Image :=
  Ok (map (fun row =>
             let m (f : Pixel -> Z) :=
               Qfloor (np_mean (map (fun p => inject_Z (f p)) row)) in
             map (fun _ => (m chan0, m chan1, m chan2)) row)
          image).

Definition Cv2Filter_double : Cv2Filter := {|
  bilateralFilter := row_mean_filter
|}.

(* ================================================================== *)
(** ** [ColorRecommendationService], the consumer of the analysis

    From [src/services/color_recommendations.py].  Strings are ASCII:
    [lower] acts on the letters A to Z. *)

Definition lower_char (c : Ascii.ascii) : Ascii.ascii :=
  let n := Ascii.nat_of_ascii c in
  if ((65 <=? n) && (n <=? 90))%nat then Ascii.ascii_of_nat (n + 32) else c.

(** [s.lower()] *)
Fixpoint py_lower (s : string) : string :=
  match s with
  | EmptyString => EmptyString
  | String c rest => String (lower_char c) (py_lower rest)
  end.

(** [s.replace(' ', '_')] *)
Fixpoint replace_space (s : string) : string :=
  match s with
  | EmptyString => EmptyString
  | String c rest =>
      String (if Ascii.eqb c " "%char then "_"%char else c)
             (replace_space rest)
  end.

(** [needle in haystack] on strings *)
Fixpoint py_in (needle haystack : string) : bool :=
  if String.prefix needle haystack then true
  else match haystack with
       | EmptyString => false
       | String _ rest => py_in needle rest
       end.

Definition _normalize_category (category : string) : string :=
  let category_lower := replace_space (py_lower category) in
  if py_in "very_light" category_lower || py_in "very light" category_lower
  then "very_light"
  else if py_in "light" category_lower
          && negb (py_in "medium" category_lower)
  then "light"
  else if py_in "dark" category_lower
          && negb (py_in "medium" category_lower)
  then "dark"
  else "medium".

Definition _normalize_undertone (undertone : string) : string :=
  let undertone_lower := py_lower undertone in
  if py_in "cool" undertone_lower then "cool"
  else if py_in "warm" undertone_lower then "warm"
  else "neutral".

Record Palette : Type := {
  best : list string;
  avoid : list string
}.

(** [self.color_palettes] *)
Definition color_palettes : list (string * list (string * Palette)) :=
  [
    ("very_light",
     [
       ("cool",
        {| best := ["#E6F3FF"; "#B3D9FF"; "#80BFFF"; "#4D9FFF"; "#1A7FFF"; "#0066E6"; "#004DB3"; "#003380"];
           avoid := ["#FF6B35"; "#FF8C42"; "#FFA500"; "#FFD700"; "#FFFF00"; "#ADFF2F"; "#32CD32"] |});
       ("warm",
        {| best := ["#FFF8E1"; "#FFECB3"; "#FFE082"; "#FFD54F"; "#FFCA28"; "#FFC107"; "#FFB300"; "#FFA000"];
           avoid := ["#8A2BE2"; "#9932CC"; "#BA55D3"; "#DA70D6"; "#EE82EE"; "#DDA0DD"; "#D8BFD8"] |});
       ("neutral",
        {| best := ["#F5F5F5"; "#E0E0E0"; "#BDBDBD"; "#9E9E9E"; "#757575"; "#616161"; "#424242"; "#212121"];
           avoid := ["#FF1493"; "#FF69B4"; "#FFB6C1"; "#FFC0CB"; "#FFCCCB"; "#F0E68C"; "#BDB76B"] |}) ]);
    ("light",
     [
       ("cool",
        {| best := ["#E1F5FE"; "#B3E5FC"; "#81D4FA"; "#4FC3F7"; "#29B6F6"; "#03A9F4"; "#039BE5"; "#0288D1"];
           avoid := ["#FF5722"; "#FF7043"; "#FF8A65"; "#FFAB91"; "#FFCCBC"; "#FBE9E7"; "#EFEBE9"] |});
       ("warm",
        {| best := ["#FFF3E0"; "#FFE0B2"; "#FFCC80"; "#FFB74D"; "#FFA726"; "#FF9800"; "#FB8C00"; "#F57C00"];
           avoid := ["#3F51B5"; "#5C6BC0"; "#7986CB"; "#9FA8DA"; "#C5CAE9"; "#E8EAF6"; "#F3E5F5"] |});
       ("neutral",
        {| best := ["#FAFAFA"; "#F5F5F5"; "#EEEEEE"; "#E0E0E0"; "#BDBDBD"; "#9E9E9E"; "#757575"; "#616161"];
           avoid := ["#E91E63"; "#F06292"; "#F48FB1"; "#F8BBD9"; "#FCE4EC"; "#FFF0F5"; "#FFFACD"] |}) ]);
    ("medium",
     [
       ("cool",
        {| best := ["#B39DDB"; "#9575CD"; "#7E57C2"; "#673AB7"; "#5E35B1"; "#512DA8"; "#4527A0"; "#311B92"];
           avoid := ["#FF6F00"; "#FF8F00"; "#FFA000"; "#FFB300"; "#FFC107"; "#FFD54F"; "#FFE082"] |});
       ("warm",
        {| best := ["#FFAB91"; "#FF8A65"; "#FF7043"; "#FF5722"; "#F4511E"; "#E64A19"; "#D84315"; "#BF360C"];
           avoid := ["#00BCD4"; "#26C6DA"; "#4DD0E1"; "#80DEEA"; "#B2EBF2"; "#E0F2F1"; "#F1F8E9"] |});
       ("neutral",
        {| best := ["#D7CCC8"; "#BCAAA4"; "#A1887F"; "#8D6E63"; "#795548"; "#6D4C41"; "#5D4037"; "#4E342E"];
           avoid := ["#FF4081"; "#FF80AB"; "#FFAB91"; "#FFCCBC"; "#FBE9E7"; "#EFEBE9"; "#D7CCC8"] |}) ]);
    ("dark",
     [
       ("cool",
        {| best := ["#7B1FA2"; "#8E24AA"; "#9C27B0"; "#AB47BC"; "#BA68C8"; "#CE93D8"; "#E1BEE7"; "#F3E5F5"];
           avoid := ["#FFEB3B"; "#FFF176"; "#FFF59D"; "#FFF9C4"; "#FFFDE7"; "#F9FBE7"; "#F1F8E9"] |});
       ("warm",
        {| best := ["#BF360C"; "#D84315"; "#E64A19"; "#F4511E"; "#FF5722"; "#FF7043"; "#FF8A65"; "#FFAB91"];
           avoid := ["#E3F2FD"; "#BBDEFB"; "#90CAF9"; "#64B5F6"; "#42A5F5"; "#2196F3"; "#1E88E5"] |});
       ("neutral",
        {| best := ["#3E2723"; "#4E342E"; "#5D4037"; "#6D4C41"; "#795548"; "#8D6E63"; "#A1887F"; "#BCAAA4"];
           avoid := ["#FFCDD2"; "#F8BBD9"; "#E1BEE7"; "#D1C4E9"; "#C5CAE9"; "#BBDEFB"; "#B3E5FC"] |}) ]) ].

(** [d[key]] on a dict given as a list of items: [None] for a KeyError. *)
Fixpoint dict_item {V : Type} (d : list (string * V)) (key : string)
  : option V :=
  match d with
  | [] => None
  | (k, v) :: rest => if String.eqb key k then Some v else dict_item rest key
  end.

(** [self.color_palettes[category][undertone]] *)
Definition palette_lookup (category undertone : string) : option Palette :=
  match dict_item color_palettes category with
  | Some by_undertone => dict_item by_undertone undertone
  | None => None
  end.

Definition empty_palette : Palette := {| best := []; avoid := [] |}.

Definition _get_base_palette (category undertone : string) : Palette :=
  match palette_lookup category undertone with
  | Some palette => palette
  | None =>
      (* except KeyError *)
      match palette_lookup "medium" "neutral" with
      | Some palette => palette
      | None => empty_palette
      end
  end.

(** One entry of the lists of recommended colours. *)
Record ColorEntry : Type := {
  entry_hex : string;
  entry_name : string;
  entry_category : string
}.

Definition color_names : list string :=
  [ "Navy Blue"; "Royal Blue"; "Sky Blue"; "Powder Blue";
    "Forest Green"; "Emerald"; "Sage Green"; "Mint Green";
    "Burgundy"; "Crimson"; "Rose"; "Blush Pink";
    "Charcoal"; "Slate Gray"; "Silver"; "Pearl White" ].

Definition avoid_names : list string :=
  [ "Bright Orange"; "Neon Yellow"; "Hot Pink"; "Electric Blue";
    "Lime Green"; "Purple"; "Magenta"; "Coral" ].

(** The loop [for i, color_hex in enumerate(colors)] that appends one entry
    per colour, with the name [names[i % len(names)]]. *)
Fixpoint name_colors (names : list string) (tag : string) (i : nat)
  (colors : list string) : list ColorEntry :=
  match colors with
  | [] => []
  | color_hex :: rest =>
      {| entry_hex := color_hex;
         entry_name := nth (i mod List.length names) names EmptyString;
         entry_category := tag |}
      :: name_colors names tag (S i) rest
  end.

Definition _generate_best_colors (palette : Palette) (lightness : Q)
  : list ColorEntry :=
  name_colors color_names "best" 0 (firstn 8 (best palette)).

Definition _generate_avoid_colors (palette : Palette) (lightness : Q)
  : list ColorEntry :=
  name_colors avoid_names "avoid" 0 (firstn 8 (avoid palette)).

(** [best_colors[i]['hex']]; the index is in range wherever the code uses
    it. *)
Definition hex_at (best_colors : list ColorEntry) (i : nat) : string :=
  match nth_error best_colors i with
  | Some e => entry_hex e
  | None => EmptyString
  end.

Definition _generate_outfit_combinations (best_colors : list ColorEntry)
  (category undertone : string) : list (list string) :=
  let combinations := [] in
  let combinations :=
    if (4 <=? List.length best_colors)%nat then
      (combinations ++ [[hex_at best_colors 0; hex_at best_colors 1;
                         hex_at best_colors 2; "#FFFFFF"]])%list
    else combinations in
  let combinations :=
    if (6 <=? List.length best_colors)%nat then
      (combinations ++ [[hex_at best_colors 2; hex_at best_colors 4;
                         hex_at best_colors 5; "#F5F5F5"]])%list
    else combinations in
  let combinations :=
    if (3 <=? List.length best_colors)%nat then
      (combinations ++ [["#000000"; hex_at best_colors 0;
                         hex_at best_colors 1; "#FFFFFF"]])%list
    else combinations in
  combinations.

(** [skin_analysis.get(key, default)] *)
Definition dict_get_default {A : Type} (v : option A) (default : A) : A :=
  match v with
  | Some x => x
  | None => default
  end.

Record SeasonalColors : Type := {
  season : string;
  season_colors : list string;
  season_description : string
}.

Definition _get_seasonal_recommendations (skin_analysis : SkinAnalysisDict)
  : SeasonalColors :=
  let undertone :=
    _normalize_undertone
      (dict_get_default (sa_undertone skin_analysis) "neutral") in
  let lightness := dict_get_default (sa_lightness skin_analysis) 50%Q in
  let '(season, colors) :=
    if String.eqb undertone "cool" then
      if Qltb 60 lightness then
        ("Summer",
         ["#E6F3FF"; "#B3D9FF"; "#80BFFF"; "#4D9FFF"; "#E1BEE7"; "#CE93D8"])
      else
        ("Winter",
         ["#000000"; "#FFFFFF"; "#FF0000"; "#0000FF"; "#800080"; "#008000"])
    else if String.eqb undertone "warm" then
      if Qltb 60 lightness then
        ("Spring",
         ["#FFE082"; "#FFD54F"; "#FFCA28"; "#FFC107"; "#FF8A65"; "#FF7043"])
      else
        ("Autumn",
         ["#8D6E63"; "#795548"; "#6D4C41"; "#5D4037"; "#FF5722"; "#E64A19"])
    else
      ("Universal",
       ["#9E9E9E"; "#757575"; "#616161"; "#424242"; "#BDBDBD"; "#E0E0E0"]) in
  {| season := season;
     season_colors := colors;
     season_description :=
       "Your " ++ season ++ " palette complements your " ++ undertone
       ++ " undertone perfectly." |}.

(* ================================================================== *)
(** * Properties *)

Import TestDouble.

(** ** Specification-level notions *)

(** The fraction of the image's pixels that the mask marks as skin. *)
Definition skin_fraction (skin_mask : Mask) (image : Image) : Q :=
  (inject_Z (count_positive skin_mask)
   / inject_Z (Z.of_nat (shape0 image) * Z.of_nat (shape1 image)))%Q.

(** A category of the table matches a lightness value. *)
Definition category_matches (lightness : Q)
  (item : string * ((Q * Q) * string)) : bool :=
  in_range (fst (snd item)) lightness.

Definition category_name (item : string * ((Q * Q) * string)) : string :=
  snd (snd item).

(** Normalised red minus normalised blue of a mean colour, as a real
    number. *)
Definition red_blue_diff (r b : Q) : Q := (r / 255 - b / 255)%Q.

(** The same difference as the code computes it: two binary64 divisions and
    a binary64 subtraction. *)
Definition red_blue_computed (r b : Q) : Q :=
  fl64 (fl64 (r / 255) - fl64 (b / 255)).

(** The conversion inside [_get_color_harmony_info]: reshape, normalise,
    [rgb2hsv]. *)
Definition harmony_conversion {si : SkImage} (rgb_color : list Q)
  : result FPixel :=
  rgb <- unpack3 rgb_color ;;
  rgb2hsv ((chan0 rgb / 255)%Q, (chan1 rgb / 255)%Q, (chan2 rgb / 255)%Q).

(** The message of the failure that [analyze_skin_tone] raises when no skin
    is detected. *)
Definition no_skin_message : string :=
  "Skin tone analysis failed: No skin regions detected in the image".

(** Reading of "the no-skin failure has an error kind of its own": the
    exception raised for a mask that sums to zero differs in class from the
    exception raised when the detection itself fails. *)
Definition no_skin_error_has_own_kind (cv : Cv2) (sk : SkLearn) (si : SkImage)
  : Prop :=
  forall image skin_mask image' cause e e',
    _detect_skin_regions image = Ok skin_mask ->
    np_sum skin_mask = 0 ->
    _detect_skin_regions image' = Raise cause ->
    analyze_skin_tone image = Raise e ->
    analyze_skin_tone image' = Raise e' ->
    exn_class e <> exn_class e'.

(** Every entry of the mask is zero. *)
Definition all_zero (m : Mask) : Prop := Forall (Forall (fun v => v = 0)) m.

(** The entries of uint8 arrays lie in 0..255. *)
Definition valid_u8 (v : Z) : Prop := 0 <= v <= 255.
Definition valid_pixel (p : Pixel) : Prop :=
  valid_u8 (chan0 p) /\ valid_u8 (chan1 p) /\ valid_u8 (chan2 p).
Definition valid_image (a : Image) : Prop := Forall (Forall valid_pixel) a.
Definition valid_mask (m : Mask) : Prop := Forall (Forall valid_u8) m.

(** Number of entries of a 2-D array. *)
Definition cells {A : Type} (a : list (list A)) : Z :=
  Z.of_nat (List.length (List.concat a)).

(** The entry at row [i], column [j]. *)
Definition at2 {A : Type} (a : list (list A)) (i j : nat) : option A :=
  match nth_error a i with
  | Some row => nth_error row j
  | None => None
  end.

(** A rational clamped to [0, 255] and cut to an integer. *)
Definition clamp_u8 (x : Q) : Z := Qfloor (np_clip x 0 255).

(** An 8-bit channel scaled by a Python float in float32, clamped to
    [0, 255] and cut to an integer. *)
Definition scale_u8 (x : Z) (factor : Q) : Z :=
  clamp_u8 (mul32 (inject_Z x) factor).

(** The warmth adjustment of one pixel, with the coefficients of the
    specification and the arithmetic of the code: [m] and the two factors
    are binary64, the scaling is float32. *)
Definition warmth_rounded (magnitude : Q) (v : Z) (p : Pixel) : Pixel :=
  let m := fl64 (magnitude / 100) in
  let '(r, g, b) := p in
  if 0 <? v then
    if Qltb 0 m then
      (scale_u8 r (fl64 (1 + fl64 (m * fl64 0.3))), g,
       scale_u8 b (fl64 (1 - fl64 (m * fl64 0.2))))
    else if Qltb m 0 then
      (scale_u8 r (fl64 (1 + fl64 (m * fl64 0.2))), g,
       scale_u8 b (fl64 (1 - fl64 (m * fl64 0.3))))
    else p
  else p.

(** The warmth adjustment of one pixel as the specification words it, in
    exact arithmetic: [magnitude] is the request in [-50, 50], [m] is
    [magnitude / 100], [v] is the mask at the pixel. *)
Definition warmth_spec (magnitude : Q) (v : Z) (p : Pixel) : Pixel :=
  let m := (magnitude / 100)%Q in
  let '(r, g, b) := p in
  if 0 <? v then
    if Qltb 0 m then
      (clamp_u8 (inject_Z r * (1 + 0.3 * m)), g,
       clamp_u8 (inject_Z b * (1 - 0.2 * m)))
    else if Qltb m 0 then
      (clamp_u8 (inject_Z r * (1 + 0.2 * m)), g,
       clamp_u8 (inject_Z b * (1 - 0.3 * m)))
    else p
  else p.

(** Number of pixels that a clustering assigns to cluster [i]. *)
Definition population (labels : list nat) (i : nat) : Z :=
  Z.of_nat (count_occ Nat.eq_dec labels i).

(** Order of two (count, index) pairs by count. *)
Definition le_key (x y : Z * nat) : Prop := fst x <= fst y.

Definition Pixel_eq_dec (p q : Pixel) : {p = q} + {p <> q}.
Proof. repeat decide equality. Defined.

(** Number of occurrences of a colour, and number of distinct colours. *)
Definition count_colour (pixels : list Pixel) (p : Pixel) : nat :=
  count_occ Pixel_eq_dec pixels p.
Definition distinct_colours (pixels : list Pixel) : nat :=
  List.length (nodup Pixel_eq_dec pixels).

(** A centre coincides with a pixel. *)
Definition centre_is (c : FPixel) (p : Pixel) : Prop :=
  (chan0 c == inject_Z (chan0 p))%Q /\
  (chan1 c == inject_Z (chan1 p))%Q /\
  (chan2 c == inject_Z (chan2 p))%Q.

(** A centre lies within one half of a pixel, channel by channel. *)
Definition near_u8 (c : Q) (x : Z) : Prop :=
  (inject_Z x - (1 # 2) < c)%Q /\ (c < inject_Z x + (1 # 2))%Q.
Definition centre_near (c : FPixel) (p : Pixel) : Prop :=
  near_u8 (chan0 c) (chan0 p) /\ near_u8 (chan1 c) (chan1 p) /\
  near_u8 (chan2 c) (chan2 p).

(** A clustering that separates the colours: every pixel lies within one
    half of the centre of its cluster, channel by channel.  The centres
    need not be exact. *)
Definition close_fit (centers : list FPixel) (pixels : list Pixel)
  (labels : list nat) : Prop :=
  Forall2 (fun p l =>
             exists c, nth_error centers l = Some c /\ centre_near c p)
          pixels labels.

(** A returned channel is the colour's channel or one below it. *)
Definition at_most_one_below (q p : Pixel) : Prop :=
  chan0 p - 1 <= chan0 q <= chan0 p /\
  chan1 p - 1 <= chan1 q <= chan1 p /\
  chan2 p - 1 <= chan2 q <= chan2 p.

(** Reading of the last clause of C6: with two colours in the ratio 9:1 and
    two clusters, the extraction returns the two colours, the frequent one
    first. *)
Definition two_colours_come_back (sk : SkLearn) : Prop :=
  forall pixels a b,
    a <> b -> valid_pixel a -> valid_pixel b ->
    Forall (fun p => p = a \/ p = b) pixels ->
    (0 < count_colour pixels b)%nat ->
    count_colour pixels a = (9 * count_colour pixels b)%nat ->
    _get_dominant_colors pixels 2 = Ok [a; b].

(** Reading of C7: the extraction raises on an empty pixel set and on a
    pixel set with fewer distinct colours than clusters. *)
Definition degenerate_input_raises (sk : SkLearn) : Prop :=
  forall pixels k,
    pixels = [] \/ (distinct_colours pixels < k)%nat ->
    exists e, _get_dominant_colors pixels k = Raise e.

(** The two [np.where] assignments and the final cast of [adjust_warmth],
    on one pixel. *)
Definition warmth_pixel (adjustment : Q) (v : Z) (p : Pixel) : Pixel :=
  let warmth_factor := fl64 (adjustment / 100) in
  let red_adjustment :=
    if Qltb 0 warmth_factor
    then fl64 (1 + fl64 (warmth_factor * fl64 0.3))
    else fl64 (1 + fl64 (warmth_factor * fl64 0.2)) in
  let blue_adjustment :=
    if Qltb 0 warmth_factor
    then fl64 (1 - fl64 (warmth_factor * fl64 0.2))
    else fl64 (1 - fl64 (warmth_factor * fl64 0.3)) in
  let f0 : FPixel :=
    (inject_Z (chan0 p), inject_Z (chan1 p), inject_Z (chan2 p)) in
  let f1 : FPixel :=
    if 0 <? v
    then (np_clip (mul32 (chan0 f0) red_adjustment) 0 255, chan1 f0, chan2 f0)
    else f0 in
  let f2 : FPixel :=
    if 0 <? v
    then (chan0 f1, chan1 f1, np_clip (mul32 (chan2 f1) blue_adjustment) 0 255)
    else f1 in
  astype_uint8_pixel f2.

(** The entry of the raw skin mask (before morphology and blur) for one
    pixel, given its HSV and YCrCb values. *)
Definition raw_mask_value (hsv_pixel ycrcb_pixel : Pixel) : Z :=
  if in_bounds lower_hsv upper_hsv hsv_pixel
     && in_bounds lower_ycrcb upper_ycrcb ycrcb_pixel
  then 255 else 0.

(** An array with at least one row and one column, all rows of one
    length. *)
Definition nonempty_array {A : Type} (a : list (list A)) : Prop :=
  exists h w, shape a = repeat (S w) (S h).

(** On a mask without skin that is not empty, the morphology (opening or
    closing with the 5x5 ellipse) and the blur with a 3x3 or a 5x5 kernel
    return a mask without skin of the same shape. *)
Definition keeps_zero_masks (cv : Cv2) : Prop :=
  (forall m op, nonempty_array m -> all_zero m ->
     exists m', morphologyEx m op = Ok m' /\ all_zero m' /\
                shape m' = shape m) /\
  (forall m k, nonempty_array m -> all_zero m -> k = 3%nat \/ k = 5%nat ->
     exists m', GaussianBlur m (k, k) = Ok m' /\ all_zero m' /\
                shape m' = shape m).

(** The names that the classifiers can return. *)
Definition category_names : list string :=
  ["Very Light"; "Light"; "Light Medium"; "Medium"; "Medium Dark"; "Dark"].
Definition undertone_names : list string := ["Warm"; "Cool"; "Neutral"].
Definition temperature_names : list string :=
  ["Warm"; "Neutral-Warm"; "Neutral"; "Neutral-Cool"; "Cool"].

(** The factor [1.0 + (adjustment / 100.0)] of the lightness and of the
    saturation adjustment, in binary64. *)
Definition scaling_factor (magnitude : Q) : Q :=
  fl64 (1 + fl64 (magnitude / 100)).

(** The LAB pixel that [adjust_lightness] hands back to the conversion:
    under the mask, L is scaled by the factor in float32, clipped to
    [0, 100] and cut to an integer. *)
Definition lightness_pixel (magnitude : Q) (v : Z) (p : Pixel) : Pixel :=
  if 0 <? v
  then (Qfloor (np_clip (mul32 (inject_Z (chan0 p))
                               (scaling_factor magnitude)) 0 100),
        chan1 p, chan2 p)
  else p.

(** The HSV pixel that [adjust_saturation] hands back to the conversion:
    under the mask, S is scaled by the factor in float32, clipped to
    [0, 255] and cut to an integer. *)
Definition saturation_pixel (magnitude : Q) (v : Z) (p : Pixel) : Pixel :=
  if 0 <? v
  then (chan0 p, scale_u8 (chan1 p) (scaling_factor magnitude), chan2 p)
  else p.

(** The 8-bit values. *)
Definition u8_values : list Z := map Z.of_nat (seq 0 256).

(** The message prefix of each adjustment. *)
Definition adjust_prefix (kind : AdjustmentKind) : string :=
  match kind with
  | Lightness => "Lightness adjustment failed: "
  | Warmth => "Warmth adjustment failed: "
  | Saturation => "Saturation adjustment failed: "
  end.

(** One pixel of [blend]: the channel-wise mix of an original pixel [p] and
    another pixel [a] with weight [f], cast to uint8. *)
Definition blend_pixel (f : Q) (p a : Pixel) : Pixel :=
  astype_uint8_pixel
    (mix f (inject_Z (chan0 p)) (inject_Z (chan0 a)),
     mix f (inject_Z (chan1 p)) (inject_Z (chan1 a)),
     mix f (inject_Z (chan2 p)) (inject_Z (chan2 a))).

(** The adjustment named by a string, as [apply_gradual_adjustment] reads
    it. *)
Definition kind_of_name (name : string) : option AdjustmentKind :=
  if String.eqb name "lightness" then Some Lightness
  else if String.eqb name "warmth" then Some Warmth
  else if String.eqb name "saturation" then Some Saturation
  else None.

(** Every palette of the table, with its two keys. *)
Definition all_palettes : list (string * string * Palette) :=
  flat_map (fun cu => map (fun up => (fst cu, fst up, snd up)) (snd cu))
           color_palettes.

Definition is_hex_digit (c : Ascii.ascii) : bool :=
  let n := Ascii.nat_of_ascii c in
  (((48 <=? n) && (n <=? 57)) || ((65 <=? n) && (n <=? 70)))%nat.

(** A string of the form #RRGGBB with upper-case hexadecimal digits. *)
Definition is_hex_color (s : string) : bool :=
  match s with
  | String c rest =>
      Ascii.eqb c "#"%char
      && (String.length rest =? 6)%nat
      && forallb is_hex_digit (list_ascii_of_string rest)
  | EmptyString => false
  end.

(** Two lists of strings have no common element. *)
Definition disjoint_strings (l1 l2 : list string) : bool :=
  forallb (fun x => negb (existsb (String.eqb x) l2)) l1.

(** What the lightness adjustment with magnitude 0 does to one LAB pixel
    before the conversion back to RGB. *)
Definition capped_lab (v : Z) (p : Pixel) : Pixel :=
  if 0 <? v then (Z.min (chan0 p) 100, chan1 p, chan2 p) else p.

(** ** Comparisons on rationals *)

Lemma Qltb_lt (x y : Q) : Qltb x y = true <-> (x < y)%Q.
Proof.
  unfold Qltb. rewrite negb_true_iff. split; intro H.
  - apply Qnot_le_lt. intro Hle. apply Qle_bool_iff in Hle. congruence.
  - destruct (Qle_bool y x) eqn:E; [| reflexivity].
    apply Qle_bool_iff in E. exfalso. apply (Qlt_not_le _ _ H E).
Qed.

Lemma Qltb_ge (x y : Q) : Qltb x y = false <-> (y <= x)%Q.
Proof.
  unfold Qltb. rewrite negb_false_iff. apply Qle_bool_iff.
Qed.

Lemma Qle_bool_gt (x y : Q) : Qle_bool x y = false <-> (y < x)%Q.
Proof.
  split; intro H.
  - apply Qnot_le_lt. intro Hle. apply Qle_bool_iff in Hle. congruence.
  - destruct (Qle_bool x y) eqn:E; [| reflexivity].
    apply Qle_bool_iff in E. exfalso. apply (Qlt_not_le _ _ H E).
Qed.

(** Decide every comparison in the goal and keep the consistent cases. *)
Ltac q_cases :=
  repeat match goal with
    | |- context [Qltb ?a ?b] =>
        let E := fresh "E" in
        destruct (Qltb a b) eqn:E;
        [apply Qltb_lt in E | apply Qltb_ge in E]
    | |- context [Qle_bool ?a ?b] =>
        let E := fresh "E" in
        destruct (Qle_bool a b) eqn:E;
        [apply Qle_bool_iff in E | apply Qle_bool_gt in E]
    end;
  simpl; try reflexivity; try (exfalso; lra).

(* ------------------------------------------------------------------ *)
(** ** Lightness categories *)

Lemma in_range_inside (lo hi L : Q) :
  (lo <= L)%Q -> (L < hi)%Q -> in_range (lo, hi) L = true.
Proof.
  intros H1 H2. unfold in_range. simpl.
  apply andb_true_iff. split; [apply Qle_bool_iff | apply Qltb_lt]; assumption.
Qed.

Lemma in_range_above (lo hi L : Q) :
  (hi <= L)%Q -> in_range (lo, hi) L = false.
Proof.
  intro H. unfold in_range. simpl.
  apply andb_false_iff. right. apply Qltb_ge. exact H.
Qed.

Lemma in_range_below (lo hi L : Q) :
  (L < lo)%Q -> in_range (lo, hi) L = false.
Proof.
  intro H. unfold in_range. simpl.
  apply andb_false_iff. left. apply Qle_bool_gt. exact H.
Qed.

(** Evaluate the classifier once the hypotheses place the lightness. *)
Ltac classify :=
  unfold _classify_skin_tone_category, skin_tone_categories;
  cbn [first_category];
  repeat first
    [ rewrite in_range_inside by lra
    | rewrite in_range_above by lra
    | rewrite in_range_below by lra ];
  try reflexivity;
  q_cases.

Lemma classify_bucket (L lo hi : Q) (key name : string) :
  In (key, ((lo, hi), name)) skin_tone_categories ->
  (lo <= L)%Q -> (L < hi)%Q ->
  _classify_skin_tone_category L = name.
Proof.
  intros Hin Hlo Hhi.
  unfold skin_tone_categories in Hin. simpl in Hin.
  repeat (destruct Hin as [Hin | Hin];
          [injection Hin as <- <- <- <-; classify |]).
  destruct Hin.
Qed.

Lemma category_unique (L : Q) (c c' : string * ((Q * Q) * string)) :
  In c skin_tone_categories -> In c' skin_tone_categories ->
  category_matches L c = true -> category_matches L c' = true ->
  c = c'.
Proof.
  unfold skin_tone_categories. simpl.
  intros Hc Hc'.
  repeat (destruct Hc as [Hc | Hc]; [subst c |]); try destruct Hc;
  repeat (destruct Hc' as [Hc' | Hc']; [subst c' |]); try destruct Hc';
  unfold category_matches, in_range; simpl fst; simpl snd;
  rewrite !andb_true_iff, !Qle_bool_iff, !Qltb_lt;
  intros [? ?] [? ?]; try reflexivity; exfalso; lra.
Qed.

Lemma category_exists (L : Q) :
  (0 <= L)%Q -> (L < 100)%Q ->
  exists c, In c skin_tone_categories /\ category_matches L c = true.
Proof.
  intros H0 H100.
  destruct (Qlt_le_dec L 25); [|
  destruct (Qlt_le_dec L 40); [|
  destruct (Qlt_le_dec L 55); [|
  destruct (Qlt_le_dec L 70); [|
  destruct (Qlt_le_dec L 85)]]]].
  1: exists ("very_light", ((0%Q, 25%Q), "Very Light")).
  2: exists ("light", ((25%Q, 40%Q), "Light")).
  3: exists ("light_medium", ((40%Q, 55%Q), "Light Medium")).
  4: exists ("medium", ((55%Q, 70%Q), "Medium")).
  5: exists ("medium_dark", ((70%Q, 85%Q), "Medium Dark")).
  6: exists ("dark", ((85%Q, 100%Q), "Dark")).
  all: (split; [unfold skin_tone_categories; simpl; tauto |]).
  all: unfold category_matches, in_range; simpl fst; simpl snd.
  all: rewrite andb_true_iff, Qle_bool_iff, Qltb_lt; split; assumption.
Qed.

(** C3.  For every lightness L with 0 <= L < 100 exactly one of the six
    categories matches, and the classifier returns its name; the buckets are
    the half-open intervals [0,25) Very Light, [25,40) Light, [40,55) Light
    Medium, [55,70) Medium, [70,85) Medium Dark, [85,100) Dark; L = 25 is
    "Light"; a value below 0 is "Very Light" and a value of 100 or more is
    "Dark". *)
Theorem classify_exhaustive_disjoint (L : Q) :
  ((0 <= L)%Q -> (L < 100)%Q ->
   exists c,
     In c skin_tone_categories /\
     category_matches L c = true /\
     (forall c', In c' skin_tone_categories ->
                 category_matches L c' = true -> c' = c) /\
     _classify_skin_tone_category L = category_name c) /\
  ((0 <= L)%Q -> (L < 25)%Q ->
   _classify_skin_tone_category L = "Very Light") /\
  ((25 <= L)%Q -> (L < 40)%Q -> _classify_skin_tone_category L = "Light") /\
  ((40 <= L)%Q -> (L < 55)%Q ->
   _classify_skin_tone_category L = "Light Medium") /\
  ((55 <= L)%Q -> (L < 70)%Q -> _classify_skin_tone_category L = "Medium") /\
  ((70 <= L)%Q -> (L < 85)%Q ->
   _classify_skin_tone_category L = "Medium Dark") /\
  ((85 <= L)%Q -> (L < 100)%Q -> _classify_skin_tone_category L = "Dark") /\
  _classify_skin_tone_category 25 = "Light" /\
  ((L < 0)%Q -> _classify_skin_tone_category L = "Very Light") /\
  ((100 <= L)%Q -> _classify_skin_tone_category L = "Dark").
Proof.
  split.
  { intros H0 H100.
    destruct (category_exists L H0 H100) as [c [Hin Hm]].
    exists c. split; [exact Hin |]. split; [exact Hm |]. split.
    - intros c' Hin' Hm'. exact (category_unique L c' c Hin' Hin Hm' Hm).
    - destruct c as [key [[lo hi] name]].
      unfold category_matches, in_range in Hm. simpl in Hm.
      apply andb_true_iff in Hm. destruct Hm as [Hlo Hhi].
      apply Qle_bool_iff in Hlo. apply Qltb_lt in Hhi.
      exact (classify_bucket L lo hi key name Hin Hlo Hhi). }
  repeat split; try reflexivity; intros; classify.
Qed.

Lemma classify_exhaustive_disjoint_witness :
  (0 <= 30)%Q /\ (30 < 100)%Q /\ _classify_skin_tone_category 30 = "Light".
Proof.
  split; [lra |]. split; [lra |].
  apply (proj1 (proj2 (proj2 (classify_exhaustive_disjoint 30)))); lra.
Defined.

(* ------------------------------------------------------------------ *)
(** ** Rounding *)

Lemma SF2Q_unsigned (x : spec_float) :
  match x with
  | S754_finite true _ _ => False
  | _ => True
  end -> (0 <= SF2Q x)%Q.
Proof.
  destruct x as [s | s | | s m e]; try (intros _; apply Qle_refl).
  destruct s; [contradiction |]. intros _. unfold SF2Q.
  destruct e as [| p | p].
  - unfold Qle. simpl. lia.
  - change 0%Q with (inject_Z 0). rewrite <- Zle_Qle.
    apply Z.mul_nonneg_nonneg; [lia | apply Z.pow_nonneg; lia].
  - unfold Qle. simpl. lia.
Qed.

Lemma round_pos_nonneg (prec emax : Z) (n d : positive) :
  (0 <= SF2Q (round_pos prec emax n d))%Q.
Proof.
  apply SF2Q_unsigned. unfold round_pos.
  destruct (SFdiv_core_binary prec emax (Zpos n) 0 (Zpos d) 0) as [[m e] l].
  unfold binary_round_aux.
  destruct (shr_fexp prec emax m e l) as [mrs e'].
  destruct (shr_fexp prec emax _ e' loc_Exact) as [mrs' e''].
  destruct (shr_m mrs'); try exact I.
  destruct (e'' <=? emax - prec); exact I.
Qed.

(** Rounding keeps the sign. *)
Lemma round_Q_nonneg (prec emax : Z) (x : Q) :
  (0 <= x)%Q -> (0 <= round_Q prec emax x)%Q.
Proof.
  intro H. unfold round_Q. destruct x as [n d]. simpl.
  destruct n as [| n | n].
  - apply Qle_refl.
  - apply round_pos_nonneg.
  - unfold Qle in H. simpl in H. lia.
Qed.

Lemma round_Q_nonpos (prec emax : Z) (x : Q) :
  (x <= 0)%Q -> (round_Q prec emax x <= 0)%Q.
Proof.
  intro H. unfold round_Q. destruct x as [n d]. simpl.
  destruct n as [| n | n].
  - apply Qle_refl.
  - unfold Qle in H. simpl in H. lia.
  - pose proof (round_pos_nonneg prec emax n d). lra.
Qed.

Lemma round_Q_zero (prec emax : Z) (x : Q) :
  (x == 0)%Q -> round_Q prec emax x = 0%Q.
Proof.
  intro H. unfold round_Q. destruct x as [n d]. unfold Qeq in H. simpl in *.
  assert (n = 0) by lia. subst n. reflexivity.
Qed.

(** Rounding is odd: [y - x] rounds to the opposite of what [x - y] rounds
    to. *)
Lemma round_Q_sub_swap (prec emax : Z) (x y : Q) :
  (round_Q prec emax (y - x) == - round_Q prec emax (x - y))%Q.
Proof.
  assert (Hn : Qnum (y - x) = - Qnum (x - y)).
  { destruct x as [xn xd], y as [yn yd]. simpl. ring. }
  assert (Hd : Qden (y - x) = Qden (x - y)).
  { destruct x as [xn xd], y as [yn yd]. simpl. apply Pos.mul_comm. }
  unfold round_Q. rewrite Hn, Hd.
  destruct (Qnum (x - y)) as [| n | n]; cbn [Z.opp].
  - reflexivity.
  - reflexivity.
  - symmetry. apply Qopp_involutive.
Qed.

(** The binary64 numbers next to 0.05 and 0.1. *)
Lemma fl64_0_05 : fl64 0.05 = 7205759403792794 # 144115188075855872.
Proof. vm_compute. reflexivity. Qed.

Lemma fl64_0_1 : fl64 0.1 = 7205759403792794 # 72057594037927936.
Proof. vm_compute. reflexivity. Qed.

Lemma u8_values_In (z : Z) : 0 <= z <= 255 -> In z u8_values.
Proof.
  intro H. unfold u8_values. apply in_map_iff.
  exists (Z.to_nat z). split; [lia |]. apply in_seq. lia.
Qed.

(** A property of 8-bit values that holds of each of the 256 holds of
    all. *)
Lemma forall_u8 (P : Z -> bool) :
  forallb P u8_values = true -> forall z, 0 <= z <= 255 -> P z = true.
Proof.
  intros H z Hz. rewrite forallb_forall in H.
  exact (H z (u8_values_In z Hz)).
Qed.

(** The rounding at work: the binary64 numbers of the literals 0.05 and
    0.1, the float32 number of 0.1, a tie that goes to the even neighbour
    in either direction, a subnormal float32 number, and the numbers that
    decide the two examples below: the computed difference of the mean
    colour (200, 150, 187.25), and the float32 factor and product of the
    warmth adjustment of the red channel 200 at magnitude 20. *)
Example rounding_examples :
  (fl64 0.05 == 3602879701896397 # 72057594037927936)%Q /\
  (fl64 0.1 == 3602879701896397 # 36028797018963968)%Q /\
  (fl32 0.1 == 13421773 # 134217728)%Q /\
  (fl32 (1 + (1 # 16777216)) == 1)%Q /\
  (fl32 (1 + (3 # 16777216)) == 4194305 # 4194304)%Q /\
  (fl32 (1 # 10 ^ 40) == 35681 # 2 ^ 148)%Q /\
  (red_blue_computed 200 (749 # 4)
   == 225179981368525 # 4503599627370496)%Q /\
  (fl32 (fl64 (1 + fl64 (fl64 (20 / 100) * fl64 0.3)))
   == 2222981 # 2097152)%Q /\
  (mul32 200 (fl64 (1 + fl64 (fl64 (20 / 100) * fl64 0.3)))
   == 13893631 # 65536)%Q.
Proof.
  repeat split; vm_compute; reflexivity.
Qed.

(* ------------------------------------------------------------------ *)
(** ** Undertone *)

Lemma undertone_cases (r g b : Q) (skin_pixels : list Pixel) :
  _determine_undertone [r; g; b] skin_pixels =
    if Qltb (fl64 0.05) (red_blue_computed r b) then "Warm"
    else if Qltb (red_blue_computed r b) (- fl64 0.05) then "Cool"
    else "Neutral".
Proof.
  unfold _determine_undertone, red_blue_computed. simpl.
  destruct (Qltb (fl64 0.05) _); [reflexivity |].
  destruct (Qltb _ (- fl64 0.05)); reflexivity.
Qed.

(** C4 (amended).  For every mean colour (r, g, b), with d the difference
    that the code computes (each channel divided by 255 in binary64, then
    the binary64 subtraction) and 0.05 the binary64 number of that
    literal: the undertone is "Warm" exactly when d > 0.05, "Cool" exactly
    when d < -0.05 and "Neutral" exactly when -0.05 <= d <= 0.05.  In
    particular a computed difference within 0.001 of 0.03 gives "Neutral",
    of 0.06 "Warm" and of -0.06 "Cool". *)
Theorem undertone_dead_zone (r g b : Q) (skin_pixels : list Pixel) :
  let d := red_blue_computed r b in
  let u := _determine_undertone [r; g; b] skin_pixels in
  (u = "Warm" <-> (fl64 0.05 < d)%Q) /\
  (u = "Cool" <-> (d < - fl64 0.05)%Q) /\
  (u = "Neutral" <-> (- fl64 0.05 <= d)%Q /\ (d <= fl64 0.05)%Q) /\
  ((0.029 <= d)%Q /\ (d <= 0.031)%Q -> u = "Neutral") /\
  ((0.059 <= d)%Q /\ (d <= 0.061)%Q -> u = "Warm") /\
  ((-0.061 <= d)%Q /\ (d <= -0.059)%Q -> u = "Cool").
Proof.
  intros d u. subst u. rewrite undertone_cases. fold d.
  rewrite fl64_0_05.
  destruct (Qltb _ d) eqn:E1;
    [apply Qltb_lt in E1 | apply Qltb_ge in E1];
    [| destruct (Qltb d _) eqn:E2;
       [apply Qltb_lt in E2 | apply Qltb_ge in E2]];
    repeat split; intros; try reflexivity; try discriminate; try lra;
    exfalso; lra.
Qed.

Lemma undertone_dead_zone_witness :
  ((0.059 <= red_blue_computed 115.3 100)%Q /\
   (red_blue_computed 115.3 100 <= 0.061)%Q) /\
  _determine_undertone [115.3%Q; 90%Q; 100%Q] [] = "Warm".
Proof.
  assert (H : (0.059 <= red_blue_computed 115.3 100)%Q /\
              (red_blue_computed 115.3 100 <= 0.061)%Q)
    by (split; vm_compute; discriminate).
  split; [exact H |].
  apply (proj1 (proj2 (proj2 (proj2 (proj2
           (undertone_dead_zone 115.3 90 100 []))))) H).
Defined.

(** C4 as stated, with the difference taken as a real number, fails: the
    mean colour (200, 150, 187.25) has a difference of exactly 0.05, which
    does not exceed 0.05, and its undertone is "Warm" (the computed
    difference is 0.050000000000000044). *)
Lemma undertone_warm_at_exact_threshold :
  (red_blue_diff 200 (749 # 4) == 0.05)%Q /\
  ~ (_determine_undertone [200%Q; 150%Q; 749 # 4] [] = "Warm" <->
     (0.05 < red_blue_diff 200 (749 # 4))%Q).
Proof.
  assert (E : (red_blue_diff 200 (749 # 4) == 0.05)%Q) by reflexivity.
  split; [exact E |].
  intros [H _].
  assert (W : _determine_undertone [200%Q; 150%Q; 749 # 4] [] = "Warm")
    by (vm_compute; reflexivity).
  specialize (H W). rewrite E in H. lra.
Qed.

(* ------------------------------------------------------------------ *)
(** ** Confidence *)

Lemma confidence_cases (skin_mask : Mask) (image : Image) :
  (Z.of_nat (shape0 image) * Z.of_nat (shape1 image) =? 0) = false ->
  _calculate_confidence skin_mask image =
    let f := skin_fraction skin_mask image in
    if Qltb f 0.05 then 0.3%Q
    else if Qltb f 0.15 then 0.6%Q
    else if Qltb f 0.4 then 0.9%Q
    else 0.8%Q.
Proof.
  intro H. unfold _calculate_confidence, skin_fraction. rewrite H.
  cbv zeta.
  destruct (Qltb _ 0.05); [reflexivity |].
  destruct (Qltb _ 0.15); [reflexivity |].
  destruct (Qltb _ 0.4); reflexivity.
Qed.

(** C5.  The confidence always lies in [0, 1].  On an image with at least
    one pixel it is a function of the skin-pixel fraction alone: a fraction
    below 5% gives 0.3, from 5% to below 15% gives 0.6, from 15% to below 40%
    gives 0.9, and 40% or more gives 0.8; a fraction of exactly 5% gives
    0.6. *)
Theorem confidence_by_fraction (skin_mask : Mask) (image : Image) :
  let c := _calculate_confidence skin_mask image in
  let f := skin_fraction skin_mask image in
  ((0 <= c)%Q /\ (c <= 1)%Q) /\
  ((0 < shape0 image * shape1 image)%nat ->
   ((f < 0.05)%Q -> c = 0.3%Q) /\
   ((0.05 <= f)%Q -> (f < 0.15)%Q -> c = 0.6%Q) /\
   ((0.15 <= f)%Q -> (f < 0.4)%Q -> c = 0.9%Q) /\
   ((0.4 <= f)%Q -> c = 0.8%Q) /\
   ((f == 0.05)%Q -> c = 0.6%Q) /\
   (forall skin_mask' image',
       (0 < shape0 image' * shape1 image')%nat ->
       (skin_fraction skin_mask' image' == f)%Q ->
       _calculate_confidence skin_mask' image' = c)).
Proof.
  intros c f. split.
  { subst c. unfold _calculate_confidence.
    destruct (_ =? 0); [split; vm_compute; discriminate |].
    cbv zeta.
    destruct (Qltb _ 0.05); [split; vm_compute; discriminate |].
    destruct (Qltb _ 0.15); [split; vm_compute; discriminate |].
    destruct (Qltb _ 0.4); split; vm_compute; discriminate. }
  intro Hpos.
  assert (Hnz : forall im : Image,
             (0 < shape0 im * shape1 im)%nat ->
             (Z.of_nat (shape0 im) * Z.of_nat (shape1 im) =? 0) = false).
  { intros im H. apply Z.eqb_neq. nia. }
  subst c. rewrite (confidence_cases _ _ (Hnz _ Hpos)). cbv zeta. fold f.
  repeat split.
  - intro. q_cases.
  - intros. q_cases.
  - intros. q_cases.
  - intros. q_cases.
  - intros. q_cases.
  - intros skin_mask' image' Hpos' Hf.
    rewrite (confidence_cases _ _ (Hnz _ Hpos')). cbv zeta.
    set (f' := skin_fraction skin_mask' image') in *.
    q_cases.
Qed.

Lemma confidence_by_fraction_witness :
  (0 < shape0 twenty_pixels * shape1 twenty_pixels)%nat /\
  (skin_fraction one_in_twenty twenty_pixels == 0.05)%Q /\
  _calculate_confidence one_in_twenty twenty_pixels = 0.6%Q.
Proof.
  assert (Hpos : (0 < shape0 twenty_pixels * shape1 twenty_pixels)%nat)
    by (simpl; lia).
  assert (Hf : (skin_fraction one_in_twenty twenty_pixels == 0.05)%Q)
    by reflexivity.
  split; [exact Hpos |]. split; [exact Hf |].
  exact (proj1 (proj2 (proj2 (proj2 (proj2
           (proj2 (confidence_by_fraction one_in_twenty twenty_pixels)
                  Hpos))))) Hf).
Defined.

(* ------------------------------------------------------------------ *)
(** ** Harmony information *)

Section HarmonyInfo.
Context {cv : Cv2} {sk : SkLearn} {si : SkImage}.

Lemma harmony_info_on_failure (rgb_color : list Q) (e : exn) :
  harmony_conversion rgb_color = Raise e ->
  _get_color_harmony_info rgb_color = Ok default_harmony_info.
Proof.
  unfold harmony_conversion, _get_color_harmony_info.
  destruct (unpack3 rgb_color) as [[[r g] b] | e0]; simpl; [| reflexivity].
  destruct (rgb2hsv _) as [[[h s] v] | e1]; simpl; [discriminate |].
  reflexivity.
Qed.

Lemma harmony_info_on_success (rgb_color : list Q) (hsv : FPixel) :
  harmony_conversion rgb_color = Ok hsv ->
  exists d,
    _get_color_harmony_info rgb_color = Ok d /\
    dict_keys d = ["base_hue"; "complementary"; "triadic"; "analogous";
                   "saturation"; "value"] /\
    dict_get d "saturation" = Some (HNum (chan1 hsv)) /\
    dict_get d "value" = Some (HNum (chan2 hsv)).
Proof.
  unfold harmony_conversion, _get_color_harmony_info.
  destruct (unpack3 rgb_color) as [[[r g] b] | e0]; simpl; [| discriminate].
  destruct (rgb2hsv _) as [[[h s] v] | e1]; simpl; [| discriminate].
  intro H. injection H as <-. eexists. split; [reflexivity |].
  repeat split.
Qed.

(** C10.  [_get_color_harmony_info] returns a dict for every input.  When
    the conversion to hue, saturation and value fails, the dict is the
    fixed default with base_hue 0, complementary 180, triadic [120, 240]
    and analogous [30, 330], which has no "saturation" and no "value"
    entry; when the conversion succeeds the dict has both.  An analysis
    whose other steps succeed therefore completes, with the default dict as
    its harmony_info when the conversion fails. *)
Theorem harmony_info_never_raises (rgb_color : list Q) :
  (exists d, _get_color_harmony_info rgb_color = Ok d) /\
  (forall e, harmony_conversion rgb_color = Raise e ->
             _get_color_harmony_info rgb_color = Ok default_harmony_info) /\
  (forall hsv, harmony_conversion rgb_color = Ok hsv ->
     exists d, _get_color_harmony_info rgb_color = Ok d /\
               dict_get d "saturation" = Some (HNum (chan1 hsv)) /\
               dict_get d "value" = Some (HNum (chan2 hsv))) /\
  default_harmony_info =
    [ ("base_hue", HNum 0%Q); ("complementary", HNum 180%Q);
      ("triadic", HList [120%Q; 240%Q]);
      ("analogous", HList [30%Q; 330%Q]) ] /\
  dict_get default_harmony_info "saturation" = None /\
  dict_get default_harmony_info "value" = None /\
  (forall image skin_mask skin_pixels dominant,
      _detect_skin_regions image = Ok skin_mask ->
      np_sum skin_mask <> 0 ->
      bool_index image skin_mask = Ok skin_pixels ->
      _get_dominant_colors skin_pixels 5 = Ok dominant ->
      exists a,
        analyze_skin_tone image = Ok a /\
        _get_color_harmony_info (average_color a) = Ok (harmony_info a) /\
        (forall e, harmony_conversion (average_color a) = Raise e ->
                   harmony_info a = default_harmony_info)).
Proof.
  split.
  { destruct (harmony_conversion rgb_color) as [hsv | e] eqn:E.
    - destruct (harmony_info_on_success _ _ E) as [d [Hd _]]. eauto.
    - rewrite (harmony_info_on_failure _ _ E). eauto. }
  split; [intros e E; exact (harmony_info_on_failure _ _ E) |].
  split.
  { intros hsv E.
    destruct (harmony_info_on_success _ _ E) as [d [Hd [_ [Hs Hv]]]].
    eauto. }
  repeat (split; [reflexivity |]).
  intros image skin_mask skin_pixels dominant Hdet Hsum Hidx Hdom.
  destruct (harmony_conversion (np_mean_axis0 skin_pixels)) as [hsv | e]
    eqn:E.
  - destruct (harmony_info_on_success _ _ E) as [d [Hd _]].
    eexists. split.
    + unfold analyze_skin_tone. rewrite Hdet. simpl.
      apply Z.eqb_neq in Hsum. rewrite Hsum, Hidx. simpl.
      rewrite Hdom. simpl. rewrite Hd. simpl. reflexivity.
    + simpl. split; [exact Hd |]. intros e He. congruence.
  - pose proof (harmony_info_on_failure _ _ E) as Hd.
    eexists. split.
    + unfold analyze_skin_tone. rewrite Hdet. simpl.
      apply Z.eqb_neq in Hsum. rewrite Hsum, Hidx. simpl.
      rewrite Hdom. simpl. rewrite Hd. simpl. reflexivity.
    + simpl. split; [exact Hd |]. reflexivity.
Qed.

End HarmonyInfo.

Lemma harmony_info_never_raises_witness :
  harmony_conversion (si := SkImage_failing) [200%Q; 150%Q; 120%Q]
    = Raise (Exn LibraryError "conversion failed") /\
  _get_color_harmony_info (si := SkImage_failing) [200%Q; 150%Q; 120%Q]
    = Ok default_harmony_info.
Proof.
  assert (H : harmony_conversion (si := SkImage_failing)
                [200%Q; 150%Q; 120%Q]
              = Raise (Exn LibraryError "conversion failed")) by reflexivity.
  split; [exact H |].
  exact (proj1 (proj2 (harmony_info_never_raises (cv := Cv2_double)
                         (sk := SkLearn_double) (si := SkImage_failing)
                         [200%Q; 150%Q; 120%Q])) _ H).
Defined.

(* ------------------------------------------------------------------ *)
(** ** The failure of the analysis when no skin is detected *)

Section NoSkin.
Context {cv : Cv2} {sk : SkLearn} {si : SkImage}.

Lemma detect_skin_regions_raise (image : Image) (e : exn) :
  _detect_skin_regions image = Raise e ->
  exists cause, e = Exn ValueError ("Skin detection failed: " ++ cause).
Proof.
  unfold _detect_skin_regions, try_except, reraise.
  match goal with |- context [match ?b with _ => _ end] => destruct b end;
    intro H; [discriminate |].
  injection H as <-. eexists. reflexivity.
Qed.

Lemma get_dominant_colors_raise (pixels : list Pixel) (k : nat) (e : exn) :
  _get_dominant_colors pixels k = Raise e ->
  exists cause,
    e = Exn ValueError ("Dominant color extraction failed: " ++ cause).
Proof.
  unfold _get_dominant_colors, try_except, reraise.
  match goal with |- context [match ?b with _ => _ end] => destruct b end;
    intro H; [discriminate |].
  injection H as <-. eexists. reflexivity.
Qed.

Lemma harmony_info_ok (rgb_color : list Q) :
  exists d, _get_color_harmony_info rgb_color = Ok d.
Proof.
  unfold _get_color_harmony_info, try_except.
  match goal with |- context [match ?b with _ => _ end] => destruct b end;
    eauto.
Qed.

(** What [analyze_skin_tone] raises, by the step that fails. *)
Lemma analyze_raise_inv (image : Image) (e : exn) :
  analyze_skin_tone image = Raise e ->
  (exists cause, _detect_skin_regions image = Raise cause /\
     e = Exn ValueError ("Skin tone analysis failed: " ++ str cause)) \/
  (exists skin_mask, _detect_skin_regions image = Ok skin_mask /\
     np_sum skin_mask = 0 /\ e = Exn ValueError no_skin_message) \/
  (exists skin_mask cause, _detect_skin_regions image = Ok skin_mask /\
     np_sum skin_mask <> 0 /\
     e = Exn ValueError ("Skin tone analysis failed: " ++ str cause) /\
     (bool_index image skin_mask = Raise cause \/
      exists skin_pixels, bool_index image skin_mask = Ok skin_pixels /\
        _get_dominant_colors skin_pixels 5 = Raise cause)).
Proof.
  unfold analyze_skin_tone.
  destruct (_detect_skin_regions image) as [skin_mask | cause] eqn:Hdet;
    simpl.
  2: { unfold reraise. intro H. injection H as <-. left. eauto. }
  destruct (np_sum skin_mask =? 0) eqn:Hsum; simpl.
  { unfold reraise. intro H. injection H as <-. right. left.
    apply Z.eqb_eq in Hsum. eauto. }
  apply Z.eqb_neq in Hsum.
  destruct (bool_index image skin_mask) as [skin_pixels | cause] eqn:Hidx;
    simpl.
  2: { unfold reraise. intro H. injection H as <-. right. right.
       exists skin_mask, cause. auto. }
  destruct (_get_dominant_colors skin_pixels 5) as [dom | cause] eqn:Hdom;
    simpl.
  2: { unfold reraise. intro H. injection H as <-. right. right.
       exists skin_mask, cause. repeat split; eauto. }
  destruct (harmony_info_ok (np_mean_axis0 skin_pixels)) as [d Hd].
  rewrite Hd. simpl. discriminate.
Qed.

(** C1 (amended).  For every image whose computed skin mask sums to zero,
    [analyze_skin_tone] raises and returns no record: the exception is a
    ValueError with the message "Skin tone analysis failed: No skin regions
    detected in the image".  Every exception that [analyze_skin_tone]
    raises is likewise a ValueError whose message starts with "Skin tone
    analysis failed: "; the no-skin failure is told apart from the others
    by its message alone. *)
Theorem analyze_no_skin_is_wrapped_ValueError (image : Image)
  (skin_mask : Mask) :
  _detect_skin_regions image = Ok skin_mask ->
  np_sum skin_mask = 0 ->
  analyze_skin_tone image = Raise (Exn ValueError no_skin_message) /\
  (forall image' e,
      analyze_skin_tone image' = Raise e ->
      exn_class e = ValueError /\
      (exists rest, exn_msg e = "Skin tone analysis failed: " ++ rest) /\
      (exn_msg e = no_skin_message <->
       exists m, _detect_skin_regions image' = Ok m /\ np_sum m = 0)).
Proof.
  intros Hdet Hsum. split.
  { unfold analyze_skin_tone. rewrite Hdet. simpl.
    apply Z.eqb_eq in Hsum. rewrite Hsum. reflexivity. }
  intros image' e He.
  destruct (analyze_raise_inv _ _ He)
    as [[cause [Hd ->]] | [[m [Hd [Hs ->]]] | [m [cause [Hd [Hs [-> Hc]]]]]]].
  - split; [reflexivity |]. split; [eexists; reflexivity |].
    destruct (detect_skin_regions_raise _ _ Hd) as [c ->].
    split; [intro H; simpl in H; discriminate H |].
    intros [m [Hm _]]. congruence.
  - split; [reflexivity |]. split; [eexists; reflexivity |].
    split; eauto.
  - split; [reflexivity |]. split; [eexists; reflexivity |].
    assert (Hne : exn_msg (Exn ValueError
                     ("Skin tone analysis failed: " ++ str cause))
                  <> no_skin_message).
    { destruct Hc as [Hc | [px [_ Hc]]].
      - unfold bool_index in Hc.
        destruct (zip2d_opt _ image' m); [discriminate |].
        injection Hc as <-. intro H. simpl in H. discriminate H.
      - destruct (get_dominant_colors_raise _ _ _ Hc) as [c ->].
        intro H. simpl in H. discriminate H. }
    split; [intro H; contradiction |].
    intros [m' [Hm' Hs']]. rewrite Hd in Hm'. injection Hm' as ->.
    contradiction.
Qed.

End NoSkin.

Lemma analyze_no_skin_is_wrapped_ValueError_witness :
  _detect_skin_regions (cv := Cv2_double) black_patch
    = Ok (repeat (repeat 0 4) 4) /\
  np_sum (repeat (repeat 0 4) 4) = 0 /\
  analyze_skin_tone (cv := Cv2_double) (sk := SkLearn_double)
    (si := SkImage_double) black_patch
    = Raise (Exn ValueError no_skin_message).
Proof.
  assert (Hd : _detect_skin_regions (cv := Cv2_double) black_patch
               = Ok (repeat (repeat 0 4) 4)) by reflexivity.
  assert (Hs : np_sum (repeat (repeat 0 4) 4) = 0) by reflexivity.
  split; [exact Hd |]. split; [exact Hs |].
  exact (proj1 (analyze_no_skin_is_wrapped_ValueError
                  (cv := Cv2_double) (sk := SkLearn_double)
                  (si := SkImage_double) black_patch _ Hd Hs)).
Defined.

(** C1 as stated fails: with the sample libraries, the exception raised for
    the black patch (no skin) and the exception raised for the image without
    pixels (the detection fails) have the same class. *)
Lemma no_skin_error_kind_not_distinct :
  ~ no_skin_error_has_own_kind Cv2_double SkLearn_double SkImage_double.
Proof.
  intro H.
  refine (H black_patch (repeat (repeat 0 4) 4) no_pixels
            (Exn ValueError
               "Skin detection failed: (-215:Assertion failed) !_src.empty()")
            (Exn ValueError no_skin_message)
            (Exn ValueError
               ("Skin tone analysis failed: Skin detection failed: "
                ++ "(-215:Assertion failed) !_src.empty()"))
            _ _ _ _ _ _); reflexivity.
Qed.

(* ------------------------------------------------------------------ *)
(** ** Facts on arrays *)

Lemma Zsum_all_zero (l : list Z) :
  Forall (fun v => v = 0) l -> Zsum l = 0.
Proof.
  induction 1 as [| v l Hv _ IH]; simpl; [reflexivity | lia].
Qed.

Lemma np_sum_all_zero (m : Mask) : all_zero m -> np_sum m = 0.
Proof.
  intro H. unfold np_sum.
  assert (E : Zsum (map Zsum m) = 0).
  { induction H as [| row m Hrow _ IH]; simpl; [reflexivity |].
    rewrite (Zsum_all_zero row Hrow), IH. reflexivity. }
  rewrite E. reflexivity.
Qed.

Lemma Zsum_bounds (l : list Z) :
  Forall valid_u8 l -> 0 <= Zsum l <= 255 * Z.of_nat (List.length l).
Proof.
  induction 1 as [| v l Hv _ IH]; simpl List.length; simpl Zsum; [lia |].
  unfold valid_u8 in Hv. lia.
Qed.

Lemma Zsum_zero_inv (l : list Z) :
  Forall valid_u8 l -> Zsum l = 0 -> Forall (fun v => v = 0) l.
Proof.
  induction 1 as [| v l Hv Hl IH]; simpl; intro E; [constructor |].
  pose proof (Zsum_bounds l Hl) as Hb. unfold valid_u8 in Hv.
  constructor; [lia | apply IH; lia].
Qed.

Lemma mask_total_bounds (m : Mask) :
  valid_mask m -> 0 <= Zsum (map Zsum m) <= 255 * cells m.
Proof.
  unfold cells.
  induction 1 as [| row m Hrow _ IH]; [simpl; lia |].
  change (Zsum (map Zsum (row :: m))) with (Zsum row + Zsum (map Zsum m)).
  change (List.concat (row :: m)) with (row ++ List.concat m)%list.
  rewrite length_app, Nat2Z.inj_add.
  pose proof (Zsum_bounds row Hrow). lia.
Qed.

Lemma mask_total_zero_inv (m : Mask) :
  valid_mask m -> Zsum (map Zsum m) = 0 -> all_zero m.
Proof.
  induction 1 as [| row m Hrow Hm IH]; simpl; intro E; [constructor |].
  pose proof (Zsum_bounds row Hrow) as Hb.
  pose proof (mask_total_bounds m Hm) as Hb'.
  constructor; [apply Zsum_zero_inv; [assumption | lia] | apply IH; lia].
Qed.

(** On a uint8 mask small enough for the 64-bit accumulator, the sum is zero
    only if every entry is. *)
Lemma np_sum_zero_inv (m : Mask) :
  valid_mask m -> 255 * cells m < 2 ^ 64 -> np_sum m = 0 -> all_zero m.
Proof.
  intros Hv Hb E. unfold np_sum in E.
  pose proof (mask_total_bounds m Hv) as Ht.
  rewrite Z.mod_small in E by lia.
  exact (mask_total_zero_inv m Hv E).
Qed.

Lemma all_zero_at2 (m : Mask) (i j : nat) (v : Z) :
  all_zero m -> at2 m i j = Some v -> v = 0.
Proof.
  unfold at2. intros H E.
  destruct (nth_error m i) as [row |] eqn:Er; [| discriminate].
  apply nth_error_In in Er. apply nth_error_In in E.
  unfold all_zero in H. rewrite Forall_forall in H.
  specialize (H row Er). rewrite Forall_forall in H. exact (H v E).
Qed.

Lemma zip_row_some {A B C : Type} (f : A -> B -> C) (a : list A) :
  forall b, List.length a = List.length b -> exists c, zip_row f a b = Some c.
Proof.
  induction a as [| x a IH]; intros [| y b] H; simpl in *; try discriminate.
  - eauto.
  - injection H as H. destruct (IH b H) as [c ->]. eauto.
Qed.

Lemma zip2d_opt_some {A B C : Type} (f : A -> B -> C) (a : list (list A)) :
  forall b, shape a = shape b -> exists c, zip2d_opt f a b = Some c.
Proof.
  induction a as [| ra a IH]; intros [| rb b] H; simpl in *;
    try discriminate.
  - eauto.
  - injection H as Hr H.
    destruct (zip_row_some f ra rb Hr) as [r ->].
    destruct (IH b H) as [c ->]. eauto.
Qed.

Lemma zip_row_nth {A B C : Type} (f : A -> B -> C) (a : list A) :
  forall b c j x y,
    zip_row f a b = Some c ->
    nth_error a j = Some x -> nth_error b j = Some y ->
    nth_error c j = Some (f x y).
Proof.
  induction a as [| x0 a IH]; intros [| y0 b] c j x y H Ha Hb; simpl in H;
    try discriminate.
  - destruct j; discriminate.
  - destruct (zip_row f a b) as [r |] eqn:E; [| discriminate].
    injection H as <-.
    destruct j as [| j]; simpl in *.
    + congruence.
    + exact (IH b r j x y E Ha Hb).
Qed.

Lemma zip_row_length {A B C : Type} (f : A -> B -> C) (a : list A) :
  forall b c, zip_row f a b = Some c ->
              List.length c = List.length a /\ List.length c = List.length b.
Proof.
  induction a as [| x0 a IH]; intros [| y0 b] c H; simpl in H;
    try discriminate.
  - injection H as <-. split; reflexivity.
  - destruct (zip_row f a b) as [r |] eqn:E; [| discriminate].
    injection H as <-. destruct (IH b r E). simpl. split; congruence.
Qed.

Lemma zip2d_opt_shape {A B C : Type} (f : A -> B -> C) (a : list (list A)) :
  forall b c, zip2d_opt f a b = Some c ->
              shape c = shape a /\ shape c = shape b.
Proof.
  induction a as [| ra a IH]; intros [| rb b] c H; simpl in H;
    try discriminate.
  - injection H as <-. split; reflexivity.
  - destruct (zip_row f ra rb) as [r |] eqn:Er; [| discriminate].
    destruct (zip2d_opt f a b) as [rest |] eqn:E; [| discriminate].
    injection H as <-. destruct (IH b rest E).
    destruct (zip_row_length f ra rb r Er).
    simpl. split; congruence.
Qed.

Lemma zip2d_opt_at2 {A B C : Type} (f : A -> B -> C) (a : list (list A)) :
  forall b c i j x y,
    zip2d_opt f a b = Some c ->
    at2 a i j = Some x -> at2 b i j = Some y ->
    at2 c i j = Some (f x y).
Proof.
  induction a as [| ra a IH]; intros [| rb b] c i j x y H Ha Hb; simpl in H;
    try discriminate.
  - destruct i; discriminate.
  - destruct (zip_row f ra rb) as [r |] eqn:Er; [| discriminate].
    destruct (zip2d_opt f a b) as [rest |] eqn:E; [| discriminate].
    injection H as <-.
    destruct i as [| i]; unfold at2 in *; simpl in *.
    + exact (zip_row_nth f ra rb r j x y Er Ha Hb).
    + exact (IH b rest i j x y E Ha Hb).
Qed.

Lemma map2d_shape {A B : Type} (f : A -> B) (a : list (list A)) :
  shape (map2d f a) = shape a.
Proof.
  unfold shape, map2d. rewrite map_map. apply map_ext.
  intro row. apply length_map.
Qed.

Lemma map2d_at2 {A B : Type} (f : A -> B) (a : list (list A)) (i j : nat)
  (x : A) :
  at2 a i j = Some x -> at2 (map2d f a) i j = Some (f x).
Proof.
  unfold at2, map2d. intro H. rewrite nth_error_map.
  destruct (nth_error a i) as [row |]; [| discriminate]. simpl.
  rewrite nth_error_map, H. reflexivity.
Qed.

Lemma valid_image_at2 (a : Image) (i j : nat) (p : Pixel) :
  valid_image a -> at2 a i j = Some p -> valid_pixel p.
Proof.
  unfold at2. intros H E.
  destruct (nth_error a i) as [row |] eqn:Er; [| discriminate].
  apply nth_error_In in Er. apply nth_error_In in E.
  unfold valid_image in H. rewrite Forall_forall in H.
  specialize (H row Er). rewrite Forall_forall in H. exact (H p E).
Qed.

Lemma shape_cells {A B : Type} (a : list (list A)) (b : list (list B)) :
  shape a = shape b -> cells a = cells b.
Proof.
  unfold cells. revert b.
  induction a as [| ra a IH]; intros [| rb b] H; simpl in *;
    try discriminate; [reflexivity |].
  injection H as Hr H. rewrite !length_app, !Nat2Z.inj_add, Hr.
  specialize (IH b H). lia.
Qed.

(* ------------------------------------------------------------------ *)
(** ** Adjustments on an image without skin *)

Section NoOp.
Context {cv : Cv2}.

(** C2.  For every image whose detected skin mask is entirely zero, every
    kind of adjustment (lightness, warmth, saturation) and every magnitude
    in [-50, 50], the adjustment returns the input image and does not
    raise. *)
Theorem adjust_without_skin_is_identity (kind : AdjustmentKind)
  (image : Image) (skin_mask : Mask) (magnitude : Q) :
  _detect_skin_mask image = Ok skin_mask ->
  all_zero skin_mask ->
  (-50 <= magnitude)%Q -> (magnitude <= 50)%Q ->
  adjust kind image magnitude = Ok image.
Proof.
  intros Hdet Hzero _ _.
  pose proof (np_sum_all_zero skin_mask Hzero) as Hsum.
  apply Z.eqb_eq in Hsum.
  destruct kind; simpl;
    unfold adjust_lightness, adjust_warmth, adjust_saturation;
    rewrite Hdet; simpl; rewrite Hsum; reflexivity.
Qed.

End NoOp.

Lemma adjust_without_skin_is_identity_witness :
  _detect_skin_mask (cv := Cv2_double) black_patch
    = Ok (repeat (repeat 0 4) 4) /\
  all_zero (repeat (repeat 0 4) 4) /\
  (-50 <= 30)%Q /\ (30 <= 50)%Q /\
  adjust (cv := Cv2_double) Saturation black_patch 30 = Ok black_patch.
Proof.
  assert (Hd : _detect_skin_mask (cv := Cv2_double) black_patch
               = Ok (repeat (repeat 0 4) 4)) by reflexivity.
  assert (Hz : all_zero (repeat (repeat 0 4) 4))
    by (repeat constructor).
  assert (Hlo : (-50 <= 30)%Q) by lra.
  assert (Hhi : (30 <= 50)%Q) by lra.
  repeat (split; [assumption |]).
  exact (adjust_without_skin_is_identity (cv := Cv2_double) Saturation
           black_patch _ 30 Hd Hz Hlo Hhi).
Defined.

(* ------------------------------------------------------------------ *)
(** ** Warmth *)

Lemma np_clip_range (x : Q) :
  (0 <= np_clip x 0 255)%Q /\ (np_clip x 0 255 <= 255)%Q.
Proof.
  unfold np_clip.
  destruct (Qltb x 0) eqn:E0; [split; lra |].
  apply Qltb_ge in E0.
  destruct (Qltb 255 x) eqn:E1; [split; lra |].
  apply Qltb_ge in E1. split; assumption.
Qed.

Lemma Qltb_comp (x x' y y' : Q) :
  (x == x')%Q -> (y == y')%Q -> Qltb x y = Qltb x' y'.
Proof.
  intros Hx Hy. unfold Qltb. rewrite (Qleb_comp y y' Hy x x' Hx). reflexivity.
Qed.

Lemma astype_uint8_inside (x : Q) :
  (0 <= x)%Q -> (x <= 255)%Q -> astype_uint8 x = Qfloor x.
Proof.
  intros H0 H1. unfold astype_uint8, Qtrunc.
  destruct (Qltb x 0) eqn:E; [apply Qltb_lt in E; exfalso; lra |].
  pose proof (Qfloor_resp_le _ _ H0) as L0.
  pose proof (Qfloor_resp_le _ _ H1) as L1.
  change 0%Q with (inject_Z 0) in L0. change 255%Q with (inject_Z 255) in L1.
  rewrite Qfloor_Z in L0, L1.
  apply Z.mod_small. lia.
Qed.

Lemma astype_uint8_clip (x : Q) :
  astype_uint8 (np_clip x 0 255) = clamp_u8 x.
Proof.
  destruct (np_clip_range x) as [H0 H1].
  unfold clamp_u8. apply astype_uint8_inside; assumption.
Qed.

Lemma astype_uint8_inject (z : Z) :
  valid_u8 z -> astype_uint8 (inject_Z z) = z.
Proof.
  intros [H0 H1].
  rewrite astype_uint8_inside.
  - apply Qfloor_Z.
  - change 0%Q with (inject_Z 0). rewrite <- Zle_Qle. exact H0.
  - change 255%Q with (inject_Z 255). rewrite <- Zle_Qle. exact H1.
Qed.

(** Scaling by the factor 1.0, as the code reaches it for a magnitude of
    zero ([1.0 + 0.0] and [1.0 - 0.0]), gives the channel back. *)
Lemma scale_u8_one (z : Z) :
  valid_u8 z ->
  scale_u8 z (fl64 (1 + 0)) = z /\ scale_u8 z (fl64 (1 - 0)) = z.
Proof.
  intro H. split; apply Z.eqb_eq.
  - apply (forall_u8 (fun z => scale_u8 z (fl64 (1 + 0)) =? z));
      [vm_compute; reflexivity | exact H].
  - apply (forall_u8 (fun z => scale_u8 z (fl64 (1 - 0)) =? z));
      [vm_compute; reflexivity | exact H].
Qed.

Lemma fl64_zero (x : Q) : (x == 0)%Q -> fl64 x = 0%Q.
Proof.
  intro H. exact (round_Q_zero 53 1024 x H).
Qed.

Lemma fl64_mul_zero (x c : Q) : (x == 0)%Q -> fl64 (x * c) = 0%Q.
Proof.
  intro H. apply fl64_zero. rewrite H. ring.
Qed.

(** The factor of a magnitude of zero is the binary64 number 1.0 + 0.0. *)
Lemma scaling_factor_zero (magnitude : Q) :
  (magnitude == 0)%Q -> scaling_factor magnitude = fl64 (1 + 0).
Proof.
  intro H. unfold scaling_factor.
  rewrite (fl64_zero (magnitude / 100)); [reflexivity |].
  rewrite H. reflexivity.
Qed.

Lemma warmth_pixel_spec (adjustment : Q) (v : Z) (p : Pixel) :
  valid_pixel p ->
  warmth_pixel adjustment v p = warmth_rounded adjustment v p.
Proof.
  destruct p as [[r g] b]. intros [Hr [Hg Hb]].
  unfold chan0, chan1, chan2 in Hr, Hg, Hb. simpl in Hr, Hg, Hb.
  unfold warmth_pixel, warmth_rounded. cbv zeta.
  destruct (0 <? v).
  2: { unfold astype_uint8_pixel, chan0, chan1, chan2. simpl.
       rewrite !astype_uint8_inject by assumption. reflexivity. }
  unfold astype_uint8_pixel, chan0, chan1, chan2. simpl fst. simpl snd.
  rewrite !astype_uint8_clip, (astype_uint8_inject g Hg).
  set (m := fl64 (adjustment / 100)).
  destruct (Qltb 0 m) eqn:Epos; [reflexivity |].
  destruct (Qltb m 0) eqn:Eneg; [reflexivity |].
  apply Qltb_ge in Epos, Eneg.
  assert (Ez : (m == 0)%Q) by lra.
  rewrite !(fl64_mul_zero m _ Ez).
  destruct (scale_u8_one r Hr) as [Er _].
  destruct (scale_u8_one b Hb) as [_ Eb].
  unfold scale_u8 in Er, Eb. rewrite Er, Eb.
  reflexivity.
Qed.

Section Warmth.
Context {cv : Cv2}.

Lemma adjust_warmth_pointwise (image : Image) (skin_mask : Mask)
  (adjustment : Q) :
  _detect_skin_mask image = Ok skin_mask ->
  shape skin_mask = shape image ->
  (np_sum skin_mask =? 0) = false ->
  exists out,
    adjust_warmth image adjustment = Ok out /\
    shape out = shape image /\
    forall i j p v,
      at2 image i j = Some p -> at2 skin_mask i j = Some v ->
      at2 out i j = Some (warmth_pixel adjustment v p).
Proof.
  intros Hdet Hshape Hsum.
  unfold adjust_warmth. rewrite Hdet.
  unfold bind at 1. cbv beta iota zeta. rewrite Hsum.
  unfold where_chan0, where_chan2, zip2d.
  assert (Hs0 : shape skin_mask = shape (astype_float32 image)).
  { unfold astype_float32. rewrite map2d_shape. exact Hshape. }
  match goal with
  | |- context [zip2d_opt ?f skin_mask (astype_float32 image)] =>
      set (f0 := f)
  end.
  destruct (zip2d_opt_some f0 skin_mask (astype_float32 image) Hs0)
    as [r1 E1].
  rewrite E1. unfold bind at 1. cbv beta iota.
  destruct (zip2d_opt_shape f0 _ _ _ E1) as [Hr1m Hr1i].
  match goal with
  | |- context [zip2d_opt ?f skin_mask r1] => set (f2 := f)
  end.
  destruct (zip2d_opt_some f2 skin_mask r1 (eq_sym Hr1m)) as [r2 E2].
  rewrite E2. unfold bind at 1. cbv beta iota. unfold try_except.
  destruct (zip2d_opt_shape f2 _ _ _ E2) as [Hr2m _].
  eexists. split; [reflexivity |]. split.
  { unfold astype_uint8_image. rewrite map2d_shape.
    transitivity (shape skin_mask); [exact Hr2m | exact Hshape]. }
  intros i j p v Hp Hv.
  unfold astype_uint8_image.
  pose proof (map2d_at2
                (fun p => (inject_Z (chan0 p), inject_Z (chan1 p),
                           inject_Z (chan2 p))) image i j p Hp) as Hf.
  pose proof (zip2d_opt_at2 f0 _ _ _ i j _ _ E1 Hv Hf) as H1.
  pose proof (zip2d_opt_at2 f2 _ _ _ i j _ _ E2 Hv H1) as H2.
  rewrite (map2d_at2 astype_uint8_pixel r2 i j _ H2).
  unfold f0, f2. reflexivity.
Qed.

(** C8 (amended).  For every image and every magnitude m' in [-50, 50],
    [adjust_warmth] returns an image of the same shape in which each pixel
    is as follows.  With m = m'/100 in binary64: where the skin mask is
    positive and m > 0, red is scaled by 1 + 0.3 m and blue by 1 - 0.2 m;
    where the mask is positive and m < 0, red is scaled by 1 + 0.2 m and
    blue by 1 - 0.3 m.  The factors are computed in binary64, the scaling
    is a float32 multiplication by the factor rounded to float32, and the
    scaled channel is clamped to [0, 255] and cut to an integer, so it can
    be one less than the integer part of the exact product.  Where the mask
    is 0 the pixel is unchanged, and green is unchanged everywhere.  The
    mask is the uint8 array, congruent with the image, that the detection
    returns; the image is small enough for the 64-bit accumulator of the
    sum. *)
Theorem adjust_warmth_scales_skin_pixels (image : Image) (skin_mask : Mask)
  (magnitude : Q) :
  _detect_skin_mask image = Ok skin_mask ->
  shape skin_mask = shape image ->
  valid_mask skin_mask ->
  valid_image image ->
  255 * cells image < 2 ^ 64 ->
  (-50 <= magnitude)%Q -> (magnitude <= 50)%Q ->
  exists out,
    adjust_warmth image magnitude = Ok out /\
    shape out = shape image /\
    forall i j p v,
      at2 image i j = Some p -> at2 skin_mask i j = Some v ->
      at2 out i j = Some (warmth_rounded magnitude v p) /\
      chan1 (warmth_rounded magnitude v p) = chan1 p /\
      (v = 0 -> warmth_rounded magnitude v p = p).
Proof.
  intros Hdet Hshape Hvm Hvi Hsize _ _.
  assert (Hextra : forall p v,
             chan1 (warmth_rounded magnitude v p) = chan1 p /\
             (v = 0 -> warmth_rounded magnitude v p = p)).
  { intros [[r g] b] v. unfold warmth_rounded. cbv zeta. split.
    - destruct (0 <? v); [| reflexivity].
      destruct (Qltb 0 _); [reflexivity |].
      destruct (Qltb _ 0); reflexivity.
    - intros ->. reflexivity. }
  destruct (np_sum skin_mask =? 0) eqn:Hsum.
  - exists image.
    split.
    { unfold adjust_warmth. rewrite Hdet. simpl. rewrite Hsum.
      reflexivity. }
    split; [reflexivity |].
    intros i j p v Hp Hv.
    apply Z.eqb_eq in Hsum.
    rewrite <- (shape_cells _ _ Hshape) in Hsize.
    pose proof (np_sum_zero_inv skin_mask Hvm Hsize Hsum) as Hz.
    pose proof (all_zero_at2 _ _ _ _ Hz Hv) as ->.
    destruct (Hextra p 0) as [Hg Hid].
    rewrite (Hid eq_refl). repeat split; assumption || reflexivity.
  - destruct (adjust_warmth_pointwise image skin_mask magnitude
                Hdet Hshape Hsum) as [out [Hout [Hs Hpt]]].
    exists out. split; [exact Hout |]. split; [exact Hs |].
    intros i j p v Hp Hv.
    rewrite (Hpt i j p v Hp Hv).
    rewrite (warmth_pixel_spec magnitude v p
               (valid_image_at2 _ _ _ _ Hvi Hp)).
    destruct (Hextra p v). repeat split; assumption.
Qed.

End Warmth.

Lemma adjust_warmth_scales_skin_pixels_witness :
  _detect_skin_mask (cv := Cv2_double) skin_patch
    = Ok (repeat (repeat 255 4) 4) /\
  (-50 <= 20)%Q /\ (20 <= 50)%Q /\
  exists out,
    adjust_warmth (cv := Cv2_double) skin_patch 20 = Ok out /\
    shape out = shape skin_patch /\
    forall i j p v,
      at2 skin_patch i j = Some p ->
      at2 (repeat (repeat 255 4) 4) i j = Some v ->
      at2 out i j = Some (warmth_rounded 20 v p) /\
      chan1 (warmth_rounded 20 v p) = chan1 p /\
      (v = 0 -> warmth_rounded 20 v p = p).
Proof.
  assert (Hd : _detect_skin_mask (cv := Cv2_double) skin_patch
               = Ok (repeat (repeat 255 4) 4)) by reflexivity.
  assert (Hlo : (-50 <= 20)%Q) by lra.
  assert (Hhi : (20 <= 50)%Q) by lra.
  repeat (split; [assumption |]).
  apply (adjust_warmth_scales_skin_pixels (cv := Cv2_double)
           skin_patch (repeat (repeat 255 4) 4) 20 Hd).
  - reflexivity.
  - repeat constructor; unfold valid_u8; lia.
  - unfold valid_image, skin_patch, skin_colour.
    repeat constructor; vm_compute; discriminate.
  - reflexivity.
  - exact Hlo.
  - exact Hhi.
Defined.

(** C8 as stated, with the scaling taken as exact, fails: at magnitude 20
    the red channel 200 of a skin pixel scaled by 1.06 is 212, and the
    code returns 211 (the factor rounded to float32 lies below 1.06, and
    the product 211.99998 is cut to 211). *)
Lemma warmth_of_red_200_at_20_is_211 :
  _detect_skin_mask (cv := Cv2_double) skin_patch
    = Ok (repeat (repeat 255 4) 4) /\
  at2 skin_patch 0 0 = Some (200, 150, 120) /\
  warmth_spec 20 255 (200, 150, 120) = (212, 150, 115) /\
  adjust_warmth (cv := Cv2_double) skin_patch 20
    = Ok (repeat (repeat (211, 150, 115) 4) 4) /\
  at2 (repeat (repeat (211, 150, 115) 4) 4) 0 0
    <> Some (warmth_spec 20 255 (200, 150, 120)).
Proof.
  split; [reflexivity |]. split; [reflexivity |].
  split; [vm_compute; reflexivity |].
  split; [vm_compute; reflexivity |].
  vm_compute. intro H. discriminate H.
Qed.

(* ------------------------------------------------------------------ *)
(** ** Lightness with magnitude 0 *)

Lemma lightness_zero_channel (l : Z) :
  valid_u8 l ->
  astype_uint8
    (np_clip (mul32 (inject_Z l) (fl64 (1 + fl64 (0 / 100)))) 0 100)
  = Z.min l 100.
Proof.
  intro H. apply Z.eqb_eq.
  apply (forall_u8
           (fun l => astype_uint8
                       (np_clip (mul32 (inject_Z l)
                                       (fl64 (1 + fl64 (0 / 100)))) 0 100)
                     =? Z.min l 100));
    [vm_compute; reflexivity | exact H].
Qed.

Section LightnessZero.
Context {cv : Cv2}.

Lemma scaled_lab_zero (skin_mask : Mask) (lab8 : Image) :
  shape skin_mask = shape lab8 ->
  valid_image lab8 ->
  exists lab,
    scaled_lab skin_mask 0 lab8 = Ok lab /\
    forall i j p v,
      at2 lab8 i j = Some p -> at2 skin_mask i j = Some v ->
      at2 lab i j = Some (capped_lab v p).
Proof.
  intros Hshape Hvalid.
  unfold scaled_lab, where_chan0, zip2d.
  assert (Hs0 : shape skin_mask = shape (astype_float32 lab8)).
  { unfold astype_float32. rewrite map2d_shape. exact Hshape. }
  match goal with
  | |- context [zip2d_opt ?f skin_mask (astype_float32 lab8)] =>
      set (f0 := f)
  end.
  destruct (zip2d_opt_some f0 skin_mask (astype_float32 lab8) Hs0)
    as [r1 E1].
  rewrite E1. unfold bind. eexists. split; [reflexivity |].
  intros i j p v Hp Hv.
  pose proof (map2d_at2
                (fun p => (inject_Z (chan0 p), inject_Z (chan1 p),
                           inject_Z (chan2 p))) lab8 i j p Hp) as Hf.
  pose proof (zip2d_opt_at2 f0 _ _ _ i j _ _ E1 Hv Hf) as H1.
  unfold astype_uint8_image.
  rewrite (map2d_at2 astype_uint8_pixel r1 i j _ H1).
  f_equal.
  destruct (valid_image_at2 _ _ _ _ Hvalid Hp) as [Hl [Ha Hb]].
  destruct p as [[l a] b].
  unfold chan0, chan1, chan2 in Hl, Ha, Hb. simpl in Hl, Ha, Hb.
  unfold f0, capped_lab, astype_uint8_pixel.
  destruct (0 <? v); unfold chan0, chan1, chan2; simpl fst; simpl snd.
  - rewrite (lightness_zero_channel _ Hl).
    rewrite !astype_uint8_inject by assumption. reflexivity.
  - rewrite !astype_uint8_inject by assumption. reflexivity.
Qed.

(** C9 (what the code does).  With magnitude 0 and a mask that does not
    sum to zero, [adjust_lightness] converts to LAB, replaces the L
    channel of every pixel under the mask by [min L 100], and converts the
    result back.  OpenCV scales L to 0..255 on 8-bit images, so a skin
    pixel whose L exceeds 100 on that scale is darkened to L = 100: the
    result is not the input within rounding. *)
Theorem adjust_lightness_zero_caps_lightness (image : Image)
  (skin_mask : Mask) (lab8 : Image) :
  _detect_skin_mask image = Ok skin_mask ->
  np_sum skin_mask <> 0 ->
  cvtColor image COLOR_RGB2LAB = Ok lab8 ->
  shape skin_mask = shape lab8 ->
  valid_image lab8 ->
  exists lab,
    adjust_lightness image 0 =
      try_except (cvtColor lab COLOR_LAB2RGB)
                 (reraise "Lightness adjustment failed: ") /\
    forall i j p v,
      at2 lab8 i j = Some p -> at2 skin_mask i j = Some v ->
      at2 lab i j = Some (capped_lab v p) /\
      (0 < v -> 100 < chan0 p -> at2 lab i j <> Some p).
Proof.
  intros Hdet Hsum Hlab Hshape Hvalid.
  destruct (scaled_lab_zero skin_mask lab8 Hshape Hvalid)
    as [lab [Hscaled Hpt]].
  exists lab. split.
  - unfold adjust_lightness. rewrite Hdet.
    unfold bind at 1. cbv beta iota zeta.
    apply Z.eqb_neq in Hsum. rewrite Hsum, Hlab.
    unfold bind at 1. cbv beta iota. rewrite Hscaled. reflexivity.
  - intros i j p v Hp Hv. split; [exact (Hpt i j p v Hp Hv) |].
    intros Hpos Hbig. rewrite (Hpt i j p v Hp Hv).
    unfold capped_lab. apply Z.ltb_lt in Hpos. rewrite Hpos.
    intro H. injection H as H. destruct p as [[l a] b].
    unfold chan0 in *. simpl in *. injection H as H. lia.
Qed.

End LightnessZero.

Lemma adjust_lightness_zero_caps_lightness_witness :
  _detect_skin_mask (cv := Cv2_double) skin_patch
    = Ok (repeat (repeat 255 4) 4) /\
  np_sum (repeat (repeat 255 4) 4) <> 0 /\
  cvtColor (Cv2 := Cv2_double) skin_patch COLOR_RGB2LAB
    = Ok (repeat (repeat (162, 155, 105) 4) 4) /\
  exists lab,
    adjust_lightness (cv := Cv2_double) skin_patch 0 =
      try_except (cvtColor (Cv2 := Cv2_double) lab COLOR_LAB2RGB)
                 (reraise "Lightness adjustment failed: ") /\
    forall i j p v,
      at2 (repeat (repeat (162, 155, 105) 4) 4) i j = Some p ->
      at2 (repeat (repeat 255 4) 4) i j = Some v ->
      at2 lab i j = Some (capped_lab v p) /\
      (0 < v -> 100 < chan0 p -> at2 lab i j <> Some p).
Proof.
  assert (Hd : _detect_skin_mask (cv := Cv2_double) skin_patch
               = Ok (repeat (repeat 255 4) 4)) by reflexivity.
  assert (Hs : np_sum (repeat (repeat 255 4) 4) <> 0)
    by (vm_compute; discriminate).
  assert (Hl : cvtColor (Cv2 := Cv2_double) skin_patch COLOR_RGB2LAB
               = Ok (repeat (repeat (162, 155, 105) 4) 4)) by reflexivity.
  repeat (split; [assumption |]).
  apply (adjust_lightness_zero_caps_lightness (cv := Cv2_double)
           skin_patch _ _ Hd Hs Hl).
  - reflexivity.
  - repeat constructor; vm_compute; discriminate.
Defined.

(** The same on the sample libraries, evaluated: the skin-coloured patch
    comes back darker. *)
Example adjust_lightness_zero_darkens_skin_patch :
  adjust_lightness (cv := Cv2_double) skin_patch 0
    = Ok (repeat (repeat (138, 89, 59) 4) 4) /\
  skin_patch = repeat (repeat (200, 150, 120) 4) 4.
Proof. split; reflexivity. Qed.

(* ------------------------------------------------------------------ *)
(** ** Sorting the clusters by population *)

Lemma argsort_insert_perm (kv : Z * nat) (l : list (Z * nat)) :
  Permutation (argsort_insert kv l) (kv :: l).
Proof.
  induction l as [| h t IH]; simpl; [reflexivity |].
  destruct (fst kv <? fst h); [reflexivity |].
  rewrite IH. apply perm_swap.
Qed.

Lemma argsort_insert_sorted (kv : Z * nat) (l : list (Z * nat)) :
  StronglySorted le_key l -> StronglySorted le_key (argsort_insert kv l).
Proof.
  induction 1 as [| h t Ht IH Hh]; simpl.
  - repeat constructor.
  - destruct (fst kv <? fst h) eqn:E.
    + apply Z.ltb_lt in E. constructor.
      * constructor; assumption.
      * constructor; [unfold le_key; lia |].
        eapply Forall_impl; [| exact Hh].
        unfold le_key. intros y Hy. lia.
    + apply Z.ltb_ge in E. constructor; [exact IH |].
      rewrite (argsort_insert_perm kv t).
      constructor; [exact E | exact Hh].
Qed.

Lemma argsort_fold_spec (l acc : list (Z * nat)) :
  StronglySorted le_key acc ->
  StronglySorted le_key
    (fold_left (fun acc kv => argsort_insert kv acc) l acc) /\
  Permutation (fold_left (fun acc kv => argsort_insert kv acc) l acc)
              (l ++ acc).
Proof.
  revert acc. induction l as [| kv l IH]; intros acc Hacc; simpl.
  - split; [exact Hacc | reflexivity].
  - destruct (IH _ (argsort_insert_sorted kv acc Hacc)) as [Hs Hp].
    split; [exact Hs |].
    rewrite Hp, argsort_insert_perm. symmetry. apply Permutation_middle.
Qed.

Lemma argsort_pairs_spec (l : list (Z * nat)) :
  StronglySorted le_key (argsort_pairs l) /\ Permutation (argsort_pairs l) l.
Proof.
  unfold argsort_pairs.
  destruct (argsort_fold_spec l [] (SSorted_nil _)) as [Hs Hp].
  split; [exact Hs |]. rewrite app_nil_r in Hp. exact Hp.
Qed.

Lemma combine_map_seq (f : nat -> Z) (n start : nat) :
  combine (map f (seq start n)) (seq start n)
  = map (fun i => (f i, i)) (seq start n).
Proof.
  revert start. induction n as [| n IH]; intro start; simpl;
    [reflexivity | rewrite IH; reflexivity].
Qed.

(** The indices that [argsort] returns for the array [f 0, ..., f (n-1)]
    are a permutation of [0, ..., n-1] in ascending order of [f]. *)
Lemma argsort_spec (f : nat -> Z) (n : nat) :
  Permutation (argsort (map f (seq 0 n))) (seq 0 n) /\
  StronglySorted (fun i j => f i <= f j) (argsort (map f (seq 0 n))).
Proof.
  unfold argsort. rewrite length_map, length_seq, combine_map_seq.
  destruct (argsort_pairs_spec (map (fun i => (f i, i)) (seq 0 n)))
    as [Hs Hp].
  set (sorted := argsort_pairs (map (fun i => (f i, i)) (seq 0 n))) in *.
  split.
  - rewrite Hp, map_map. simpl. rewrite map_id. reflexivity.
  - assert (Hform : Forall (fun kv => fst kv = f (snd kv)) sorted).
    { rewrite Forall_forall. intros kv Hin.
      apply (Permutation_in _ Hp) in Hin. apply in_map_iff in Hin.
      destruct Hin as [i [<- _]]. reflexivity. }
    clearbody sorted. clear Hp.
    induction Hs as [| kv t Ht IH Hkv]; simpl; [constructor |].
    inversion Hform as [| ? ? Hk Hform']; subst.
    constructor; [exact (IH Hform') |].
    rewrite Forall_map. rewrite Forall_forall in *.
    intros y Hy. specialize (Hkv y Hy). unfold le_key in Hkv.
    rewrite <- Hk, <- (Hform' y Hy). exact Hkv.
Qed.

Lemma StronglySorted_snoc {A : Type} (R : A -> A -> Prop) (l : list A)
  (x : A) :
  StronglySorted R l -> Forall (fun y => R y x) l ->
  StronglySorted R (l ++ [x]).
Proof.
  induction 1 as [| h t Ht IH Hh]; intro Hx; simpl.
  - repeat constructor.
  - inversion Hx as [| ? ? Hhx Hx']; subst.
    constructor; [exact (IH Hx') |].
    apply Forall_app. split; [exact Hh | repeat constructor; exact Hhx].
Qed.

Lemma StronglySorted_rev {A : Type} (R : A -> A -> Prop) (l : list A) :
  StronglySorted R l -> StronglySorted (fun x y => R y x) (rev l).
Proof.
  induction 1 as [| h t Ht IH Hh]; simpl; [constructor |].
  apply StronglySorted_snoc; [exact IH |].
  rewrite Forall_forall in *. intros y Hy.
  apply in_rev in Hy. exact (Hh y Hy).
Qed.

Lemma bincount_spec (labels : list nat) :
  bincount labels
  = map (population labels) (seq 0 (List.length (bincount labels))).
Proof.
  unfold bincount. destruct labels as [| l0 labels]; [reflexivity |].
  rewrite length_map, length_seq. reflexivity.
Qed.

Lemma max_label_bound (labels : list nat) (l : nat) :
  In l labels -> (l <= fold_right Nat.max 0%nat labels)%nat.
Proof.
  induction labels as [| h t IH]; simpl; [contradiction |].
  intros [-> | Hin]; [lia |]. specialize (IH Hin). lia.
Qed.

Lemma max_label_in (labels : list nat) :
  labels <> [] -> In (fold_right Nat.max 0%nat labels) labels.
Proof.
  induction labels as [| h t IH]; [congruence |]. intros _. simpl.
  destruct t as [| h' t'].
  - left. simpl. lia.
  - destruct (Nat.max_spec h (fold_right Nat.max 0%nat (h' :: t')))
      as [[_ E] | [_ E]]; rewrite E.
    + right. apply IH. discriminate.
    + left. reflexivity.
Qed.

Lemma bincount_length_bound (labels : list nat) (n : nat) :
  Forall (fun l => (l < n)%nat) labels ->
  (List.length (bincount labels) <= n)%nat.
Proof.
  intro H. unfold bincount. destruct labels as [| l0 labels]; simpl;
    [lia |].
  rewrite length_map, length_seq.
  assert (Hin : In (fold_right Nat.max 0%nat (l0 :: labels)) (l0 :: labels))
    by (apply max_label_in; discriminate).
  rewrite Forall_forall in H. specialize (H _ Hin). simpl in H. lia.
Qed.

Lemma take_rows_ok {A : Type} (arr : list A) (d : A) (indices : list nat) :
  Forall (fun i => (i < List.length arr)%nat) indices ->
  take_rows arr indices = Ok (map (fun i => nth i arr d) indices).
Proof.
  induction 1 as [| i rest Hi _ IH]; simpl; [reflexivity |].
  unfold getitem.
  destruct (nth_error arr i) as [x |] eqn:E.
  - simpl. rewrite IH. simpl. rewrite (nth_error_nth _ _ d E). reflexivity.
  - apply nth_error_None in E. lia.
Qed.

Lemma astype_uint8_range (x : Q) : valid_u8 (astype_uint8 x).
Proof.
  unfold valid_u8, astype_uint8.
  pose proof (Z.mod_pos_bound (Qtrunc x) 256 ltac:(lia)). lia.
Qed.

(* ------------------------------------------------------------------ *)
(** ** Dominant colours *)

Lemma astype_uint8_of_int (x : Q) (z : Z) :
  valid_u8 z -> (x == inject_Z z)%Q -> astype_uint8 x = z.
Proof.
  intros [H0 H1] E.
  rewrite astype_uint8_inside.
  - rewrite (Qfloor_comp _ _ E). apply Qfloor_Z.
  - rewrite E. change 0%Q with (inject_Z 0). rewrite <- Zle_Qle. exact H0.
  - rewrite E. change 255%Q with (inject_Z 255). rewrite <- Zle_Qle.
    exact H1.
Qed.

Lemma astype_centre (c : FPixel) (p : Pixel) :
  centre_is c p -> valid_pixel p -> astype_uint8_pixel c = p.
Proof.
  destruct c as [[c0 c1] c2], p as [[p0 p1] p2].
  unfold centre_is, valid_pixel, astype_uint8_pixel, chan0, chan1, chan2.
  simpl. intros [E0 [E1 E2]] [V0 [V1 V2]].
  rewrite (astype_uint8_of_int _ _ V0 E0), (astype_uint8_of_int _ _ V1 E1),
    (astype_uint8_of_int _ _ V2 E2).
  reflexivity.
Qed.

Lemma near_u8_unique (c : Q) (x y : Z) :
  near_u8 c x -> near_u8 c y -> x = y.
Proof.
  intros [X0 X1] [Y0 Y1].
  assert (H1 : (inject_Z x < inject_Z (y + 1))%Q)
    by (rewrite inject_Z_plus; change (inject_Z 1) with 1%Q; lra).
  assert (H2 : (inject_Z y < inject_Z (x + 1))%Q)
    by (rewrite inject_Z_plus; change (inject_Z 1) with 1%Q; lra).
  rewrite <- Zlt_Qlt in H1, H2. lia.
Qed.

Lemma centre_near_unique (c : FPixel) (p q : Pixel) :
  centre_near c p -> centre_near c q -> p = q.
Proof.
  destruct c as [[c0 c1] c2], p as [[p0 p1] p2], q as [[q0 q1] q2].
  unfold centre_near, chan0, chan1, chan2. simpl.
  intros [E0 [E1 E2]] [F0 [F1 F2]].
  rewrite (near_u8_unique _ _ _ E0 F0), (near_u8_unique _ _ _ E1 F1),
    (near_u8_unique _ _ _ E2 F2).
  reflexivity.
Qed.

(** The cast of a centre channel that lies within one half of an 8-bit
    value: that value, or one below it. *)
Lemma astype_uint8_near (c : Q) (x : Z) :
  valid_u8 x -> near_u8 c x -> x - 1 <= astype_uint8 c <= x.
Proof.
  intros [V0 V1] [N0 N1].
  assert (Qx0 : (0 <= inject_Z x)%Q)
    by (change 0%Q with (inject_Z 0); rewrite <- Zle_Qle; exact V0).
  assert (Qx1 : (inject_Z x <= 255)%Q)
    by (change 255%Q with (inject_Z 255); rewrite <- Zle_Qle; exact V1).
  unfold astype_uint8, Qtrunc.
  destruct (Qltb c 0) eqn:E; [apply Qltb_lt in E | apply Qltb_ge in E].
  - assert (Hx : (inject_Z x < inject_Z 1)%Q)
      by (change (inject_Z 1) with 1%Q; lra).
    rewrite <- Zlt_Qlt in Hx. assert (x = 0) by lia. subst x.
    assert (Hc : Qceiling c = 0).
    { pose proof (Qle_ceiling c) as L. pose proof (Qceiling_lt c) as U.
      change (inject_Z 0) with 0%Q in N0.
      assert (U' : (inject_Z (Qceiling c - 1) < inject_Z 0)%Q)
        by (change (inject_Z 0) with 0%Q; lra).
      assert (L' : (inject_Z (-1) < inject_Z (Qceiling c))%Q)
        by (change (inject_Z (-1)) with (-1)%Q; lra).
      rewrite <- Zlt_Qlt in U', L'. lia. }
    rewrite Hc. vm_compute. split; discriminate.
  - pose proof (Qfloor_le c) as L. pose proof (Qlt_floor c) as U.
    rewrite inject_Z_plus in U. change (inject_Z 1) with 1%Q in U.
    assert (A : (inject_Z x < inject_Z (Qfloor c + 2))%Q).
    { rewrite inject_Z_plus. change (inject_Z 2) with 2%Q. lra. }
    assert (B : (inject_Z (Qfloor c) < inject_Z (x + 1))%Q).
    { rewrite inject_Z_plus. change (inject_Z 1) with 1%Q. lra. }
    rewrite <- Zlt_Qlt in A, B.
    assert (C : (inject_Z 0 < inject_Z (Qfloor c + 1))%Q).
    { rewrite inject_Z_plus. change (inject_Z 1) with 1%Q.
      change (inject_Z 0) with 0%Q. lra. }
    rewrite <- Zlt_Qlt in C.
    rewrite Z.mod_small by lia. lia.
Qed.

Lemma astype_centre_near (c : FPixel) (p : Pixel) :
  valid_pixel p -> centre_near c p ->
  at_most_one_below (astype_uint8_pixel c) p.
Proof.
  destruct c as [[c0 c1] c2], p as [[p0 p1] p2].
  unfold centre_near, valid_pixel, at_most_one_below, astype_uint8_pixel,
    chan0, chan1, chan2.
  simpl. intros [V0 [V1 V2]] [N0 [N1 N2]].
  repeat split; apply astype_uint8_near; assumption.
Qed.

Lemma close_fit_label (centers : list FPixel) (pixels : list Pixel)
  (labels : list nat) (p : Pixel) :
  close_fit centers pixels labels -> In p pixels ->
  exists l c, In l labels /\ nth_error centers l = Some c /\ centre_near c p.
Proof.
  induction 1 as [| q l pixels labels [c [Hc Hq]] _ IH]; simpl;
    [contradiction |].
  intros [-> | Hin].
  - exists l, c. auto.
  - destruct (IH Hin) as [l' [c' [Hl' H']]]. exists l', c'. auto.
Qed.

(** With two colours and two centres that lie near them, the populations
    of the two clusters are the numbers of pixels of the two colours. *)
Lemma close_fit_populations (centers : list FPixel) (pixels : list Pixel)
  (labels : list nat) (a b : Pixel) (la lb : nat) (ca cb : FPixel) :
  List.length centers = 2%nat ->
  a <> b -> la <> lb ->
  nth_error centers la = Some ca -> centre_near ca a ->
  nth_error centers lb = Some cb -> centre_near cb b ->
  Forall (fun p => p = a \/ p = b) pixels ->
  close_fit centers pixels labels ->
  count_occ Nat.eq_dec labels la = count_colour pixels a /\
  count_occ Nat.eq_dec labels lb = count_colour pixels b.
Proof.
  intros Hlen Hab Hl Hca Ha Hcb Hb Hall Hfit.
  assert (Hla : (la < 2)%nat)
    by (rewrite <- Hlen; apply nth_error_Some; congruence).
  assert (Hlb : (lb < 2)%nat)
    by (rewrite <- Hlen; apply nth_error_Some; congruence).
  unfold count_colour.
  induction Hfit as [| p l pixels labels [c [Hc Hp]] _ IH];
    [split; reflexivity |].
  inversion Hall as [| ? ? Hp_ab Hall']; subst.
  destruct (IH Hall') as [IHa IHb].
  assert (Hlt : (l < 2)%nat)
    by (rewrite <- Hlen; apply nth_error_Some; congruence).
  assert (Hcase : (p = a /\ l = la) \/ (p = b /\ l = lb)).
  { destruct Hp_ab as [-> | ->].
    - left. split; [reflexivity |].
      destruct (Nat.eq_dec l la) as [E | E]; [exact E |].
      assert (l = lb) by lia. subst l.
      rewrite Hcb in Hc. injection Hc as <-.
      exfalso. apply Hab. exact (centre_near_unique _ _ _ Hp Hb).
    - right. split; [reflexivity |].
      destruct (Nat.eq_dec l lb) as [E | E]; [exact E |].
      assert (l = la) by lia. subst l.
      rewrite Hca in Hc. injection Hc as <-.
      exfalso. apply Hab. exact (centre_near_unique _ _ _ Ha Hp). }
  destruct Hcase as [[-> ->] | [-> ->]]; simpl.
  - destruct (Nat.eq_dec la la) as [_ | N]; [| congruence].
    destruct (Nat.eq_dec la lb) as [E | _]; [congruence |].
    destruct (Pixel_eq_dec a a) as [_ | N]; [| congruence].
    destruct (Pixel_eq_dec a b) as [E | _]; [congruence |].
    split; congruence.
  - destruct (Nat.eq_dec lb lb) as [_ | N]; [| congruence].
    destruct (Nat.eq_dec lb la) as [E | _]; [congruence |].
    destruct (Pixel_eq_dec b b) as [_ | N]; [| congruence].
    destruct (Pixel_eq_dec b a) as [E | _]; [congruence |].
    split; congruence.
Qed.

Lemma bincount_two (labels : list nat) :
  Forall (fun l => (l < 2)%nat) labels ->
  In 1%nat labels ->
  bincount labels = [population labels 0; population labels 1].
Proof.
  intros Hall Hin.
  assert (Hmax : fold_right Nat.max 0%nat labels = 1%nat).
  { pose proof (max_label_bound labels 1 Hin) as Hge.
    assert (Hne : labels <> []) by (intro E; subst; contradiction).
    pose proof (max_label_in labels Hne) as Hm.
    rewrite Forall_forall in Hall. specialize (Hall _ Hm). simpl in Hall.
    lia. }
  unfold bincount. destruct labels as [| l0 labels]; [contradiction |].
  rewrite Hmax. reflexivity.
Qed.

Lemma argsort_two (x y : Z) :
  rev (argsort [x; y]) = if y <? x then [0%nat; 1%nat] else [1%nat; 0%nat].
Proof.
  unfold argsort, argsort_pairs. simpl.
  destruct (y <? x); reflexivity.
Qed.

Section DominantColors.
Context {sk : SkLearn}.

Lemma get_dominant_colors_ok (pixels : list Pixel) (k : nat)
  (centers : list FPixel) (labels : list nat) :
  KMeans_fit k pixels = Ok (centers, labels) ->
  Forall (fun l => (l < List.length centers)%nat) labels ->
  _get_dominant_colors pixels k =
    Ok (map (fun i => astype_uint8_pixel (nth i centers (0, 0, 0)%Q))
            (rev (argsort (bincount labels)))).
Proof.
  intros Hfit Hlabels.
  unfold _get_dominant_colors. rewrite Hfit.
  unfold bind at 1. cbv beta iota zeta.
  rewrite (take_rows_ok centers (0, 0, 0)%Q).
  - unfold bind, try_except. rewrite map_map. reflexivity.
  - pose proof (bincount_length_bound labels _ Hlabels) as Hb.
    rewrite bincount_spec.
    destruct (argsort_spec (population labels)
                (List.length (bincount labels))) as [Hp _].
    rewrite Forall_forall. intros i Hi.
    apply in_rev in Hi. apply (Permutation_in _ Hp) in Hi.
    apply in_seq in Hi. lia.
Qed.

Lemma two_colours_first (pixels : list Pixel) (centers : list FPixel)
  (labels : list nat) (a b : Pixel) :
  KMeans_fit 2 pixels = Ok (centers, labels) ->
  List.length centers = 2%nat ->
  close_fit centers pixels labels ->
  a <> b ->
  Forall (fun p => p = a \/ p = b) pixels ->
  (0 < count_colour pixels b)%nat ->
  count_colour pixels a = (9 * count_colour pixels b)%nat ->
  exists ca cb,
    In ca centers /\ In cb centers /\
    centre_near ca a /\ centre_near cb b /\
    _get_dominant_colors pixels 2
    = Ok [astype_uint8_pixel ca; astype_uint8_pixel cb].
Proof.
  intros Hfit Hlen Hclose Hab Hall Hb Ha.
  assert (Hina : In a pixels)
    by (apply (count_occ_In Pixel_eq_dec); unfold count_colour in *; lia).
  assert (Hinb : In b pixels)
    by (apply (count_occ_In Pixel_eq_dec); unfold count_colour in *; lia).
  destruct (close_fit_label _ _ _ a Hclose Hina)
    as [la [ca [Hla [Hca Hcia]]]].
  destruct (close_fit_label _ _ _ b Hclose Hinb)
    as [lb [cb [Hlb [Hcb Hcib]]]].
  assert (Hne : la <> lb).
  { intros ->. rewrite Hca in Hcb. injection Hcb as ->.
    apply Hab. exact (centre_near_unique _ _ _ Hcia Hcib). }
  destruct (close_fit_populations centers pixels labels a b la lb ca cb
              Hlen Hab Hne Hca Hcia Hcb Hcib Hall Hclose) as [Pa Pb].
  assert (Hrange : Forall (fun l => (l < List.length centers)%nat) labels).
  { clear - Hclose. induction Hclose as [| p l ps ls [c [Hc _]] _ IH];
      constructor; [| exact IH].
    apply nth_error_Some. congruence. }
  exists ca, cb.
  split; [exact (nth_error_In _ _ Hca) |].
  split; [exact (nth_error_In _ _ Hcb) |].
  split; [exact Hcia |]. split; [exact Hcib |].
  rewrite (get_dominant_colors_ok pixels 2 centers labels Hfit Hrange).
  assert (Hla2 : (la < 2)%nat)
    by (rewrite <- Hlen; apply nth_error_Some; congruence).
  assert (Hlb2 : (lb < 2)%nat)
    by (rewrite <- Hlen; apply nth_error_Some; congruence).
  assert (Hin1 : In 1%nat labels).
  { destruct (Nat.eq_dec la 1) as [<- | N]; [exact Hla |].
    assert (lb = 1%nat) by lia. subst lb. exact Hlb. }
  rewrite Hlen in Hrange.
  rewrite (bincount_two labels Hrange Hin1), argsort_two.
  unfold population.
  destruct centers as [| c0 [| c1 [| c2 rest]]]; try discriminate.
  destruct (Nat.eq_dec la 0) as [-> | N].
  - assert (lb = 1%nat) by lia. subst lb.
    simpl in Hca, Hcb. injection Hca as ->. injection Hcb as ->.
    rewrite Pa, Pb.
    destruct (_ <? _) eqn:E; [| apply Z.ltb_ge in E; lia].
    reflexivity.
  - assert (la = 1%nat) by lia. subst la.
    assert (lb = 0%nat) by lia. subst lb.
    simpl in Hca, Hcb. injection Hca as ->. injection Hcb as ->.
    rewrite Pa, Pb.
    destruct (_ <? _) eqn:E; [apply Z.ltb_lt in E; lia |].
    reflexivity.
Qed.

(** C6 (amended).  When the clustering returns centres and labels (each
    label the index of a centre), [_get_dominant_colors] returns the
    centres of the clusters 0 .. (largest label), each once, in descending
    order of cluster population, each channel cast to an 8-bit integer
    (0..255, the integer part of a centre channel that lies in [0, 255]).
    For pixels of only two distinct colours a and b in the ratio 9:1 and
    k = 2, with a clustering that separates the two colours (each pixel
    within one half of its centre), the result is the cast of the centre
    of a followed by the cast of the centre of b: each channel is the
    colour's channel or, when the centre lies below it, one less.  The two
    colours themselves come back where the centres are exact. *)
Theorem dominant_colors_sorted_by_population (pixels : list Pixel)
  (k : nat) (centers : list FPixel) (labels : list nat) :
  KMeans_fit k pixels = Ok (centers, labels) ->
  Forall (fun l => (l < List.length centers)%nat) labels ->
  (exists order,
      _get_dominant_colors pixels k =
        Ok (map (fun i => astype_uint8_pixel (nth i centers (0, 0, 0)%Q))
                order) /\
      Permutation order (seq 0 (List.length (bincount labels))) /\
      StronglySorted
        (fun i j => population labels j <= population labels i) order /\
      Forall valid_pixel
        (map (fun i => astype_uint8_pixel (nth i centers (0, 0, 0)%Q))
             order)) /\
  (forall x, (0 <= x)%Q -> (x <= 255)%Q -> astype_uint8 x = Qfloor x) /\
  (forall a b,
      k = 2%nat -> List.length centers = 2%nat ->
      close_fit centers pixels labels ->
      a <> b -> valid_pixel a -> valid_pixel b ->
      Forall (fun p => p = a \/ p = b) pixels ->
      (0 < count_colour pixels b)%nat ->
      count_colour pixels a = (9 * count_colour pixels b)%nat ->
      exists ca cb,
        In ca centers /\ In cb centers /\
        _get_dominant_colors pixels k
        = Ok [astype_uint8_pixel ca; astype_uint8_pixel cb] /\
        at_most_one_below (astype_uint8_pixel ca) a /\
        at_most_one_below (astype_uint8_pixel cb) b /\
        (centre_is ca a -> astype_uint8_pixel ca = a) /\
        (centre_is cb b -> astype_uint8_pixel cb = b)).
Proof.
  intros Hfit Hlabels. split; [| split].
  - exists (rev (argsort (bincount labels))).
    split; [exact (get_dominant_colors_ok _ _ _ _ Hfit Hlabels) |].
    destruct (argsort_spec (population labels)
                (List.length (bincount labels))) as [Hp Hs].
    rewrite <- bincount_spec in Hp, Hs.
    split; [rewrite <- Hp; symmetry; apply Permutation_rev |].
    split; [exact (StronglySorted_rev _ _ Hs) |].
    rewrite Forall_map, Forall_forall. intros i _.
    unfold astype_uint8_pixel, valid_pixel, chan0, chan1, chan2. simpl.
    repeat split; apply astype_uint8_range.
  - exact astype_uint8_inside.
  - intros a b -> Hlen Hclose Hab Va Vb Hall Hb Ha.
    destruct (two_colours_first pixels centers labels a b Hfit Hlen Hclose
                Hab Hall Hb Ha) as [ca [cb [Ia [Ib [Na [Nb E]]]]]].
    exists ca, cb.
    split; [exact Ia |]. split; [exact Ib |]. split; [exact E |].
    split; [exact (astype_centre_near ca a Va Na) |].
    split; [exact (astype_centre_near cb b Vb Nb) |].
    split; intro Hc; apply astype_centre; assumption.
Qed.

(** C7 (amended).  [_get_dominant_colors] raises exactly when the
    clustering raises, with a ValueError whose message is "Dominant color
    extraction failed: " followed by the cause.  With a clustering that
    rejects fewer samples than clusters, it therefore raises on every pixel
    set with fewer than k pixels, the empty one included (k >= 1).  When
    the clustering returns, whatever the number of distinct colours, the
    extraction returns one colour per cluster index up to the largest
    label. *)
Theorem dominant_colors_fail_iff_fit_fails (pixels : list Pixel) (k : nat) :
  (forall e, KMeans_fit k pixels = Raise e ->
             _get_dominant_colors pixels k =
               Raise (Exn ValueError
                        ("Dominant color extraction failed: " ++ str e))) /\
  (forall centers labels,
      KMeans_fit k pixels = Ok (centers, labels) ->
      Forall (fun l => (l < List.length centers)%nat) labels ->
      exists out, _get_dominant_colors pixels k = Ok out /\
                  List.length out = List.length (bincount labels)) /\
  ((forall X n, (List.length X < n)%nat ->
                exists e, KMeans_fit n X = Raise e) ->
   (List.length pixels < k)%nat ->
   exists e, _get_dominant_colors pixels k = Raise e).
Proof.
  split; [| split].
  - intros e He. unfold _get_dominant_colors. rewrite He. reflexivity.
  - intros centers labels Hfit Hlabels.
    rewrite (get_dominant_colors_ok _ _ _ _ Hfit Hlabels).
    eexists. split; [reflexivity |].
    rewrite length_map, length_rev.
    destruct (argsort_spec (population labels)
                (List.length (bincount labels))) as [Hp _].
    rewrite <- bincount_spec in Hp.
    rewrite (Permutation_length Hp). apply length_seq.
  - intros Hval Hlt. destruct (Hval pixels k Hlt) as [e He].
    unfold _get_dominant_colors. rewrite He. eexists. reflexivity.
Qed.

End DominantColors.

Lemma dominant_colors_sorted_by_population_witness :
  KMeans_fit (SkLearn := SkLearn_centred) 2 nine_violet_one_orange
    = Ok ([(130%Q, 5066549580791807 # 562949953421312, 237%Q);
           (200%Q, 101%Q, 50%Q)],
          repeat 0%nat 9 ++ [1%nat])%list /\
  count_colour nine_violet_one_orange (130, 9, 237)
    = (9 * count_colour nine_violet_one_orange (200, 101, 50)%Z)%nat /\
  exists ca cb,
    _get_dominant_colors (sk := SkLearn_centred) nine_violet_one_orange 2
    = Ok [astype_uint8_pixel ca; astype_uint8_pixel cb] /\
    at_most_one_below (astype_uint8_pixel ca) (130, 9, 237) /\
    at_most_one_below (astype_uint8_pixel cb) (200, 101, 50).
Proof.
  assert (Hfit : KMeans_fit (SkLearn := SkLearn_centred) 2
                   nine_violet_one_orange
                 = Ok ([(130%Q, 5066549580791807 # 562949953421312, 237%Q);
                        (200%Q, 101%Q, 50%Q)],
                       repeat 0%nat 9 ++ [1%nat])%list)
    by (vm_compute; reflexivity).
  assert (Hcount : count_colour nine_violet_one_orange (130, 9, 237)
                   = (9 * count_colour nine_violet_one_orange
                            (200, 101, 50)%Z)%nat)
    by (vm_compute; reflexivity).
  split; [exact Hfit |]. split; [exact Hcount |].
  assert (Hrange : Forall (fun l => (l < 2)%nat)
                          (repeat 0%nat 9 ++ [1%nat])%list)
    by (simpl; repeat constructor).
  destruct (proj2 (proj2 (dominant_colors_sorted_by_population
                            (sk := SkLearn_centred) nine_violet_one_orange
                            2 _ _ Hfit Hrange))
                  (130, 9, 237) (200, 101, 50) eq_refl eq_refl)
    as [ca [cb [_ [_ [E [Ba [Bb _]]]]]]].
  - unfold close_fit, nine_violet_one_orange. simpl.
    repeat (constructor;
            [eexists; split; [reflexivity |];
             repeat split; vm_compute; reflexivity |]).
    apply Forall2_nil.
  - intro E. discriminate E.
  - repeat split; vm_compute; discriminate.
  - repeat split; vm_compute; discriminate.
  - unfold nine_violet_one_orange. simpl.
    repeat (constructor; [(left; reflexivity) || (right; reflexivity) |]).
    apply Forall_nil.
  - vm_compute. lia.
  - exact Hcount.
  - exists ca, cb. split; [exact E |]. split; [exact Ba | exact Bb].
Defined.

(** The last clause of C6 as stated fails on a clustering whose centres
    carry the rounding of binary64: nine pixels (130, 9, 237) and one pixel
    (200, 101, 50) come back as (130, 8, 237) and (200, 101, 50), since the
    centre of the first cluster has the green channel 8.999999999999998. *)
Lemma rounded_centre_is_cut_below :
  _get_dominant_colors (sk := SkLearn_centred) nine_violet_one_orange 2
    = Ok [(130, 8, 237); (200, 101, 50)] /\
  ~ two_colours_come_back SkLearn_centred.
Proof.
  assert (E : _get_dominant_colors (sk := SkLearn_centred)
                nine_violet_one_orange 2
              = Ok [(130, 8, 237); (200, 101, 50)])
    by (vm_compute; reflexivity).
  split; [exact E |].
  intro H.
  assert (F : _get_dominant_colors (sk := SkLearn_centred)
                nine_violet_one_orange 2
              = Ok [(130, 9, 237); (200, 101, 50)]).
  { apply H.
    - intro D. discriminate D.
    - repeat split; vm_compute; discriminate.
    - repeat split; vm_compute; discriminate.
    - unfold nine_violet_one_orange. simpl.
      repeat (constructor; [(left; reflexivity) || (right; reflexivity) |]).
      apply Forall_nil.
    - vm_compute. lia.
    - vm_compute. reflexivity. }
  rewrite E in F. discriminate F.
Qed.

Lemma dominant_colors_fail_iff_fit_fails_witness :
  (forall X n, (List.length X < n)%nat ->
               exists e, KMeans_fit (SkLearn := SkLearn_double) n X
                         = Raise e) /\
  (List.length (@nil Pixel) < 5)%nat /\
  exists e, _get_dominant_colors (sk := SkLearn_double) [] 5 = Raise e.
Proof.
  assert (Hval : forall X n, (List.length X < n)%nat ->
                   exists e, KMeans_fit (SkLearn := SkLearn_double) n X
                             = Raise e).
  { intros X n Hlt. simpl. unfold KMeans_double.
    destruct (n =? 0)%nat; [eexists; reflexivity |].
    apply Nat.ltb_lt in Hlt. rewrite Hlt. eexists; reflexivity. }
  assert (Hlt : (List.length (@nil Pixel) < 5)%nat) by (simpl; lia).
  split; [exact Hval |]. split; [exact Hlt |].
  exact (proj2 (proj2 (dominant_colors_fail_iff_fit_fails
                         (sk := SkLearn_double) [] 5)) Hval Hlt).
Defined.

(** C7 as stated fails: on the sample clustering, five pixels of one colour
    and k = 5 (fewer distinct colours than clusters) give a result. *)
Lemma few_distinct_colours_return :
  ~ degenerate_input_raises SkLearn_double.
Proof.
  intro H.
  destruct (H (repeat (10, 20, 30) 5) 5%nat) as [e He].
  - right. vm_compute. lia.
  - vm_compute in He. discriminate He.
Qed.

(* ================================================================== *)
(** * Further properties of the analyzer *)

(** ** Lightness *)

Lemma py_clamp_0_100 (l : Q) :
  (0 <= py_max 0 (py_min 100 l))%Q /\ (py_max 0 (py_min 100 l) <= 100)%Q.
Proof.
  unfold py_max, py_min.
  destruct (Qltb l 100) eqn:E1;
    [apply Qltb_lt in E1 | apply Qltb_ge in E1].
  - destruct (Qltb 0 l) eqn:E2;
      [apply Qltb_lt in E2 | apply Qltb_ge in E2]; split; lra.
  - destruct (Qltb 0 100) eqn:E2;
      [apply Qltb_lt in E2 | apply Qltb_ge in E2]; split; lra.
Qed.

Section Lightness.
Context {si : SkImage}.

(** X1.  For a mean colour with three channels in [0, 255] the lightness
    lies in [0, 100], whatever the LAB conversion returns and also when it
    raises (the fallback is the mean of the channels over 255, times 100). *)
Theorem calculate_lightness_in_range (r g b : Q) :
  (0 <= r)%Q -> (r <= 255)%Q ->
  (0 <= g)%Q -> (g <= 255)%Q ->
  (0 <= b)%Q -> (b <= 255)%Q ->
  (0 <= _calculate_lightness [r; g; b])%Q /\
  (_calculate_lightness [r; g; b] <= 100)%Q /\
  (forall e, rgb2lab ((r / 255)%Q, (g / 255)%Q, (b / 255)%Q) = Raise e ->
     (_calculate_lightness [r; g; b] == (r + g + b) / 3 / 255 * 100)%Q).
Proof.
  intros Hr0 Hr1 Hg0 Hg1 Hb0 Hb1.
  unfold _calculate_lightness. simpl.
  destruct (rgb2lab _) as [lab | e] eqn:E; simpl.
  - destruct (py_clamp_0_100 (chan0 lab)) as [H0 H1].
    split; [exact H0 |]. split; [exact H1 |]. intros e He. discriminate He.
  - assert (Hm : (np_mean [r; g; b] == (r + g + b) / 3)%Q).
    { unfold np_mean. simpl. field. }
    assert (Hv : (np_mean [r; g; b] / 255 * 100 == (r + g + b) * (20 # 153))%Q)
      by (rewrite Hm; field).
    split; [rewrite Hv; lra |]. split; [rewrite Hv; lra |].
    intros. rewrite Hm. reflexivity.
Qed.

End Lightness.

Lemma calculate_lightness_in_range_witness :
  (0 <= 200)%Q /\ (200 <= 255)%Q /\
  (0 <= _calculate_lightness (si := SkImage_failing) [200%Q; 150%Q; 120%Q])%Q
  /\
  (_calculate_lightness (si := SkImage_failing) [200%Q; 150%Q; 120%Q]
   <= 100)%Q.
Proof.
  assert (A1 : (0 <= 200)%Q) by lra.
  assert (A2 : (200 <= 255)%Q) by lra.
  split; [exact A1 |]. split; [exact A2 |].
  destruct (calculate_lightness_in_range (si := SkImage_failing)
              200 150 120 A1 A2 ltac:(lra) ltac:(lra) ltac:(lra) ltac:(lra))
    as [H0 [H1 _]].
  split; assumption.
Defined.

(** ** Colour temperature *)

Lemma Qltb_opp (c d : Q) : Qltb c (- d) = Qltb d (- c).
Proof.
  destruct (Qltb c (- d)) eqn:A;
    [apply Qltb_lt in A | apply Qltb_ge in A]; symmetry;
    [apply Qltb_lt | apply Qltb_ge]; lra.
Qed.

Lemma temperature_cases_eq (r g b : Q) :
  _calculate_color_temperature [r; g; b] =
    let r' := fl64 (r / 255) in
    let b' := fl64 (b / 255) in
    let d := red_blue_computed r b in
    if Qltb b' r' then (if Qltb (fl64 0.1) d then "Warm" else "Neutral-Warm")
    else if Qltb r' b'
         then (if Qltb d (- fl64 0.1) then "Cool" else "Neutral-Cool")
         else "Neutral".
Proof.
  unfold _calculate_color_temperature, red_blue_computed.
  cbn [map unpack3 bind]. cbv zeta.
  set (r' := fl64 (r / 255)). set (b' := fl64 (b / 255)).
  assert (E : Qltb (fl64 0.1) (fl64 (b' - r'))
              = Qltb (fl64 (r' - b')) (- fl64 0.1)).
  { rewrite (Qltb_comp (fl64 0.1) (fl64 0.1) (fl64 (b' - r'))
               (- fl64 (r' - b')) (Qeq_refl _)
               (round_Q_sub_swap 53 1024 r' b')).
    apply Qltb_opp. }
  rewrite E. clear E.
  destruct (Qltb b' r').
  - destruct (Qltb (fl64 0.1) (fl64 (r' - b'))); reflexivity.
  - destruct (Qltb r' b'); [| reflexivity].
    destruct (Qltb (fl64 (r' - b')) (- fl64 0.1)); reflexivity.
Qed.

(** The computed difference has the sign of the difference of the
    normalised channels. *)
Lemma red_blue_computed_sign (r b : Q) :
  ((fl64 (b / 255) < fl64 (r / 255))%Q -> (0 <= red_blue_computed r b)%Q) /\
  ((fl64 (r / 255) <= fl64 (b / 255))%Q -> (red_blue_computed r b <= 0)%Q) /\
  ((fl64 (r / 255) < fl64 (b / 255))%Q -> (red_blue_computed r b <= 0)%Q) /\
  ((fl64 (b / 255) <= fl64 (r / 255))%Q -> (0 <= red_blue_computed r b)%Q).
Proof.
  unfold red_blue_computed.
  set (r' := fl64 (r / 255)). set (b' := fl64 (b / 255)).
  repeat split; intro H.
  - apply (round_Q_nonneg 53 1024 (r' - b')). lra.
  - apply (round_Q_nonpos 53 1024 (r' - b')). lra.
  - apply (round_Q_nonpos 53 1024 (r' - b')). lra.
  - apply (round_Q_nonneg 53 1024 (r' - b')). lra.
Qed.

(** X2.  The temperature of a mean colour (r, g, b), with r' and b' the
    red and the blue channel over 255, d = r' - b' and 0.1 the number of
    that literal, all in binary64 as the code computes them: "Warm"
    exactly when d > 0.1, "Neutral-Warm" exactly when r' > b' and
    d <= 0.1, "Neutral" exactly when r' = b', "Neutral-Cool" exactly when
    r' < b' and d >= -0.1, "Cool" exactly when d < -0.1. *)
Theorem temperature_bands (r g b : Q) :
  let r' := fl64 (r / 255) in
  let b' := fl64 (b / 255) in
  let d := red_blue_computed r b in
  let t := _calculate_color_temperature [r; g; b] in
  (t = "Warm" <-> (fl64 0.1 < d)%Q) /\
  (t = "Neutral-Warm" <-> (b' < r')%Q /\ (d <= fl64 0.1)%Q) /\
  (t = "Neutral" <-> (r' == b')%Q) /\
  (t = "Neutral-Cool" <-> (r' < b')%Q /\ (- fl64 0.1 <= d)%Q) /\
  (t = "Cool" <-> (d < - fl64 0.1)%Q).
Proof.
  intros r' b' d t. subst t. rewrite temperature_cases_eq. cbv zeta.
  fold r' b' d.
  destruct (red_blue_computed_sign r b) as [S1 [S2 [S3 S4]]].
  fold r' b' d in S1, S2, S3, S4.
  rewrite fl64_0_1.
  destruct (Qltb b' r') eqn:E1;
    [apply Qltb_lt in E1; specialize (S1 E1)
    | apply Qltb_ge in E1; specialize (S2 E1)].
  - destruct (Qltb _ d) eqn:E2;
      [apply Qltb_lt in E2 | apply Qltb_ge in E2];
      repeat split; intros; try reflexivity; try discriminate; try lra;
      exfalso; lra.
  - destruct (Qltb r' b') eqn:E2;
      [apply Qltb_lt in E2 | apply Qltb_ge in E2].
    + destruct (Qltb d _) eqn:E3;
        [apply Qltb_lt in E3 | apply Qltb_ge in E3];
        repeat split; intros; try reflexivity; try discriminate; try lra;
        exfalso; lra.
    + repeat split; intros; try reflexivity; try discriminate; try lra;
        exfalso; lra.
Qed.

(** X3.  Undertone and temperature of one mean colour never contradict each
    other: a "Warm" temperature comes with a "Warm" undertone and a "Cool"
    temperature with a "Cool" undertone; a "Warm" undertone has temperature
    "Warm" or "Neutral-Warm", a "Cool" undertone "Cool" or "Neutral-Cool",
    and a "Neutral" undertone has neither a "Warm" nor a "Cool"
    temperature. *)
Theorem undertone_temperature_agree (r g b : Q) (skin_pixels : list Pixel) :
  let u := _determine_undertone [r; g; b] skin_pixels in
  let t := _calculate_color_temperature [r; g; b] in
  (t = "Warm" -> u = "Warm") /\
  (t = "Cool" -> u = "Cool") /\
  (u = "Warm" -> t = "Warm" \/ t = "Neutral-Warm") /\
  (u = "Cool" -> t = "Cool" \/ t = "Neutral-Cool") /\
  (u = "Neutral" -> t <> "Warm" /\ t <> "Cool").
Proof.
  intros u t. subst u t.
  rewrite undertone_cases, temperature_cases_eq. cbv zeta.
  destruct (red_blue_computed_sign r b) as [S1 [S2 [S3 S4]]].
  set (d := red_blue_computed r b) in *.
  set (r' := fl64 (r / 255)) in *. set (b' := fl64 (b / 255)) in *.
  assert (Hc : (0 < fl64 0.05)%Q /\ (fl64 0.05 < fl64 0.1)%Q)
    by (split; vm_compute; reflexivity).
  destruct Hc as [Hc5 Hc1].
  set (c5 := fl64 0.05) in *. set (c1 := fl64 0.1) in *.
  clearbody c5 c1 d r' b'.
  destruct (Qltb c5 d) eqn:U1;
    [apply Qltb_lt in U1 | apply Qltb_ge in U1];
    [| destruct (Qltb d (- c5)) eqn:U2;
       [apply Qltb_lt in U2 | apply Qltb_ge in U2]];
    (destruct (Qltb b' r') eqn:E1;
     [apply Qltb_lt in E1; specialize (S1 E1)
     | apply Qltb_ge in E1; specialize (S2 E1)];
     [destruct (Qltb c1 d) eqn:E2;
      [apply Qltb_lt in E2 | apply Qltb_ge in E2]
     | destruct (Qltb r' b') eqn:E2;
       [apply Qltb_lt in E2 | apply Qltb_ge in E2];
       [destruct (Qltb d (- c1)) eqn:E3;
        [apply Qltb_lt in E3 | apply Qltb_ge in E3] |]]);
    try (exfalso; lra);
    repeat split; intros; try discriminate; auto.
Qed.

Lemma undertone_temperature_agree_witness :
  _calculate_color_temperature [200%Q; 150%Q; 120%Q] = "Warm" /\
  _determine_undertone [200%Q; 150%Q; 120%Q] [] = "Warm".
Proof.
  assert (H : _calculate_color_temperature [200%Q; 150%Q; 120%Q] = "Warm")
    by reflexivity.
  split; [exact H |].
  exact (proj1 (undertone_temperature_agree 200 150 120 []) H).
Defined.

Section MalformedColour.
Context {si : SkImage}.

(** X4.  A mean-colour array that does not have exactly three entries makes
    the temperature "Neutral" and the harmony information the default dict;
    with fewer than three entries the undertone is "Neutral" as well.  None
    of the three functions raises. *)
Theorem malformed_colour_defaults (rgb_color : list Q)
  (skin_pixels : list Pixel) :
  (List.length rgb_color <> 3%nat ->
   _calculate_color_temperature rgb_color = "Neutral" /\
   _get_color_harmony_info rgb_color = Ok default_harmony_info) /\
  ((List.length rgb_color < 3)%nat ->
   _determine_undertone rgb_color skin_pixels = "Neutral").
Proof.
  destruct rgb_color as [| a [| b [| c [| d rest]]]]; simpl; split;
    intros H; try (exfalso; lia); try (split; reflexivity);
    try reflexivity; try congruence.
Qed.

End MalformedColour.

Lemma malformed_colour_defaults_witness :
  List.length [200%Q; 150%Q] <> 3%nat /\
  _calculate_color_temperature [200%Q; 150%Q] = "Neutral" /\
  _get_color_harmony_info (si := SkImage_double) [200%Q; 150%Q]
    = Ok default_harmony_info.
Proof.
  assert (H : List.length [200%Q; 150%Q] <> 3%nat) by (simpl; lia).
  split; [exact H |].
  exact (proj1 (malformed_colour_defaults (si := SkImage_double)
                  [200%Q; 150%Q] []) H).
Defined.

(** ** Harmony hues *)


Section HarmonyHues.
Context {si : SkImage}.


End HarmonyHues.


(** ** The raw skin mask *)

Lemma all_zero_intro (m : Mask) :
  (forall i j v, at2 m i j = Some v -> v = 0) -> all_zero m.
Proof.
  intro H. unfold all_zero. rewrite Forall_forall. intros row Hrow.
  rewrite Forall_forall. intros v Hv.
  destruct (In_nth_error _ _ Hrow) as [i Hi].
  destruct (In_nth_error _ _ Hv) as [j Hj].
  apply (H i j v). unfold at2. rewrite Hi. exact Hj.
Qed.

Lemma at2_shape {A B : Type} (a : list (list A)) (b : list (list B))
  (i j : nat) (y : B) :
  shape a = shape b -> at2 b i j = Some y -> exists x, at2 a i j = Some x.
Proof.
  revert b i. induction a as [| ra a IH]; intros [| rb b] i Hs Hb;
    simpl in Hs; try discriminate.
  - destruct i; discriminate.
  - injection Hs as Hr Hs. destruct i as [| i]; unfold at2 in *; simpl in *.
    + assert (Hlt : (j < List.length ra)%nat).
      { rewrite Hr. apply nth_error_Some. congruence. }
      destruct (nth_error ra j) as [x |] eqn:E; [eauto |].
      apply nth_error_None in E. lia.
    + exact (IH b i Hs Hb).
Qed.

(** X6.  The raw skin mask, before morphology and blur, is 255 exactly at
    the pixels whose HSV value has H in [0, 20], S in [20, 255], V in
    [70, 255] and whose YCrCb value has Cr in [135, 180], Cb in [85, 135]
    (Y in [0, 255]), and 0 at every other pixel. *)
Theorem raw_skin_mask_is_intersection (hsv ycrcb : Image) :
  shape hsv = shape ycrcb ->
  exists raw,
    bitwise_and (inRange hsv lower_hsv upper_hsv)
                (inRange ycrcb lower_ycrcb upper_ycrcb) = Ok raw /\
    shape raw = shape hsv /\
    (forall i j p q,
        at2 hsv i j = Some p -> at2 ycrcb i j = Some q ->
        at2 raw i j = Some (raw_mask_value p q)) /\
    (forall h s v y cr cb,
        raw_mask_value (h, s, v) (y, cr, cb) = 255 <->
        (0 <= h <= 20 /\ 20 <= s <= 255 /\ 70 <= v <= 255) /\
        (0 <= y <= 255 /\ 135 <= cr <= 180 /\ 85 <= cb <= 135)).
Proof.
  intro Hshape.
  unfold bitwise_and, zip2d, inRange.
  assert (Hs : shape (map2d (fun p => if in_bounds lower_hsv upper_hsv p
                                      then 255 else 0) hsv)
               = shape (map2d (fun p => if in_bounds lower_ycrcb upper_ycrcb p
                                        then 255 else 0) ycrcb)).
  { rewrite !map2d_shape. exact Hshape. }
  destruct (zip2d_opt_some Z.land _ _ Hs) as [raw E].
  rewrite E. exists raw. split; [reflexivity |].
  destruct (zip2d_opt_shape _ _ _ _ E) as [Hr _].
  split; [rewrite Hr; apply map2d_shape |].
  split.
  - intros i j p q Hp Hq.
    rewrite (zip2d_opt_at2 Z.land _ _ _ i j _ _ E
               (map2d_at2 _ hsv i j p Hp) (map2d_at2 _ ycrcb i j q Hq)).
    unfold raw_mask_value.
    destruct (in_bounds lower_hsv upper_hsv p),
             (in_bounds lower_ycrcb upper_ycrcb q); reflexivity.
  - intros h s v y cr cb.
    unfold raw_mask_value, in_bounds, lower_hsv, upper_hsv, lower_ycrcb,
      upper_ycrcb, chan0, chan1, chan2. simpl fst. simpl snd.
    split.
    + intro H.
      destruct (_ && _) eqn:E'; [| discriminate].
      rewrite !andb_true_iff, !Z.leb_le in E'. lia.
    + intro H.
      assert (E' : ((0 <=? h) && (h <=? 20) && (20 <=? s) && (s <=? 255) &&
                    (70 <=? v) && (v <=? 255) &&
                    ((0 <=? y) && (y <=? 255) && (135 <=? cr) &&
                     (cr <=? 180) && (85 <=? cb) && (cb <=? 135))) = true).
      { rewrite !andb_true_iff, !Z.leb_le. lia. }
      rewrite E'. reflexivity.
Qed.

Lemma raw_skin_mask_is_intersection_witness :
  shape [[(11, 102, 200)]] = shape [[(162, 155, 105)]] /\
  bitwise_and (inRange [[(11, 102, 200)]] lower_hsv upper_hsv)
              (inRange [[(162, 155, 105)]] lower_ycrcb upper_ycrcb)
    = Ok [[255]].
Proof.
  assert (H : shape [[(11, 102, 200)]] = shape [[(162, 155, 105)]])
    by reflexivity.
  split; [exact H |].
  destruct (raw_skin_mask_is_intersection _ _ H) as [raw [E _]].
  rewrite E. vm_compute in E. injection E as <-. reflexivity.
Defined.

(** ** Images without skin-coloured pixels *)

Lemma raw_mask_pointwise (hsv ycrcb : Image) :
  shape hsv = shape ycrcb ->
  exists raw,
    bitwise_and (inRange hsv lower_hsv upper_hsv)
                (inRange ycrcb lower_ycrcb upper_ycrcb) = Ok raw /\
    shape raw = shape hsv /\
    (forall i j p q,
        at2 hsv i j = Some p -> at2 ycrcb i j = Some q ->
        at2 raw i j = Some (raw_mask_value p q)).
Proof.
  intro Hshape.
  unfold bitwise_and, zip2d, inRange.
  assert (Hs : shape (map2d (fun p => if in_bounds lower_hsv upper_hsv p
                                      then 255 else 0) hsv)
               = shape (map2d (fun p => if in_bounds lower_ycrcb upper_ycrcb p
                                        then 255 else 0) ycrcb)).
  { rewrite !map2d_shape. exact Hshape. }
  destruct (zip2d_opt_some Z.land _ _ Hs) as [raw E].
  rewrite E. exists raw. split; [reflexivity |].
  destruct (zip2d_opt_shape _ _ _ _ E) as [Hr _].
  split; [rewrite Hr; apply map2d_shape |].
  intros i j p q Hp Hq.
  rewrite (zip2d_opt_at2 Z.land _ _ _ i j _ _ E
             (map2d_at2 _ hsv i j p Hp) (map2d_at2 _ ycrcb i j q Hq)).
  unfold raw_mask_value.
  destruct (in_bounds lower_hsv upper_hsv p),
           (in_bounds lower_ycrcb upper_ycrcb q); reflexivity.
Qed.

Lemma raw_mask_all_zero (hsv ycrcb : Image) :
  shape hsv = shape ycrcb ->
  (forall i j p q,
      at2 hsv i j = Some p -> at2 ycrcb i j = Some q ->
      raw_mask_value p q = 0) ->
  exists raw,
    bitwise_and (inRange hsv lower_hsv upper_hsv)
                (inRange ycrcb lower_ycrcb upper_ycrcb) = Ok raw /\
    all_zero raw.
Proof.
  intros Hshape Hnone.
  destruct (raw_mask_pointwise hsv ycrcb Hshape) as [raw [E [Hs Hpt]]].
  exists raw. split; [exact E |].
  apply all_zero_intro. intros i j v Hv.
  destruct (at2_shape hsv raw i j v (eq_sym Hs) Hv) as [p Hp].
  assert (Hs' : shape ycrcb = shape raw) by congruence.
  destruct (at2_shape ycrcb raw i j v Hs' Hv) as [q Hq].
  rewrite (Hpt i j p q Hp Hq) in Hv. injection Hv as <-.
  exact (Hnone i j p q Hp Hq).
Qed.

Lemma nonempty_array_shape {A B : Type} (a : list (list A))
  (b : list (list B)) :
  shape a = shape b -> nonempty_array a -> nonempty_array b.
Proof.
  intros E [h [w H]]. exists h, w. rewrite <- E. exact H.
Qed.

Section NoSkinPixels.
Context {cv : Cv2} {sk : SkLearn} {si : SkImage}.

Lemma detectors_on_zero_raw (image hsv ycrcb : Image) :
  keeps_zero_masks cv ->
  cvtColor image COLOR_RGB2HSV = Ok hsv ->
  cvtColor image COLOR_RGB2YCrCb = Ok ycrcb ->
  nonempty_array hsv ->
  shape hsv = shape ycrcb ->
  (forall i j p q,
      at2 hsv i j = Some p -> at2 ycrcb i j = Some q ->
      raw_mask_value p q = 0) ->
  (exists m, _detect_skin_regions image = Ok m /\ all_zero m) /\
  (exists m, _detect_skin_mask image = Ok m /\ all_zero m).
Proof.
  intros [Hmorph Hblur] Hhsv Hycrcb Hne Hshape Hnone.
  destruct (raw_mask_pointwise hsv ycrcb Hshape) as [raw [Eraw [Hsr _]]].
  destruct (raw_mask_all_zero hsv ycrcb Hshape Hnone) as [raw' [Eraw' Hz]].
  rewrite Eraw in Eraw'. injection Eraw' as <-.
  assert (N0 : nonempty_array raw)
    by (exact (nonempty_array_shape hsv raw (eq_sym Hsr) Hne)).
  destruct (Hmorph raw MORPH_OPEN N0 Hz) as [m1 [E1 [Hz1 Hs1]]].
  assert (N1 : nonempty_array m1)
    by (exact (nonempty_array_shape raw m1 (eq_sym Hs1) N0)).
  destruct (Hmorph m1 MORPH_CLOSE N1 Hz1) as [m2 [E2 [Hz2 Hs2]]].
  assert (N2 : nonempty_array m2)
    by (exact (nonempty_array_shape m1 m2 (eq_sym Hs2) N1)).
  split.
  - destruct (Hblur m2 3%nat N2 Hz2 (or_introl eq_refl))
      as [m3 [E3 [Hz3 _]]].
    exists m3. split; [| exact Hz3].
    unfold _detect_skin_regions. rewrite Hhsv, Hycrcb. simpl.
    rewrite Eraw. simpl. rewrite E1. simpl. rewrite E2. simpl.
    rewrite E3. reflexivity.
  - destruct (Hblur m2 5%nat N2 Hz2 (or_intror eq_refl))
      as [m3 [E3 [Hz3 _]]].
    exists m3. split; [| exact Hz3].
    unfold _detect_skin_mask. rewrite Hhsv, Hycrcb. simpl.
    rewrite Eraw. simpl. rewrite E1. simpl. rewrite E2. simpl.
    rewrite E3. reflexivity.
Qed.

(** X7.  With a library whose morphology and whose 3x3 and 5x5 blur turn a
    mask without skin that is not empty into a mask without skin of the
    same shape: if the image is not empty and none of its pixels lies in
    both the HSV and the YCrCb skin range, [analyze_skin_tone] raises the
    no-skin failure and each of the three adjustments, at any magnitude,
    returns the image unchanged. *)
Theorem no_skin_pixels_end_to_end (image hsv ycrcb : Image) :
  keeps_zero_masks cv ->
  cvtColor image COLOR_RGB2HSV = Ok hsv ->
  cvtColor image COLOR_RGB2YCrCb = Ok ycrcb ->
  nonempty_array hsv ->
  shape hsv = shape ycrcb ->
  (forall i j p q,
      at2 hsv i j = Some p -> at2 ycrcb i j = Some q ->
      raw_mask_value p q = 0) ->
  analyze_skin_tone image = Raise (Exn ValueError no_skin_message) /\
  (forall kind magnitude, adjust kind image magnitude = Ok image).
Proof.
  intros Hkeep Hhsv Hycrcb Hne Hshape Hnone.
  destruct (detectors_on_zero_raw image hsv ycrcb Hkeep Hhsv Hycrcb Hne
              Hshape Hnone) as [[m [Hdet Hz]] [m' [Hdet' Hz']]].
  pose proof (np_sum_all_zero m Hz) as Hsum.
  pose proof (np_sum_all_zero m' Hz') as Hsum'.
  apply Z.eqb_eq in Hsum, Hsum'.
  split.
  - unfold analyze_skin_tone. rewrite Hdet. simpl. rewrite Hsum.
    reflexivity.
  - intros kind magnitude.
    destruct kind; simpl;
      unfold adjust_lightness, adjust_warmth, adjust_saturation;
      rewrite Hdet'; simpl; rewrite Hsum'; reflexivity.
Qed.

End NoSkinPixels.

Lemma Cv2_double_keeps_zero_masks : keeps_zero_masks Cv2_double.
Proof.
  split.
  - intros m op _ Hz. exists m.
    split; [reflexivity |]. split; [exact Hz | reflexivity].
  - intros m k _ Hz _. exists m.
    split; [reflexivity |]. split; [exact Hz | reflexivity].
Qed.

Lemma no_skin_pixels_end_to_end_witness :
  keeps_zero_masks Cv2_double /\
  cvtColor (Cv2 := Cv2_double) black_patch COLOR_RGB2HSV
    = Ok (repeat (repeat (0, 0, 0) 4) 4) /\
  cvtColor (Cv2 := Cv2_double) black_patch COLOR_RGB2YCrCb
    = Ok (repeat (repeat (0, 128, 128) 4) 4) /\
  nonempty_array (repeat (repeat (0, 0, 0) 4) 4) /\
  analyze_skin_tone (cv := Cv2_double) (sk := SkLearn_double)
    (si := SkImage_double) black_patch
    = Raise (Exn ValueError no_skin_message).
Proof.
  assert (H1 : cvtColor (Cv2 := Cv2_double) black_patch COLOR_RGB2HSV
               = Ok (repeat (repeat (0, 0, 0) 4) 4)) by reflexivity.
  assert (H2 : cvtColor (Cv2 := Cv2_double) black_patch COLOR_RGB2YCrCb
               = Ok (repeat (repeat (0, 128, 128) 4) 4)) by reflexivity.
  assert (H3 : nonempty_array (repeat (repeat (0, 0, 0) 4) 4))
    by (exists 3%nat, 3%nat; reflexivity).
  split; [exact Cv2_double_keeps_zero_masks |].
  split; [exact H1 |]. split; [exact H2 |]. split; [exact H3 |].
  refine (proj1 (no_skin_pixels_end_to_end (cv := Cv2_double)
                   (sk := SkLearn_double) (si := SkImage_double)
                   black_patch _ _ Cv2_double_keeps_zero_masks H1 H2 H3
                   eq_refl _)).
  intros i j p q Hp Hq.
  assert (Hin : forall (x : Pixel) i j a,
             at2 (repeat (repeat x 4) 4) i j = Some a -> a = x).
  { intros x i0 j0 a. unfold at2.
    destruct (nth_error (repeat (repeat x 4) 4) i0) as [row |] eqn:Er;
      [| discriminate].
    apply nth_error_In, repeat_spec in Er. subst row. intro Ha.
    apply nth_error_In, repeat_spec in Ha. exact Ha. }
  rewrite (Hin _ _ _ _ Hp), (Hin _ _ _ _ Hq). reflexivity.
Defined.

(** ** Invariants of a returned analysis *)

Lemma classify_in_names (L : Q) :
  In (_classify_skin_tone_category L) category_names.
Proof.
  unfold category_names.
  destruct (Qlt_le_dec L 0); [
  | destruct (Qlt_le_dec L 25); [
  | destruct (Qlt_le_dec L 40); [
  | destruct (Qlt_le_dec L 55); [
  | destruct (Qlt_le_dec L 70); [
  | destruct (Qlt_le_dec L 85); [
  | destruct (Qlt_le_dec L 100)]]]]]].
  1: assert (E : _classify_skin_tone_category L = "Very Light") by classify.
  2: assert (E : _classify_skin_tone_category L = "Very Light") by classify.
  3: assert (E : _classify_skin_tone_category L = "Light") by classify.
  4: assert (E : _classify_skin_tone_category L = "Light Medium")
       by classify.
  5: assert (E : _classify_skin_tone_category L = "Medium") by classify.
  6: assert (E : _classify_skin_tone_category L = "Medium Dark") by classify.
  7: assert (E : _classify_skin_tone_category L = "Dark") by classify.
  8: assert (E : _classify_skin_tone_category L = "Dark") by classify.
  all: rewrite E; simpl; tauto.
Qed.

Lemma undertone_in_names (avg_color : list Q) (skin_pixels : list Pixel) :
  In (_determine_undertone avg_color skin_pixels) undertone_names.
Proof.
  unfold undertone_names.
  destruct avg_color as [| r [| g [| b rest]]]; try (simpl; tauto).
  unfold _determine_undertone. cbn [map getitem nth_error bind].
  destruct (Qltb (fl64 0.05) _); [simpl; tauto |].
  destruct (Qltb _ (- fl64 0.05)); simpl; tauto.
Qed.

Lemma temperature_in_names (rgb_color : list Q) :
  In (_calculate_color_temperature rgb_color) temperature_names.
Proof.
  unfold temperature_names.
  destruct rgb_color as [| r [| g [| b [| x rest]]]]; try (simpl; tauto).
  rewrite temperature_cases_eq. cbv zeta.
  destruct (Qltb (fl64 (b / 255)) _);
    [destruct (Qltb (fl64 0.1) _); simpl; tauto |].
  destruct (Qltb (fl64 (r / 255)) _);
    [destruct (Qltb _ (- fl64 0.1)); simpl; tauto |].
  simpl; tauto.
Qed.

Lemma confidence_in_unit (skin_mask : Mask) (image : Image) :
  (0 <= _calculate_confidence skin_mask image)%Q /\
  (_calculate_confidence skin_mask image <= 1)%Q.
Proof.
  unfold _calculate_confidence.
  destruct (_ =? 0); [split; vm_compute; discriminate |].
  cbv zeta.
  destruct (Qltb _ 0.05); [split; vm_compute; discriminate |].
  destruct (Qltb _ 0.15); [split; vm_compute; discriminate |].
  destruct (Qltb _ 0.4); split; vm_compute; discriminate.
Qed.

Lemma zip_row_pair_count (row : list Pixel) :
  forall (mrow : list Z) (c : list (Pixel * Z)),
    zip_row (fun p v => (p, v)) row mrow = Some c ->
    List.length (filter (fun pv => 0 <? snd pv) c)
    = List.length (filter (fun v => 0 <? v) mrow).
Proof.
  induction row as [| p row IH]; intros [| v mrow] c H; simpl in H;
    try discriminate.
  - injection H as <-. reflexivity.
  - destruct (zip_row _ row mrow) as [r |] eqn:E; [| discriminate].
    injection H as <-. simpl. specialize (IH mrow r E).
    destruct (0 <? v); simpl; congruence.
Qed.

Lemma bool_index_length (image : Image) (mask : Mask) (pixels : list Pixel) :
  bool_index image mask = Ok pixels ->
  Z.of_nat (List.length pixels) = count_positive mask.
Proof.
  unfold bool_index, count_positive.
  destruct (zip2d_opt _ image mask) as [rows |] eqn:E; [| discriminate].
  intro H. injection H as <-. rewrite length_map.
  revert mask rows E.
  induction image as [| ri image IH]; intros [| rm mask] rows E; simpl in E;
    try discriminate.
  - injection E as <-. reflexivity.
  - destruct (zip_row _ ri rm) as [r |] eqn:Er; [| discriminate].
    destruct (zip2d_opt _ image mask) as [rest |] eqn:E'; [| discriminate].
    injection E as <-.
    change (List.concat (r :: rest)) with (r ++ List.concat rest)%list.
    rewrite filter_app, length_app, Nat2Z.inj_add.
    rewrite (zip_row_pair_count ri rm r Er).
    rewrite (IH mask rest E'). reflexivity.
Qed.

Lemma count_positive_zero_inv (m : Mask) :
  valid_mask m -> count_positive m = 0 -> all_zero m.
Proof.
  unfold count_positive.
  induction 1 as [| row m Hrow Hm IH]; simpl; intro E; [constructor |].
  assert (Hnn : forall l : Mask,
             0 <= Zsum (map (fun row => Z.of_nat (List.length
                                (filter (fun v => 0 <? v) row))) l)).
  { induction l as [| x l IHl]; simpl; lia. }
  pose proof (Hnn m) as Hm0.
  constructor; [| apply IH; lia].
  assert (Hlen : List.length (filter (fun v => 0 <? v) row) = 0%nat) by lia.
  clear - Hrow Hlen.
  induction Hrow as [| v row Hv _ IHr]; [constructor |].
  simpl in Hlen. destruct (0 <? v) eqn:Ev; [discriminate |].
  apply Z.ltb_ge in Ev. unfold valid_u8 in Hv.
  constructor; [lia | exact (IHr Hlen)].
Qed.

Lemma Qsum_bounds (l : list Q) :
  Forall (fun x => (0 <= x)%Q /\ (x <= 255)%Q) l ->
  (0 <= Qsum l)%Q /\
  (Qsum l <= 255 * inject_Z (Z.of_nat (List.length l)))%Q.
Proof.
  induction 1 as [| x l [Hx0 Hx1] _ [IH0 IH1]].
  - split; vm_compute; discriminate.
  - change (Qsum (x :: l)) with (x + Qsum l)%Q.
    change (List.length (x :: l)) with (S (List.length l)).
    rewrite Nat2Z.inj_succ. unfold Z.succ. rewrite inject_Z_plus.
    change (inject_Z 1) with 1%Q. split; lra.
Qed.

Lemma np_mean_bounds (l : list Q) :
  l <> [] ->
  Forall (fun x => (0 <= x)%Q /\ (x <= 255)%Q) l ->
  (0 <= np_mean l)%Q /\ (np_mean l <= 255)%Q.
Proof.
  intros Hne Hall. destruct (Qsum_bounds l Hall) as [H0 H1].
  unfold np_mean.
  assert (Hn : (0 < inject_Z (Z.of_nat (List.length l)))%Q).
  { change 0%Q with (inject_Z 0). rewrite <- Zlt_Qlt.
    destruct l; [congruence | simpl; lia]. }
  split.
  - apply Qle_shift_div_l; [exact Hn | lra].
  - apply Qle_shift_div_r; [exact Hn | exact H1].
Qed.

Lemma np_mean_axis0_bounds (pixels : list Pixel) :
  pixels <> [] -> Forall valid_pixel pixels ->
  exists r g b,
    np_mean_axis0 pixels = [r; g; b] /\
    ((0 <= r)%Q /\ (r <= 255)%Q) /\
    ((0 <= g)%Q /\ (g <= 255)%Q) /\
    ((0 <= b)%Q /\ (b <= 255)%Q).
Proof.
  intros Hne Hall. unfold np_mean_axis0.
  do 3 eexists. split; [reflexivity |].
  assert (Hmap : forall f : Pixel -> Z,
             (forall p, valid_pixel p -> valid_u8 (f p)) ->
             Forall (fun x => (0 <= x)%Q /\ (x <= 255)%Q)
                    (map (fun p => inject_Z (f p)) pixels)).
  { intros f Hf. rewrite Forall_map.
    eapply Forall_impl; [| exact Hall].
    intros p Hp. destruct (Hf p Hp) as [A B].
    change 0%Q with (inject_Z 0). change 255%Q with (inject_Z 255).
    rewrite <- !Zle_Qle. split; assumption. }
  assert (Hne' : forall f : Pixel -> Q, map f pixels <> []).
  { intros f E. apply map_eq_nil in E. contradiction. }
  repeat split; apply np_mean_bounds; try apply Hne'; apply Hmap;
    intros p [A [B C]]; assumption.
Qed.

Lemma bool_index_valid (image : Image) (mask : Mask) (pixels : list Pixel) :
  valid_image image -> bool_index image mask = Ok pixels ->
  Forall valid_pixel pixels.
Proof.
  unfold bool_index.
  destruct (zip2d_opt _ image mask) as [rows |] eqn:E; [| discriminate].
  intros Hv H. injection H as <-.
  rewrite Forall_map. apply Forall_forall. intros [p v] Hin.
  apply filter_In in Hin. destruct Hin as [Hin _]. simpl.
  apply in_concat in Hin. destruct Hin as [row [Hrow Hp]].
  destruct (In_nth_error _ _ Hrow) as [i Hi].
  destruct (In_nth_error _ _ Hp) as [j Hj].
  assert (Hat : at2 rows i j = Some (p, v))
    by (unfold at2; rewrite Hi; exact Hj).
  destruct (zip2d_opt_shape _ _ _ _ E) as [Hs1 Hs2].
  destruct (at2_shape image rows i j _ (eq_sym Hs1) Hat) as [p' Hp'].
  destruct (at2_shape mask rows i j _ (eq_sym Hs2) Hat) as [v' Hv'].
  rewrite (zip2d_opt_at2 _ _ _ _ i j _ _ E Hp' Hv') in Hat.
  injection Hat as -> ->.
  exact (valid_image_at2 _ _ _ _ Hv Hp').
Qed.

Section AnalysisInvariants.
Context {cv : Cv2} {sk : SkLearn} {si : SkImage}.

Lemma lightness_bounds (r g b : Q) :
  ((0 <= r)%Q /\ (r <= 255)%Q) ->
  ((0 <= g)%Q /\ (g <= 255)%Q) ->
  ((0 <= b)%Q /\ (b <= 255)%Q) ->
  (0 <= _calculate_lightness [r; g; b])%Q /\
  (_calculate_lightness [r; g; b] <= 100)%Q.
Proof.
  intros [Hr0 Hr1] [Hg0 Hg1] [Hb0 Hb1].
  unfold _calculate_lightness. simpl.
  destruct (rgb2lab _) as [lab | e]; simpl.
  - apply py_clamp_0_100.
  - assert (Hv : (np_mean [r; g; b] / 255 * 100
                  == (r + g + b) * (20 # 153))%Q)
      by (unfold np_mean; simpl; field).
    split; rewrite Hv; lra.
Qed.

Lemma get_dominant_colors_valid (pixels : list Pixel) (k : nat)
  (dominant : list Pixel) :
  _get_dominant_colors pixels k = Ok dominant -> Forall valid_pixel dominant.
Proof.
  unfold _get_dominant_colors.
  destruct (KMeans_fit k pixels) as [[centers labels] | e]; simpl;
    [| discriminate].
  destruct (take_rows centers _) as [rows | e]; simpl; [| discriminate].
  intro H. injection H as <-.
  rewrite Forall_map, Forall_forall. intros c _.
  unfold valid_pixel, chan0, chan1, chan2. simpl.
  repeat split; apply astype_uint8_range.
Qed.

Lemma analyze_ok_inv (image : Image) (a : Analysis) :
  analyze_skin_tone image = Ok a ->
  exists skin_mask skin_pixels dominant harmony,
    _detect_skin_regions image = Ok skin_mask /\
    np_sum skin_mask <> 0 /\
    bool_index image skin_mask = Ok skin_pixels /\
    _get_dominant_colors skin_pixels 5 = Ok dominant /\
    _get_color_harmony_info (np_mean_axis0 skin_pixels) = Ok harmony /\
    a = {| category :=
             _classify_skin_tone_category
               (_calculate_lightness (np_mean_axis0 skin_pixels));
           undertone :=
             _determine_undertone (np_mean_axis0 skin_pixels) skin_pixels;
           lightness := _calculate_lightness (np_mean_axis0 skin_pixels);
           temperature :=
             _calculate_color_temperature (np_mean_axis0 skin_pixels);
           dominant_colors := dominant;
           average_color := np_mean_axis0 skin_pixels;
           harmony_info := harmony;
           skin_pixel_count := List.length skin_pixels;
           confidence := _calculate_confidence skin_mask image |}.
Proof.
  unfold analyze_skin_tone.
  destruct (_detect_skin_regions image) as [skin_mask | e] eqn:Hdet; simpl;
    [| discriminate].
  destruct (np_sum skin_mask =? 0) eqn:Hsum; simpl; [discriminate |].
  destruct (bool_index image skin_mask) as [skin_pixels | e] eqn:Hidx; simpl;
    [| discriminate].
  destruct (_get_dominant_colors skin_pixels 5) as [dominant | e] eqn:Hdom;
    simpl; [| discriminate].
  destruct (_get_color_harmony_info (np_mean_axis0 skin_pixels))
    as [harmony | e] eqn:Hh; simpl; [| discriminate].
  intro H. injection H as <-.
  exists skin_mask, skin_pixels, dominant, harmony.
  apply Z.eqb_neq in Hsum. repeat split; auto.
Qed.

(** X8.  Every analysis that [analyze_skin_tone] returns for a uint8 image
    (with a uint8 mask from the detection) is well formed: the category is
    one of the six names and is the category of the reported lightness, the
    undertone one of three names, the temperature one of five; the lightness
    lies in [0, 100] and the confidence in [0, 1]; the average colour has
    three channels in [0, 255]; the dominant colours are 8-bit triples; and
    the skin pixel count is the number of positive mask entries, at least
    one. *)
Theorem analysis_is_well_formed (image : Image) (a : Analysis) :
  analyze_skin_tone image = Ok a ->
  valid_image image ->
  (forall m, _detect_skin_regions image = Ok m -> valid_mask m) ->
  In (category a) category_names /\
  category a = _classify_skin_tone_category (lightness a) /\
  In (undertone a) undertone_names /\
  In (temperature a) temperature_names /\
  ((0 <= lightness a)%Q /\ (lightness a <= 100)%Q) /\
  ((0 <= confidence a)%Q /\ (confidence a <= 1)%Q) /\
  List.length (average_color a) = 3%nat /\
  Forall (fun c => (0 <= c)%Q /\ (c <= 255)%Q) (average_color a) /\
  Forall valid_pixel (dominant_colors a) /\
  (1 <= skin_pixel_count a)%nat /\
  (exists m, _detect_skin_regions image = Ok m /\
             Z.of_nat (skin_pixel_count a) = count_positive m).
Proof.
  intros Hok Hvi Hvm.
  destruct (analyze_ok_inv image a Hok)
    as [mask [pixels [dom [harm [Hdet [Hsum [Hidx [Hdom [Hh ->]]]]]]]]].
  simpl.
  pose proof (bool_index_length _ _ _ Hidx) as Hlen.
  assert (Hpos : (1 <= List.length pixels)%nat).
  { destruct (Z.eq_dec (count_positive mask) 0) as [E | N]; [| lia].
    exfalso. apply Hsum. apply np_sum_all_zero.
    exact (count_positive_zero_inv mask (Hvm mask Hdet) E). }
  assert (Hne : pixels <> []) by (intro E; subst; simpl in Hpos; lia).
  destruct (np_mean_axis0_bounds pixels Hne (bool_index_valid _ _ _ Hvi Hidx))
    as [r [g [b [Eavg [Hr [Hg Hb]]]]]].
  rewrite Eavg.
  split; [apply classify_in_names |].
  split; [reflexivity |].
  split; [apply undertone_in_names |].
  split; [apply temperature_in_names |].
  split; [exact (lightness_bounds r g b Hr Hg Hb) |].
  split; [apply confidence_in_unit |].
  split; [reflexivity |].
  split; [repeat constructor; tauto |].
  split; [exact (get_dominant_colors_valid _ _ _ Hdom) |].
  split; [exact Hpos |].
  exists mask. split; [exact Hdet | exact Hlen].
Qed.

End AnalysisInvariants.

Lemma analysis_is_well_formed_witness :
  exists a,
    analyze_skin_tone (cv := Cv2_double) (sk := SkLearn_double)
      (si := SkImage_double) skin_patch = Ok a /\
    valid_image skin_patch /\
    In (category a) category_names /\
    (1 <= skin_pixel_count a)%nat.
Proof.
  destruct (analyze_skin_tone (cv := Cv2_double) (sk := SkLearn_double)
              (si := SkImage_double) skin_patch) as [a | e] eqn:E;
    [| vm_compute in E; discriminate E].
  exists a.
  assert (Hvi : valid_image skin_patch)
    by (repeat constructor; vm_compute; discriminate).
  assert (Hvm : forall m,
             _detect_skin_regions (cv := Cv2_double) skin_patch = Ok m ->
             valid_mask m).
  { intros m Hm. vm_compute in Hm. injection Hm as <-.
    repeat constructor; vm_compute; discriminate. }
  split; [reflexivity |]. split; [exact Hvi |].
  destruct (analysis_is_well_formed (cv := Cv2_double) (sk := SkLearn_double)
              (si := SkImage_double) skin_patch a E Hvi Hvm)
    as [H1 [_ [_ [_ [_ [_ [_ [_ [_ [H2 _]]]]]]]]]].
  split; assumption.
Defined.

(* ================================================================== *)
(** * Further properties of the modifier *)

Lemma where_pointwise {A B : Type} (f : A -> B -> B) (mask : list (list A))
  (arr : list (list B)) :
  shape mask = shape arr ->
  exists out,
    zip2d ValueError f mask arr = Ok out /\
    shape out = shape arr /\
    forall i j v p,
      at2 mask i j = Some v -> at2 arr i j = Some p ->
      at2 out i j = Some (f v p).
Proof.
  intro Hs. unfold zip2d.
  destruct (zip2d_opt_some f mask arr Hs) as [out E].
  rewrite E. exists out. split; [reflexivity |].
  destruct (zip2d_opt_shape f _ _ _ E) as [_ Hb].
  split; [exact Hb |].
  intros i j v p Hv Hp. exact (zip2d_opt_at2 f _ _ _ i j v p E Hv Hp).
Qed.

Lemma astype_float32_at2 (a : Image) (i j : nat) (p : Pixel) :
  at2 a i j = Some p ->
  at2 (astype_float32 a) i j
  = Some (inject_Z (chan0 p), inject_Z (chan1 p), inject_Z (chan2 p)).
Proof.
  intro H. unfold astype_float32. exact (map2d_at2 _ a i j p H).
Qed.

Lemma astype_uint8_clip_100 (x : Q) :
  astype_uint8 (np_clip x 0 100) = Qfloor (np_clip x 0 100) /\
  0 <= Qfloor (np_clip x 0 100) <= 100.
Proof.
  assert (H : (0 <= np_clip x 0 100)%Q /\ (np_clip x 0 100 <= 100)%Q).
  { unfold np_clip.
    destruct (Qltb x 0) eqn:E0; [split; lra |]. apply Qltb_ge in E0.
    destruct (Qltb 100 x) eqn:E1; [split; lra |]. apply Qltb_ge in E1.
    split; assumption. }
  destruct H as [H0 H1]. split.
  - apply astype_uint8_inside; lra.
  - pose proof (Qfloor_resp_le _ _ H0) as L0.
    pose proof (Qfloor_resp_le _ _ H1) as L1.
    change (Qfloor 0) with 0 in L0.
    change (Qfloor 100) with 100 in L1. lia.
Qed.

(** Two arrays of the same shape with the same entries are equal. *)
Lemma at2_ext {A : Type} (a : list (list A)) :
  forall b, shape a = shape b ->
    (forall i j x, at2 a i j = Some x -> at2 b i j = Some x) -> a = b.
Proof.
  induction a as [| ra a IH]; intros [| rb b] Hs Hpt; simpl in Hs;
    try discriminate; [reflexivity |].
  injection Hs as Hr Hs. f_equal.
  - apply nth_error_ext. intro j.
    destruct (nth_error ra j) as [x |] eqn:E.
    + symmetry. exact (Hpt 0%nat j x E).
    + symmetry. apply nth_error_None. rewrite <- Hr.
      apply nth_error_None. exact E.
  - apply IH; [exact Hs |].
    intros i j x Hx. exact (Hpt (S i) j x Hx).
Qed.

Section Lightness_Saturation.
Context {cv : Cv2}.

Lemma scaled_lab_pointwise (skin_mask : Mask) (magnitude : Q)
  (lab8 : Image) :
  shape skin_mask = shape lab8 ->
  valid_image lab8 ->
  exists lab,
    scaled_lab skin_mask magnitude lab8 = Ok lab /\
    shape lab = shape lab8 /\
    forall i j p v,
      at2 lab8 i j = Some p -> at2 skin_mask i j = Some v ->
      at2 lab i j = Some (lightness_pixel magnitude v p).
Proof.
  intros Hshape Hvalid.
  unfold scaled_lab, where_chan0.
  assert (Hs0 : shape skin_mask = shape (astype_float32 lab8)).
  { unfold astype_float32. rewrite map2d_shape. exact Hshape. }
  match goal with
  | |- context [zip2d ValueError ?f skin_mask (astype_float32 lab8)] =>
      destruct (where_pointwise f skin_mask (astype_float32 lab8) Hs0)
        as [r1 [E1 [Hs1 Hpt]]]
  end.
  rewrite E1. unfold bind. eexists. split; [reflexivity |].
  split.
  { unfold astype_uint8_image. rewrite map2d_shape.
    etransitivity; [exact Hs1 |].
    unfold astype_float32. apply map2d_shape. }
  intros i j p v Hp Hv.
  unfold astype_uint8_image.
  rewrite (map2d_at2 astype_uint8_pixel r1 i j _
             (Hpt i j v _ Hv (astype_float32_at2 lab8 i j p Hp))).
  f_equal.
  destruct (valid_image_at2 _ _ _ _ Hvalid Hp) as [Hl [Ha Hb]].
  destruct p as [[l a] b].
  unfold chan0, chan1, chan2 in Hl, Ha, Hb. simpl in Hl, Ha, Hb.
  unfold lightness_pixel, scaling_factor, astype_uint8_pixel.
  destruct (0 <? v); unfold chan0, chan1, chan2; simpl fst; simpl snd.
  - rewrite (proj1 (astype_uint8_clip_100 _)).
    rewrite !astype_uint8_inject by assumption. reflexivity.
  - rewrite !astype_uint8_inject by assumption. reflexivity.
Qed.

(** X9.  For every magnitude in [-50, 50], when the mask does not sum to
    zero [adjust_lightness] hands to the conversion back to RGB a LAB array of
    the same shape in which, under the mask, L is the integer part of the
    float32 product of L and the factor 1 + magnitude/100 (computed in
    binary64, rounded to float32), clipped to [0, 100], hence at most 100
    on OpenCV's 0..255 scale; the a and b channels and the pixels outside
    the mask are as the forward conversion gave them. *)
Theorem adjust_lightness_pointwise (image : Image) (skin_mask : Mask)
  (lab8 : Image) (magnitude : Q) :
  _detect_skin_mask image = Ok skin_mask ->
  np_sum skin_mask <> 0 ->
  cvtColor image COLOR_RGB2LAB = Ok lab8 ->
  shape skin_mask = shape lab8 ->
  valid_image lab8 ->
  (-50 <= magnitude)%Q -> (magnitude <= 50)%Q ->
  exists lab,
    adjust_lightness image magnitude =
      try_except (cvtColor lab COLOR_LAB2RGB)
                 (reraise "Lightness adjustment failed: ") /\
    shape lab = shape lab8 /\
    forall i j p v,
      at2 lab8 i j = Some p -> at2 skin_mask i j = Some v ->
      at2 lab i j = Some (lightness_pixel magnitude v p) /\
      chan1 (lightness_pixel magnitude v p) = chan1 p /\
      chan2 (lightness_pixel magnitude v p) = chan2 p /\
      (v = 0 -> lightness_pixel magnitude v p = p) /\
      (0 < v -> 0 <= chan0 (lightness_pixel magnitude v p) <= 100).
Proof.
  intros Hdet Hsum Hlab Hshape Hvalid _ _.
  destruct (scaled_lab_pointwise skin_mask magnitude lab8 Hshape Hvalid)
    as [lab [Hscaled [Hs Hpt]]].
  exists lab. split; [| split; [exact Hs |]].
  - unfold adjust_lightness. rewrite Hdet.
    unfold bind at 1. cbv beta iota zeta.
    apply Z.eqb_neq in Hsum. rewrite Hsum, Hlab.
    unfold bind at 1. cbv beta iota. rewrite Hscaled. reflexivity.
  - intros i j p v Hp Hv. split; [exact (Hpt i j p v Hp Hv) |].
    unfold lightness_pixel.
    destruct (0 <? v) eqn:Ev; unfold chan0, chan1, chan2; simpl.
    + split; [reflexivity |]. split; [reflexivity |]. split.
      * intros ->. vm_compute in Ev. discriminate Ev.
      * intros _. apply astype_uint8_clip_100.
    + apply Z.ltb_ge in Ev.
      split; [reflexivity |]. split; [reflexivity |]. split.
      * reflexivity.
      * intro. lia.
Qed.

Lemma saturated_hsv_pointwise (skin_mask : Mask) (magnitude : Q)
  (hsv8 : Image) :
  shape skin_mask = shape hsv8 ->
  valid_image hsv8 ->
  exists hsv,
    where_chan1 skin_mask
      (fun s => np_clip (mul32 s (fl64 (1 + fl64 (magnitude / 100)))) 0 255)
      (astype_float32 hsv8) = Ok hsv /\
    shape (astype_uint8_image hsv) = shape hsv8 /\
    forall i j p v,
      at2 hsv8 i j = Some p -> at2 skin_mask i j = Some v ->
      at2 (astype_uint8_image hsv) i j
      = Some (saturation_pixel magnitude v p).
Proof.
  intros Hshape Hvalid. unfold where_chan1.
  assert (Hs0 : shape skin_mask = shape (astype_float32 hsv8)).
  { unfold astype_float32. rewrite map2d_shape. exact Hshape. }
  match goal with
  | |- context [zip2d ValueError ?f skin_mask (astype_float32 hsv8)] =>
      destruct (where_pointwise f skin_mask (astype_float32 hsv8) Hs0)
        as [r1 [E1 [Hs1 Hpt]]]
  end.
  exists r1. split; [exact E1 |]. split.
  { unfold astype_uint8_image. rewrite map2d_shape.
    etransitivity; [exact Hs1 |].
    unfold astype_float32. apply map2d_shape. }
  intros i j p v Hp Hv.
  unfold astype_uint8_image.
  rewrite (map2d_at2 astype_uint8_pixel r1 i j _
             (Hpt i j v _ Hv (astype_float32_at2 hsv8 i j p Hp))).
  f_equal.
  destruct (valid_image_at2 _ _ _ _ Hvalid Hp) as [Hh [Hsat Hval]].
  destruct p as [[h s] x].
  unfold chan0, chan1, chan2 in Hh, Hsat, Hval. simpl in Hh, Hsat, Hval.
  unfold saturation_pixel, scale_u8, scaling_factor, astype_uint8_pixel.
  destruct (0 <? v); unfold chan0, chan1, chan2; simpl fst; simpl snd.
  - rewrite astype_uint8_clip.
    rewrite !astype_uint8_inject by assumption. reflexivity.
  - rewrite !astype_uint8_inject by assumption. reflexivity.
Qed.

(** X10.  For every magnitude in [-50, 50], when the mask does not sum to
    zero [adjust_saturation] hands to
    the conversion back to RGB an HSV array of the same shape in which,
    under the mask, S is the integer part of the float32 product of S and
    the factor 1 + magnitude/100 (computed in binary64, rounded to
    float32), clamped to [0, 255], and H, V and the pixels outside the mask
    are as the forward conversion gave them.  With magnitude 0 that array
    is the forward conversion itself, so the result is the library's round
    trip RGB -> HSV -> RGB of the image. *)
Theorem adjust_saturation_pointwise (image : Image) (skin_mask : Mask)
  (hsv8 : Image) (magnitude : Q) :
  _detect_skin_mask image = Ok skin_mask ->
  np_sum skin_mask <> 0 ->
  cvtColor image COLOR_RGB2HSV = Ok hsv8 ->
  shape skin_mask = shape hsv8 ->
  valid_image hsv8 ->
  (-50 <= magnitude)%Q -> (magnitude <= 50)%Q ->
  (exists hsv,
      adjust_saturation image magnitude =
        try_except (cvtColor hsv COLOR_HSV2RGB)
                   (reraise "Saturation adjustment failed: ") /\
      shape hsv = shape hsv8 /\
      forall i j p v,
        at2 hsv8 i j = Some p -> at2 skin_mask i j = Some v ->
        at2 hsv i j = Some (saturation_pixel magnitude v p) /\
        chan0 (saturation_pixel magnitude v p) = chan0 p /\
        chan2 (saturation_pixel magnitude v p) = chan2 p /\
        (v = 0 -> saturation_pixel magnitude v p = p)) /\
  ((magnitude == 0)%Q ->
   adjust_saturation image magnitude =
     try_except (cvtColor hsv8 COLOR_HSV2RGB)
                (reraise "Saturation adjustment failed: ")).
Proof.
  intros Hdet Hsum Hhsv Hshape Hvalid _ _.
  destruct (saturated_hsv_pointwise skin_mask magnitude hsv8 Hshape Hvalid)
    as [hsv [Hwhere [Hs Hpt]]].
  assert (Hrun : adjust_saturation image magnitude =
                 try_except (cvtColor (astype_uint8_image hsv) COLOR_HSV2RGB)
                            (reraise "Saturation adjustment failed: ")).
  { unfold adjust_saturation. rewrite Hdet.
    unfold bind at 1. cbv beta iota zeta.
    apply Z.eqb_neq in Hsum. rewrite Hsum, Hhsv.
    unfold bind at 1. cbv beta iota. rewrite Hwhere. reflexivity. }
  split.
  - exists (astype_uint8_image hsv).
    split; [exact Hrun |]. split; [exact Hs |].
    intros i j p v Hp Hv. split; [exact (Hpt i j p v Hp Hv) |].
    unfold saturation_pixel.
    destruct (0 <? v) eqn:Ev; unfold chan0, chan1, chan2; simpl.
    + split; [reflexivity |]. split; [reflexivity |].
      intros ->. vm_compute in Ev. discriminate Ev.
    + split; [reflexivity |]. split; reflexivity.
  - intro Hzero. rewrite Hrun.
    assert (E : astype_uint8_image hsv = hsv8).
    { apply at2_ext; [exact Hs |].
      intros i j x Hx.
      destruct (at2_shape hsv8 _ i j x (eq_sym Hs) Hx) as [p Hp].
      assert (Hsm : shape skin_mask = shape (astype_uint8_image hsv))
        by congruence.
      destruct (at2_shape skin_mask _ i j x Hsm Hx) as [v Hv].
      rewrite (Hpt i j p v Hp Hv) in Hx. injection Hx as <-.
      rewrite Hp. f_equal.
      destruct (valid_image_at2 _ _ _ _ Hvalid Hp) as [_ [Hsat _]].
      destruct p as [[h s] x].
      unfold saturation_pixel, chan0, chan1, chan2 in *. simpl in *.
      destruct (0 <? v); [| reflexivity].
      rewrite (scaling_factor_zero magnitude Hzero).
      rewrite (proj1 (scale_u8_one s Hsat)). reflexivity. }
    rewrite E. reflexivity.
Qed.

End Lightness_Saturation.

Lemma adjust_lightness_pointwise_witness :
  _detect_skin_mask (cv := Cv2_double) skin_patch
    = Ok (repeat (repeat 255 4) 4) /\
  np_sum (repeat (repeat 255 4) 4) <> 0 /\
  cvtColor (Cv2 := Cv2_double) skin_patch COLOR_RGB2LAB
    = Ok (repeat (repeat (162, 155, 105) 4) 4) /\
  exists lab,
    adjust_lightness (cv := Cv2_double) skin_patch 15 =
      try_except (cvtColor (Cv2 := Cv2_double) lab COLOR_LAB2RGB)
                 (reraise "Lightness adjustment failed: ") /\
    shape lab = shape (repeat (repeat (162, 155, 105) 4) 4).
Proof.
  assert (Hd : _detect_skin_mask (cv := Cv2_double) skin_patch
               = Ok (repeat (repeat 255 4) 4)) by reflexivity.
  assert (Hs : np_sum (repeat (repeat 255 4) 4) <> 0)
    by (vm_compute; discriminate).
  assert (Hl : cvtColor (Cv2 := Cv2_double) skin_patch COLOR_RGB2LAB
               = Ok (repeat (repeat (162, 155, 105) 4) 4)) by reflexivity.
  repeat (split; [assumption |]).
  destruct (adjust_lightness_pointwise (cv := Cv2_double) skin_patch _ _ 15
              Hd Hs Hl eq_refl) as [lab [H1 [H2 _]]].
  - repeat constructor; vm_compute; discriminate.
  - lra.
  - lra.
  - exists lab. split; assumption.
Defined.

Lemma adjust_saturation_pointwise_witness :
  _detect_skin_mask (cv := Cv2_double) skin_patch
    = Ok (repeat (repeat 255 4) 4) /\
  np_sum (repeat (repeat 255 4) 4) <> 0 /\
  cvtColor (Cv2 := Cv2_double) skin_patch COLOR_RGB2HSV
    = Ok (repeat (repeat (11, 102, 200) 4) 4) /\
  (0 == 0)%Q /\
  adjust_saturation (cv := Cv2_double) skin_patch 0 =
    try_except (cvtColor (Cv2 := Cv2_double)
                  (repeat (repeat (11, 102, 200) 4) 4) COLOR_HSV2RGB)
               (reraise "Saturation adjustment failed: ").
Proof.
  assert (Hd : _detect_skin_mask (cv := Cv2_double) skin_patch
               = Ok (repeat (repeat 255 4) 4)) by reflexivity.
  assert (Hs : np_sum (repeat (repeat 255 4) 4) <> 0)
    by (vm_compute; discriminate).
  assert (Hh : cvtColor (Cv2 := Cv2_double) skin_patch COLOR_RGB2HSV
               = Ok (repeat (repeat (11, 102, 200) 4) 4)) by reflexivity.
  assert (Hz : (0 == 0)%Q) by reflexivity.
  repeat (split; [assumption |]).
  refine (proj2 (adjust_saturation_pointwise (cv := Cv2_double) skin_patch
                   _ _ 0 Hd Hs Hh eq_refl _ _ _) Hz).
  - repeat constructor; vm_compute; discriminate.
  - lra.
  - lra.
Defined.

(** ** Failures of the adjustments *)

Section AdjustFailures.
Context {cv : Cv2}.

Lemma detect_skin_mask_conversion_fails (image : Image) (c : exn) :
  cvtColor image COLOR_RGB2HSV = Raise c ->
  _detect_skin_mask image
  = Raise (Exn ValueError ("Skin mask detection failed: " ++ str c)).
Proof.
  intro H. unfold _detect_skin_mask. rewrite H. reflexivity.
Qed.

(** X11.  Every exception that an adjustment raises is a ValueError whose
    message starts with the prefix of that adjustment ("Lightness adjustment
    failed: ", "Warmth adjustment failed: " or "Saturation adjustment
    failed: ").  When the conversion to HSV inside the detection raises with
    cause c, the message is the prefix, then "Skin mask detection failed: ",
    then the text of c. *)
Theorem adjust_failures_are_wrapped (kind : AdjustmentKind) (image : Image)
  (magnitude : Q) :
  (forall e, adjust kind image magnitude = Raise e ->
     exn_class e = ValueError /\
     exists cause, exn_msg e = adjust_prefix kind ++ cause) /\
  (forall c, cvtColor image COLOR_RGB2HSV = Raise c ->
     adjust kind image magnitude =
       Raise (Exn ValueError
                (adjust_prefix kind ++ "Skin mask detection failed: "
                 ++ str c))).
Proof.
  split.
  - intros e.
    destruct kind; simpl;
      unfold adjust_lightness, adjust_warmth, adjust_saturation, try_except,
        reraise;
      match goal with
      | |- context [match ?b with _ => _ end] => destruct b
      end;
      intro H; try discriminate H; injection H as <-;
      (split; [reflexivity | eexists; reflexivity]).
  - intros c Hc.
    pose proof (detect_skin_mask_conversion_fails image c Hc) as Hd.
    destruct kind; simpl;
      unfold adjust_lightness, adjust_warmth, adjust_saturation;
      rewrite Hd; reflexivity.
Qed.

End AdjustFailures.

Lemma adjust_failures_are_wrapped_witness :
  cvtColor (Cv2 := Cv2_double) no_pixels COLOR_RGB2HSV
    = Raise (Exn LibraryError "(-215:Assertion failed) !_src.empty()") /\
  adjust (cv := Cv2_double) Warmth no_pixels 10 =
    Raise (Exn ValueError
             ("Warmth adjustment failed: Skin mask detection failed: "
              ++ "(-215:Assertion failed) !_src.empty()")).
Proof.
  assert (H : cvtColor (Cv2 := Cv2_double) no_pixels COLOR_RGB2HSV
              = Raise (Exn LibraryError
                         "(-215:Assertion failed) !_src.empty()"))
    by reflexivity.
  split; [exact H |].
  exact (proj2 (adjust_failures_are_wrapped (cv := Cv2_double) Warmth
                  no_pixels 10) _ H).
Defined.

(** ** Named tones *)

Section NamedTones.
Context {cv : Cv2}.

Lemma bind_ok_id {A : Type} (c : result A) : (x <- c ;; Ok x) = c.
Proof. destruct c; reflexivity. Qed.

(** X12.  [change_skin_tone] applies the preset of the tone in the order
    lightness, warmth, saturation and skips the adjustments whose preset is
    0: "lighter" is lightness +15 then saturation -5; "darker" is lightness
    -15, warmth +5, saturation +5; "warmer" is warmth +20 then saturation
    +10; "cooler" is warmth -20 then saturation -5.  Each adjustment works on
    the result of the one before, and a failure is wrapped once more with
    "Skin tone change failed: ". *)
Theorem change_skin_tone_presets (image : Image) :
  change_skin_tone image "lighter" =
    try_except (r <- adjust_lightness image 15 ;; adjust_saturation r (-5))
               (reraise "Skin tone change failed: ") /\
  change_skin_tone image "darker" =
    try_except (r <- adjust_lightness image (-15) ;;
                r <- adjust_warmth r 5 ;;
                adjust_saturation r 5)
               (reraise "Skin tone change failed: ") /\
  change_skin_tone image "warmer" =
    try_except (r <- adjust_warmth image 20 ;; adjust_saturation r 10)
               (reraise "Skin tone change failed: ") /\
  change_skin_tone image "cooler" =
    try_except (r <- adjust_warmth image (-20) ;; adjust_saturation r (-5))
               (reraise "Skin tone change failed: ").
Proof.
  unfold change_skin_tone. simpl.
  repeat split.
  - destruct (adjust_lightness image 15) as [r |]; simpl; [| reflexivity].
    rewrite bind_ok_id. reflexivity.
  - destruct (adjust_lightness image (-15)) as [r |]; simpl; [| reflexivity].
    destruct (adjust_warmth r 5) as [r' |]; simpl; [| reflexivity].
    rewrite bind_ok_id. reflexivity.
  - destruct (adjust_warmth image 20) as [r |]; simpl; [| reflexivity].
    rewrite bind_ok_id. reflexivity.
  - destruct (adjust_warmth image (-20)) as [r |]; simpl; [| reflexivity].
    rewrite bind_ok_id. reflexivity.
Qed.

Lemma lookup_preset_unknown (target_tone : string) :
  ~ In target_tone ["lighter"; "darker"; "warmer"; "cooler"] ->
  lookup_preset adjustments target_tone = None.
Proof.
  intro H. unfold adjustments. simpl.
  destruct (String.eqb target_tone "lighter") eqn:E1;
    [apply String.eqb_eq in E1; exfalso; apply H; simpl; auto |].
  destruct (String.eqb target_tone "darker") eqn:E2;
    [apply String.eqb_eq in E2; exfalso; apply H; simpl; auto |].
  destruct (String.eqb target_tone "warmer") eqn:E3;
    [apply String.eqb_eq in E3; exfalso; apply H; simpl; auto |].
  destruct (String.eqb target_tone "cooler") eqn:E4;
    [apply String.eqb_eq in E4; exfalso; apply H; simpl; auto 6 |].
  reflexivity.
Qed.

(** X13.  For a tone name other than "lighter", "darker", "warmer" and
    "cooler", [change_skin_tone] raises a ValueError with the message "Skin
    tone change failed: Unknown target tone: <name>", whatever the image;
    the name is compared as it is (case-sensitive). *)
Theorem change_skin_tone_unknown (image : Image) (target_tone : string) :
  ~ In target_tone ["lighter"; "darker"; "warmer"; "cooler"] ->
  change_skin_tone image target_tone =
    Raise (Exn ValueError
             ("Skin tone change failed: Unknown target tone: "
              ++ target_tone)).
Proof.
  intro H. unfold change_skin_tone.
  rewrite (lookup_preset_unknown target_tone H). reflexivity.
Qed.

Lemma adjust_no_skin (image : Image) (skin_mask : Mask) (magnitude : Q) :
  _detect_skin_mask image = Ok skin_mask -> all_zero skin_mask ->
  adjust_lightness image magnitude = Ok image /\
  adjust_warmth image magnitude = Ok image /\
  adjust_saturation image magnitude = Ok image.
Proof.
  intros Hdet Hz.
  pose proof (np_sum_all_zero skin_mask Hz) as Hsum.
  apply Z.eqb_eq in Hsum.
  unfold adjust_lightness, adjust_warmth, adjust_saturation.
  rewrite Hdet. simpl. rewrite Hsum. repeat split.
Qed.

(** X14.  On an image whose detected skin mask is entirely zero, each of
    the four named tones returns the image unchanged. *)
Theorem change_skin_tone_without_skin (image : Image) (skin_mask : Mask)
  (target_tone : string) :
  _detect_skin_mask image = Ok skin_mask ->
  all_zero skin_mask ->
  In target_tone ["lighter"; "darker"; "warmer"; "cooler"] ->
  change_skin_tone image target_tone = Ok image.
Proof.
  intros Hdet Hz Hin.
  assert (HL : forall m, adjust_lightness image m = Ok image)
    by (intro m; exact (proj1 (adjust_no_skin image skin_mask m Hdet Hz))).
  assert (HW : forall m, adjust_warmth image m = Ok image)
    by (intro m;
        exact (proj1 (proj2 (adjust_no_skin image skin_mask m Hdet Hz)))).
  assert (HS : forall m, adjust_saturation image m = Ok image)
    by (intro m;
        exact (proj2 (proj2 (adjust_no_skin image skin_mask m Hdet Hz)))).
  simpl in Hin.
  destruct Hin as [<- | [<- | [<- | [<- | []]]]];
    unfold change_skin_tone; simpl;
    repeat first [rewrite HL | rewrite HW | rewrite HS]; simpl;
    repeat first [rewrite HL | rewrite HW | rewrite HS]; simpl;
    repeat first [rewrite HL | rewrite HW | rewrite HS]; reflexivity.
Qed.

End NamedTones.

Lemma change_skin_tone_unknown_witness :
  ~ In "Warmer" ["lighter"; "darker"; "warmer"; "cooler"] /\
  change_skin_tone (cv := Cv2_double) skin_patch "Warmer" =
    Raise (Exn ValueError
             "Skin tone change failed: Unknown target tone: Warmer").
Proof.
  assert (H : ~ In "Warmer" ["lighter"; "darker"; "warmer"; "cooler"]).
  { simpl. intros [E | [E | [E | [E | []]]]]; discriminate E. }
  split; [exact H |].
  exact (change_skin_tone_unknown (cv := Cv2_double) skin_patch "Warmer" H).
Defined.

Lemma change_skin_tone_without_skin_witness :
  _detect_skin_mask (cv := Cv2_double) black_patch
    = Ok (repeat (repeat 0 4) 4) /\
  all_zero (repeat (repeat 0 4) 4) /\
  In "darker" ["lighter"; "darker"; "warmer"; "cooler"] /\
  change_skin_tone (cv := Cv2_double) black_patch "darker" = Ok black_patch.
Proof.
  assert (Hd : _detect_skin_mask (cv := Cv2_double) black_patch
               = Ok (repeat (repeat 0 4) 4)) by reflexivity.
  assert (Hz : all_zero (repeat (repeat 0 4) 4)) by (repeat constructor).
  assert (Hin : In "darker" ["lighter"; "darker"; "warmer"; "cooler"])
    by (simpl; auto).
  repeat (split; [assumption |]).
  exact (change_skin_tone_without_skin (cv := Cv2_double) black_patch _
           "darker" Hd Hz Hin).
Defined.

(** ** Blending *)

Lemma fl32_zero (x : Q) : (x == 0)%Q -> fl32 x = 0%Q.
Proof.
  intro H. exact (round_Q_zero 24 128 x H).
Qed.

(** With weight 0 the mix is the first channel, with weight 1 the second:
    the products and the sum are exact there. *)
Lemma mix_zero (p : Z) (a : Q) :
  valid_u8 p -> astype_uint8 (mix 0 (inject_Z p) a) = p.
Proof.
  intro H. unfold mix.
  rewrite (fl32_zero (a * 0)) by ring.
  apply Z.eqb_eq.
  apply (forall_u8
           (fun p => astype_uint8
                       (fl32 (fl32 (inject_Z p * fl32 (1 - 0)) + 0)) =? p));
    [vm_compute; reflexivity | exact H].
Qed.

Lemma fl32_one_minus_one : fl32 (1 - fl32 1) = 0%Q.
Proof. vm_compute. reflexivity. Qed.

Lemma mix_one (p : Q) (a : Z) :
  valid_u8 a -> astype_uint8 (mix (fl32 1) p (inject_Z a)) = a.
Proof.
  intro H. unfold mix.
  rewrite fl32_one_minus_one.
  rewrite (fl32_zero (p * 0)) by ring.
  apply Z.eqb_eq.
  apply (forall_u8
           (fun a => astype_uint8
                       (fl32 (0 + fl32 (inject_Z a * fl32 1))) =? a));
    [vm_compute; reflexivity | exact H].
Qed.

Lemma blend_pixel_endpoints (f : Q) (p a : Pixel) :
  valid_pixel (blend_pixel f p a) /\
  (valid_pixel p -> f = 0%Q -> blend_pixel f p a = p) /\
  (valid_pixel a -> f = fl32 1 -> blend_pixel f p a = a).
Proof.
  destruct p as [[p0 p1] p2], a as [[a0 a1] a2].
  unfold blend_pixel, astype_uint8_pixel, valid_pixel, chan0, chan1, chan2.
  simpl fst. simpl snd.
  split; [repeat split; apply astype_uint8_range |].
  split.
  - intros [V0 [V1 V2]] ->.
    rewrite (mix_zero p0 _ V0), (mix_zero p1 _ V1), (mix_zero p2 _ V2).
    reflexivity.
  - intros [V0 [V1 V2]] ->.
    rewrite (mix_one _ a0 V0), (mix_one _ a1 V1), (mix_one _ a2 V2).
    reflexivity.
Qed.

Lemma blend_pointwise (image other : Image) (alpha : list (list Q)) :
  shape image = shape other ->
  shape image = shape alpha ->
  exists out,
    blend image other alpha = Ok out /\
    shape out = shape image /\
    forall i j p a f,
      at2 image i j = Some p -> at2 other i j = Some a ->
      at2 alpha i j = Some f ->
      at2 out i j = Some (blend_pixel f p a).
Proof.
  intros Hso Hsa. unfold blend.
  assert (H1 : shape (astype_float32 image) = shape (astype_float32 other)).
  { unfold astype_float32. rewrite !map2d_shape. exact Hso. }
  destruct (zip2d_opt_some (fun (p a : FPixel) => (p, a))
              (astype_float32 image) (astype_float32 other) H1)
    as [pairs Ep].
  destruct (zip2d_opt_shape _ _ _ _ Ep) as [Hp1 _].
  assert (H2 : shape pairs = shape alpha).
  { rewrite Hp1. unfold astype_float32. rewrite map2d_shape. exact Hsa. }
  match goal with
  | |- context [zip2d ValueError ?g _ alpha] =>
      destruct (zip2d_opt_some g pairs alpha H2) as [mixed Em];
      pose proof (zip2d_opt_shape g _ _ _ Em) as [Hm1 _];
      pose proof (fun i j x y Hx Hy =>
                    zip2d_opt_at2 g pairs alpha mixed i j x y Em Hx Hy)
        as Hptm
  end.
  unfold zip2d. rewrite Ep. unfold bind at 1. cbv beta iota.
  rewrite Em. unfold bind. cbv beta iota.
  eexists. split; [reflexivity |]. split.
  { unfold astype_uint8_image. rewrite map2d_shape.
    etransitivity; [exact Hm1 |]. etransitivity; [exact Hp1 |].
    unfold astype_float32. apply map2d_shape. }
  intros i j p a f Hp Ha Hf.
  pose proof (zip2d_opt_at2 _ _ _ _ i j _ _ Ep
                (astype_float32_at2 image i j p Hp)
                (astype_float32_at2 other i j a Ha)) as Hpair.
  pose proof (Hptm i j _ _ Hpair Hf) as Hmix.
  unfold astype_uint8_image.
  rewrite (map2d_at2 astype_uint8_pixel mixed i j _ Hmix).
  reflexivity.
Qed.

(** X15.  [blend] of two uint8 images of the same shape, with an array of
    weights in [0, 1] of that shape, returns an image of that shape: each
    pixel is the float32 mix of the two pixels, cast to 8 bits; it is the
    first image's pixel where the weight is 0 and the second image's pixel
    where the weight is 1. *)
Theorem blend_endpoints (image other : Image) (alpha : list (list Q)) :
  shape image = shape other ->
  shape image = shape alpha ->
  valid_image image -> valid_image other ->
  Forall (Forall (fun f => (0 <= f)%Q /\ (f <= 1)%Q)) alpha ->
  exists out,
    blend image other alpha = Ok out /\
    shape out = shape image /\
    forall i j p a f,
      at2 image i j = Some p -> at2 other i j = Some a ->
      at2 alpha i j = Some f ->
      at2 out i j = Some (blend_pixel f p a) /\
      valid_pixel (blend_pixel f p a) /\
      (f = 0%Q -> blend_pixel f p a = p) /\
      (f = fl32 1 -> blend_pixel f p a = a).
Proof.
  intros Hso Hsa Hvi Hvo _.
  destruct (blend_pointwise image other alpha Hso Hsa)
    as [out [E [Hs Hpt]]].
  exists out. split; [exact E |]. split; [exact Hs |].
  intros i j p a f Hp Ha Hf.
  split; [exact (Hpt i j p a f Hp Ha Hf) |].
  destruct (blend_pixel_endpoints f p a) as [V [Z O]].
  split; [exact V |]. split.
  - exact (Z (valid_image_at2 _ _ _ _ Hvi Hp)).
  - exact (O (valid_image_at2 _ _ _ _ Hvo Ha)).
Qed.

Lemma blend_endpoints_witness :
  shape mixed_row = shape [[(230, 150, 108); (0, 0, 0)]] /\
  shape mixed_row = shape [[fl32 1; 0%Q]] /\
  exists out,
    blend mixed_row [[(230, 150, 108); (0, 0, 0)]] [[fl32 1; 0%Q]] = Ok out /\
    shape out = shape mixed_row /\
    at2 out 0 0 = Some (230, 150, 108) /\
    at2 out 0 1 = Some (0, 0, 0).
Proof.
  assert (H1 : shape mixed_row = shape [[(230, 150, 108); (0, 0, 0)]])
    by reflexivity.
  assert (H2 : shape mixed_row = shape [[fl32 1; 0%Q]]) by reflexivity.
  split; [exact H1 |]. split; [exact H2 |].
  destruct (blend_endpoints mixed_row [[(230, 150, 108); (0, 0, 0)]]
              [[fl32 1; 0%Q]] H1 H2) as [out [E [Hs Hpt]]].
  - unfold valid_image, mixed_row, skin_colour.
    repeat constructor; vm_compute; discriminate.
  - repeat constructor; vm_compute; discriminate.
  - repeat constructor; vm_compute; discriminate.
  - exists out. split; [exact E |]. split; [exact Hs |].
    destruct (Hpt 0%nat 0%nat (200, 150, 120) (230, 150, 108) (fl32 1)
                eq_refl eq_refl eq_refl) as [A [_ [_ A1]]].
    destruct (Hpt 0%nat 1%nat (0, 0, 0) (0, 0, 0) 0%Q
                eq_refl eq_refl eq_refl) as [B [_ [B0 _]]].
    rewrite (A1 eq_refl) in A. rewrite (B0 eq_refl) in B.
    split; assumption.
Defined.

(** ** Feathered adjustment *)

Lemma feather_weight_ends :
  feather_weight 0 = 0%Q /\ feather_weight 255 = fl32 1.
Proof. split; vm_compute; reflexivity. Qed.

Section Gradual.
Context {cv : Cv2}.

Lemma gradual_dispatch (image : Image) (name : string) (intensity : Q)
  (feather_radius : nat) (skin_mask feathered : Mask) :
  _detect_skin_mask image = Ok skin_mask ->
  np_sum skin_mask <> 0 ->
  GaussianBlur skin_mask ((feather_radius * 2 + 1)%nat,
                          (feather_radius * 2 + 1)%nat) = Ok feathered ->
  apply_gradual_adjustment image name intensity feather_radius =
    match kind_of_name name with
    | Some kind =>
        try_except
          (adjusted <- adjust kind image intensity ;;
           blend image adjusted (map2d feather_weight feathered))
          (reraise "Gradual adjustment failed: ")
    | None => Ok image
    end.
Proof.
  intros Hdet Hsum Hblur.
  unfold apply_gradual_adjustment, kind_of_name. rewrite Hdet.
  unfold bind at 1. cbv beta iota zeta.
  apply Z.eqb_neq in Hsum. rewrite Hsum, Hblur.
  unfold bind at 1. cbv beta iota.
  destruct (String.eqb name "lightness"); [reflexivity |].
  destruct (String.eqb name "warmth"); [reflexivity |].
  destruct (String.eqb name "saturation"); reflexivity.
Qed.

(** X16.  [apply_gradual_adjustment] returns the image unchanged when the
    detected mask is entirely zero, and also, once the feathering blur has
    succeeded, when the adjustment type is none of "lightness", "warmth",
    "saturation": an unknown type is not an error.  A failure of the
    feathering blur is raised as "Gradual adjustment failed: <cause>", for
    unknown types too, since the blur comes before the type is looked
    at. *)
Theorem gradual_adjustment_edges (image : Image) (name : string)
  (intensity : Q) (feather_radius : nat) (skin_mask : Mask) :
  _detect_skin_mask image = Ok skin_mask ->
  (all_zero skin_mask ->
   apply_gradual_adjustment image name intensity feather_radius = Ok image) /\
  (np_sum skin_mask <> 0 ->
   (forall feathered,
       GaussianBlur skin_mask ((feather_radius * 2 + 1)%nat,
                               (feather_radius * 2 + 1)%nat) = Ok feathered ->
       kind_of_name name = None ->
       apply_gradual_adjustment image name intensity feather_radius
       = Ok image) /\
   (forall e,
       GaussianBlur skin_mask ((feather_radius * 2 + 1)%nat,
                               (feather_radius * 2 + 1)%nat) = Raise e ->
       apply_gradual_adjustment image name intensity feather_radius
       = Raise (Exn ValueError ("Gradual adjustment failed: " ++ str e)))).
Proof.
  intro Hdet. split; [| intro Hsum; split].
  - intro Hz. pose proof (np_sum_all_zero skin_mask Hz) as Hsum.
    apply Z.eqb_eq in Hsum.
    unfold apply_gradual_adjustment. rewrite Hdet. simpl. rewrite Hsum.
    reflexivity.
  - intros feathered Hblur Hnone.
    rewrite (gradual_dispatch image name intensity feather_radius skin_mask
               feathered Hdet Hsum Hblur), Hnone.
    reflexivity.
  - intros e Hblur.
    unfold apply_gradual_adjustment. rewrite Hdet.
    unfold bind at 1. cbv beta iota zeta.
    apply Z.eqb_neq in Hsum. rewrite Hsum, Hblur. reflexivity.
Qed.

(** X17.  For a known adjustment type, [apply_gradual_adjustment] blends
    the image with the result of that adjustment, weighted by the blurred
    mask over 255 in float32.  When the adjusted image and the blurred mask
    have the shape of the image, the result has that shape and each of its
    pixels is the float32 mix of the original and the adjusted pixel, cast
    to 8 bits: the original pixel where the blurred mask is 0 and the
    adjusted pixel where it is 255. *)
Theorem gradual_adjustment_blends (image adjusted : Image) (name : string)
  (kind : AdjustmentKind) (intensity : Q) (feather_radius : nat)
  (skin_mask feathered : Mask) :
  _detect_skin_mask image = Ok skin_mask ->
  np_sum skin_mask <> 0 ->
  GaussianBlur skin_mask ((feather_radius * 2 + 1)%nat,
                          (feather_radius * 2 + 1)%nat) = Ok feathered ->
  kind_of_name name = Some kind ->
  adjust kind image intensity = Ok adjusted ->
  shape image = shape adjusted ->
  shape image = shape feathered ->
  valid_image image -> valid_image adjusted -> valid_mask feathered ->
  exists out,
    apply_gradual_adjustment image name intensity feather_radius = Ok out /\
    shape out = shape image /\
    forall i j p a v,
      at2 image i j = Some p -> at2 adjusted i j = Some a ->
      at2 feathered i j = Some v ->
      at2 out i j = Some (blend_pixel (feather_weight v) p a) /\
      valid_pixel (blend_pixel (feather_weight v) p a) /\
      (v = 0 -> blend_pixel (feather_weight v) p a = p) /\
      (v = 255 -> blend_pixel (feather_weight v) p a = a).
Proof.
  intros Hdet Hsum Hblur Hkind Hadj Hsa Hsf Hvi Hva _.
  set (alpha := map2d feather_weight feathered).
  assert (Hsalpha : shape image = shape alpha)
    by (unfold alpha; rewrite map2d_shape; exact Hsf).
  destruct (blend_pointwise image adjusted alpha Hsa Hsalpha)
    as [out [E [Hs Hpt]]].
  exists out. split; [| split; [exact Hs |]].
  - rewrite (gradual_dispatch image name intensity feather_radius skin_mask
               feathered Hdet Hsum Hblur), Hkind, Hadj.
    unfold bind. fold alpha. rewrite E. reflexivity.
  - intros i j p a v Hp Ha Hv.
    assert (Hf : at2 alpha i j = Some (feather_weight v))
      by (unfold alpha; exact (map2d_at2 _ feathered i j v Hv)).
    split; [exact (Hpt i j p a _ Hp Ha Hf) |].
    destruct (blend_pixel_endpoints (feather_weight v) p a) as [V [Z O]].
    destruct feather_weight_ends as [W0 W1].
    split; [exact V |]. split; intros ->.
    + exact (Z (valid_image_at2 _ _ _ _ Hvi Hp) W0).
    + exact (O (valid_image_at2 _ _ _ _ Hva Ha) W1).
Qed.

End Gradual.

Lemma gradual_adjustment_edges_witness :
  _detect_skin_mask (cv := Cv2_double) mixed_row = Ok [[255; 0]] /\
  np_sum [[255; 0]] <> 0 /\
  kind_of_name "hue" = None /\
  apply_gradual_adjustment (cv := Cv2_double) mixed_row "hue" 30 10
    = Ok mixed_row.
Proof.
  assert (Hd : _detect_skin_mask (cv := Cv2_double) mixed_row
               = Ok [[255; 0]]) by reflexivity.
  assert (Hs : np_sum [[255; 0]] <> 0) by (vm_compute; discriminate).
  assert (Hk : kind_of_name "hue" = None) by reflexivity.
  repeat (split; [assumption |]).
  exact (proj1 (proj2 (gradual_adjustment_edges (cv := Cv2_double)
                         mixed_row "hue" 30 10 _ Hd) Hs)
               [[255; 0]] eq_refl Hk).
Defined.

Lemma gradual_adjustment_blends_witness :
  _detect_skin_mask (cv := Cv2_double) skin_patch
    = Ok (repeat (repeat 255 4) 4) /\
  np_sum (repeat (repeat 255 4) 4) <> 0 /\
  kind_of_name "warmth" = Some Warmth /\
  adjust (cv := Cv2_double) Warmth skin_patch 20
    = Ok (repeat (repeat (211, 150, 115) 4) 4) /\
  exists out,
    apply_gradual_adjustment (cv := Cv2_double) skin_patch "warmth" 20 10
      = Ok out /\
    shape out = shape skin_patch /\
    at2 out 0 0 = Some (211, 150, 115).
Proof.
  assert (Hd : _detect_skin_mask (cv := Cv2_double) skin_patch
               = Ok (repeat (repeat 255 4) 4)) by reflexivity.
  assert (Hs : np_sum (repeat (repeat 255 4) 4) <> 0)
    by (vm_compute; discriminate).
  assert (Hk : kind_of_name "warmth" = Some Warmth) by reflexivity.
  assert (Ha : adjust (cv := Cv2_double) Warmth skin_patch 20
               = Ok (repeat (repeat (211, 150, 115) 4) 4))
    by (vm_compute; reflexivity).
  repeat (split; [assumption |]).
  destruct (gradual_adjustment_blends (cv := Cv2_double) skin_patch _
              "warmth" Warmth 20 10 _ (repeat (repeat 255 4) 4)
              Hd Hs eq_refl Hk Ha eq_refl eq_refl)
    as [out [E [Hsh Hpt]]].
  - unfold valid_image, skin_patch, skin_colour.
    repeat constructor; vm_compute; discriminate.
  - repeat constructor; vm_compute; discriminate.
  - repeat constructor; unfold valid_u8; lia.
  - exists out. split; [exact E |]. split; [exact Hsh |].
    destruct (Hpt 0%nat 0%nat (200, 150, 120) (211, 150, 115) 255
                eq_refl eq_refl eq_refl) as [A [_ [_ A1]]].
    rewrite (A1 eq_refl) in A. exact A.
Defined.

(** ** Texture smoothing *)

Lemma texture_weight_zero (smoothing : Q) (v : Z) :
  v = 0 \/ (smoothing == 0)%Q -> texture_weight smoothing v = 0%Q.
Proof.
  intros [-> | H]; unfold texture_weight; apply fl32_zero.
  - rewrite (fl64_zero (inject_Z 0 / 255)) by reflexivity.
    rewrite fl64_zero; [reflexivity | ring].
  - rewrite fl64_zero; [reflexivity |]. rewrite H. ring.
Qed.

Section Texture.
Context {cv : Cv2} {cvf : Cv2Filter}.

(** X18.  [enhance_skin_texture] returns the image unchanged when the
    detected mask is entirely zero.  Otherwise, for a smoothing intensity
    in [0, 1] and a filtered image and a uint8 mask of the shape of the
    image, it returns an image of that shape in
    which each pixel is the float32 mix of the original and the filtered
    pixel, weighted by the mask over 255 times the intensity and cast to 8
    bits; the pixels where the mask is 0 are the original ones, and with
    intensity 0 the result is the image itself. *)
Theorem enhance_skin_texture_blends (image : Image) (smoothing : Q)
  (skin_mask : Mask) :
  _detect_skin_mask image = Ok skin_mask ->
  (all_zero skin_mask -> enhance_skin_texture image smoothing = Ok image) /\
  (forall smoothed,
      np_sum skin_mask <> 0 ->
      bilateralFilter image = Ok smoothed ->
      shape image = shape smoothed ->
      shape image = shape skin_mask ->
      valid_image image -> valid_image smoothed -> valid_mask skin_mask ->
      (0 <= smoothing)%Q -> (smoothing <= 1)%Q ->
      exists out,
        enhance_skin_texture image smoothing = Ok out /\
        shape out = shape image /\
        (forall i j p a v,
            at2 image i j = Some p -> at2 smoothed i j = Some a ->
            at2 skin_mask i j = Some v ->
            at2 out i j
            = Some (blend_pixel (texture_weight smoothing v) p a) /\
            (v = 0 -> blend_pixel (texture_weight smoothing v) p a = p)) /\
        ((smoothing == 0)%Q -> out = image)).
Proof.
  intro Hdet. split.
  - intro Hz. pose proof (np_sum_all_zero skin_mask Hz) as Hsum.
    apply Z.eqb_eq in Hsum.
    unfold enhance_skin_texture. rewrite Hdet. simpl. rewrite Hsum.
    reflexivity.
  - intros smoothed Hsum Hfilter Hss Hsm Hvi _ _ _ _.
    set (alpha := map2d (texture_weight smoothing) skin_mask).
    assert (Hsalpha : shape image = shape alpha)
      by (unfold alpha; rewrite map2d_shape; exact Hsm).
    destruct (blend_pointwise image smoothed alpha Hss Hsalpha)
      as [out [E [Hs Hpt]]].
    exists out.
    assert (Hpix : forall i j p a v,
               at2 image i j = Some p -> at2 smoothed i j = Some a ->
               at2 skin_mask i j = Some v ->
               at2 out i j
               = Some (blend_pixel (texture_weight smoothing v) p a) /\
               (v = 0 \/ (smoothing == 0)%Q ->
                blend_pixel (texture_weight smoothing v) p a = p)).
    { intros i j p a v Hp Ha Hv.
      assert (Hf : at2 alpha i j = Some (texture_weight smoothing v))
        by (unfold alpha; exact (map2d_at2 _ skin_mask i j v Hv)).
      split; [exact (Hpt i j p a _ Hp Ha Hf) |].
      intro Hw.
      destruct (blend_pixel_endpoints (texture_weight smoothing v) p a)
        as [_ [Z _]].
      exact (Z (valid_image_at2 _ _ _ _ Hvi Hp)
               (texture_weight_zero smoothing v Hw)). }
    split; [| split; [exact Hs |]; split].
    + unfold enhance_skin_texture. rewrite Hdet.
      unfold bind at 1. cbv beta iota zeta.
      apply Z.eqb_neq in Hsum. rewrite Hsum, Hfilter.
      unfold bind. fold alpha. rewrite E. reflexivity.
    + intros i j p a v Hp Ha Hv.
      destruct (Hpix i j p a v Hp Ha Hv) as [Hq Z].
      split; [exact Hq |]. intro Hv0. apply Z. left. exact Hv0.
    + intro Ez. apply at2_ext; [exact Hs |].
      intros i j q Hq.
      destruct (at2_shape image out i j q (eq_sym Hs) Hq) as [p Hp].
      assert (Hso : shape smoothed = shape out) by congruence.
      destruct (at2_shape smoothed out i j q Hso Hq) as [a Ha].
      assert (Hmo : shape skin_mask = shape out) by congruence.
      destruct (at2_shape skin_mask out i j q Hmo Hq) as [v Hv].
      destruct (Hpix i j p a v Hp Ha Hv) as [Hq' Zq].
      rewrite Hq in Hq'. injection Hq' as ->.
      rewrite (Zq (or_intror Ez)). exact Hp.
Qed.

End Texture.

Lemma enhance_skin_texture_blends_witness :
  _detect_skin_mask (cv := Cv2_double) skin_patch
    = Ok (repeat (repeat 255 4) 4) /\
  np_sum (repeat (repeat 255 4) 4) <> 0 /\
  bilateralFilter (Cv2Filter := Cv2Filter_double) skin_patch
    = Ok skin_patch /\
  (0 <= 0)%Q /\ (0 <= 1)%Q /\
  enhance_skin_texture (cv := Cv2_double) (cvf := Cv2Filter_double)
    skin_patch 0 = Ok skin_patch.
Proof.
  assert (Hd : _detect_skin_mask (cv := Cv2_double) skin_patch
               = Ok (repeat (repeat 255 4) 4)) by reflexivity.
  assert (Hs : np_sum (repeat (repeat 255 4) 4) <> 0)
    by (vm_compute; discriminate).
  assert (Hf : bilateralFilter (Cv2Filter := Cv2Filter_double) skin_patch
               = Ok skin_patch)
    by (vm_compute; reflexivity).
  assert (H0 : (0 <= 0)%Q) by lra.
  assert (H1 : (0 <= 1)%Q) by lra.
  repeat (split; [assumption |]).
  destruct (proj2 (enhance_skin_texture_blends (cv := Cv2_double)
                     (cvf := Cv2Filter_double) skin_patch 0 _ Hd)
                  _ Hs Hf eq_refl eq_refl)
    as [out [E [_ [_ Hid]]]].
  - unfold valid_image, skin_patch, skin_colour.
    repeat constructor; vm_compute; discriminate.
  - unfold valid_image, skin_patch, skin_colour.
    repeat constructor; vm_compute; discriminate.
  - repeat constructor; unfold valid_u8; lia.
  - lra.
  - lra.
  - rewrite E. f_equal. apply Hid. reflexivity.
Defined.

(* ================================================================== *)
(** * From the analysis to the recommendations *)

(** X19.  The category that the analyzer assigns to a lightness reaches the
    palettes under one of four keys: below 25 "very_light", from 25 to below
    40 "light", from 40 to below 85 "medium" (the categories "Light Medium",
    "Medium" and "Medium Dark" all become "medium"), and from 85 on
    "dark". *)
Theorem category_to_palette_key (L : Q) :
  ((L < 25)%Q ->
   _normalize_category (_classify_skin_tone_category L) = "very_light") /\
  ((25 <= L)%Q -> (L < 40)%Q ->
   _normalize_category (_classify_skin_tone_category L) = "light") /\
  ((40 <= L)%Q -> (L < 85)%Q ->
   _normalize_category (_classify_skin_tone_category L) = "medium") /\
  ((85 <= L)%Q ->
   _normalize_category (_classify_skin_tone_category L) = "dark").
Proof.
  split; [| split; [| split]].
  - intro H.
    assert (E : _classify_skin_tone_category L = "Very Light").
    { destruct (Qlt_le_dec L 0); classify. }
    rewrite E. reflexivity.
  - intros H1 H2.
    assert (E : _classify_skin_tone_category L = "Light") by classify.
    rewrite E. reflexivity.
  - intros H1 H2.
    destruct (Qlt_le_dec L 55); [| destruct (Qlt_le_dec L 70)].
    + assert (E : _classify_skin_tone_category L = "Light Medium")
        by classify.
      rewrite E. reflexivity.
    + assert (E : _classify_skin_tone_category L = "Medium") by classify.
      rewrite E. reflexivity.
    + assert (E : _classify_skin_tone_category L = "Medium Dark")
        by classify.
      rewrite E. reflexivity.
  - intro H.
    assert (E : _classify_skin_tone_category L = "Dark").
    { destruct (Qlt_le_dec L 100); classify. }
    rewrite E. reflexivity.
Qed.

Lemma category_to_palette_key_witness :
  (40 <= 72)%Q /\ (72 < 85)%Q /\
  _classify_skin_tone_category 72 = "Medium Dark" /\
  _normalize_category (_classify_skin_tone_category 72) = "medium".
Proof.
  assert (H1 : (40 <= 72)%Q) by lra.
  assert (H2 : (72 < 85)%Q) by lra.
  split; [exact H1 |]. split; [exact H2 |]. split; [reflexivity |].
  exact (proj1 (proj2 (proj2 (category_to_palette_key 72))) H1 H2).
Defined.

Lemma normalize_undertone_names (u : string) :
  In u undertone_names ->
  _normalize_undertone u = py_lower u /\
  In (_normalize_undertone u) ["warm"; "cool"; "neutral"].
Proof.
  unfold undertone_names. simpl.
  intros [<- | [<- | [<- | []]]]; split; try reflexivity; simpl; auto.
Qed.

Lemma normalize_category_names (c : string) :
  In c category_names ->
  In (_normalize_category c) ["very_light"; "light"; "medium"; "dark"].
Proof.
  unfold category_names. simpl.
  intros [<- | [<- | [<- | [<- | [<- | [<- | []]]]]]]; simpl; auto.
Qed.

Lemma palette_lookup_keys (c u : string) :
  In c ["very_light"; "light"; "medium"; "dark"] ->
  In u ["warm"; "cool"; "neutral"] ->
  exists p, palette_lookup c u = Some p /\
            List.length (best p) = 8%nat /\ List.length (avoid p) = 7%nat.
Proof.
  simpl.
  intros [<- | [<- | [<- | [<- | []]]]] [<- | [<- | [<- | []]]];
    eexists; (split; [reflexivity | split; reflexivity]).
Qed.

(** X20.  For every lightness and every mean colour, the category and the
    undertone that the analyzer reports select an entry of the palette
    table: the lookup succeeds, so [_get_base_palette] returns that entry
    and not the medium/neutral fallback; the undertone key is the undertone
    in lower case. *)
Theorem analysis_selects_a_palette (L : Q) (avg_color : list Q)
  (skin_pixels : list Pixel) :
  let c := _normalize_category (_classify_skin_tone_category L) in
  let u := _normalize_undertone
             (_determine_undertone avg_color skin_pixels) in
  u = py_lower (_determine_undertone avg_color skin_pixels) /\
  exists p,
    palette_lookup c u = Some p /\
    _get_base_palette c u = p /\
    List.length (best p) = 8%nat /\ List.length (avoid p) = 7%nat.
Proof.
  intros c u.
  destruct (normalize_undertone_names _
              (undertone_in_names avg_color skin_pixels)) as [Hu Hin].
  split; [exact Hu |].
  destruct (palette_lookup_keys c u
              (normalize_category_names _ (classify_in_names L)) Hin)
    as [p [Hp [Hb Ha]]].
  exists p. split; [exact Hp |]. split; [| split; assumption].
  unfold _get_base_palette. rewrite Hp. reflexivity.
Qed.

(** ** The palette table *)

Lemma dict_item_In {V : Type} (d : list (string * V)) (key : string) (v : V) :
  dict_item d key = Some v -> In (key, v) d.
Proof.
  induction d as [| [k x] d IH]; simpl; [discriminate |].
  destruct (String.eqb key k) eqn:E.
  - apply String.eqb_eq in E. intro H. injection H as <-. left. congruence.
  - intro H. right. exact (IH H).
Qed.

Lemma palette_lookup_In (c u : string) (p : Palette) :
  palette_lookup c u = Some p -> In (c, u, p) all_palettes.
Proof.
  unfold palette_lookup, all_palettes.
  destruct (dict_item color_palettes c) as [by_u |] eqn:E; [| discriminate].
  intro H. apply in_flat_map. exists (c, by_u).
  split; [exact (dict_item_In _ _ _ E) |].
  simpl. apply in_map_iff. exists (u, p).
  split; [reflexivity | exact (dict_item_In _ _ _ H)].
Qed.

Definition palette_ok (cup : string * string * Palette) : bool :=
  let p := snd cup in
  (List.length (best p) =? 8)%nat && (List.length (avoid p) =? 7)%nat
  && forallb is_hex_color (best p) && forallb is_hex_color (avoid p)
  && (disjoint_strings (best p) (avoid p)
      || (String.eqb (fst (fst cup)) "medium"
          && String.eqb (snd (fst cup)) "neutral")).

Lemma all_palettes_ok : forallb palette_ok all_palettes = true.
Proof. vm_compute. reflexivity. Qed.

(** X21.  [_get_base_palette] returns a palette for every pair of strings:
    the entry of the table when both keys exist, the medium/neutral entry
    otherwise.  Every palette it can return has 8 best colours and 7 colours
    to avoid, each a string #RRGGBB with upper-case digits.  No colour is
    both best and to avoid within a palette, except in medium/neutral, where
    "#D7CCC8" is in both lists. *)
Theorem base_palette_is_well_formed (category undertone : string) :
  let p := _get_base_palette category undertone in
  (forall q, palette_lookup category undertone = Some q -> p = q) /\
  (palette_lookup category undertone = None ->
   Some p = palette_lookup "medium" "neutral") /\
  List.length (best p) = 8%nat /\
  List.length (avoid p) = 7%nat /\
  forallb is_hex_color (best p) = true /\
  forallb is_hex_color (avoid p) = true /\
  (Some p <> palette_lookup "medium" "neutral" ->
   disjoint_strings (best p) (avoid p) = true) /\
  (Some p = palette_lookup "medium" "neutral" ->
   In "#D7CCC8" (best p) /\ In "#D7CCC8" (avoid p)).
Proof.
  intro p.
  assert (Hsrc : exists c u, In (c, u, p) all_palettes /\
                   (palette_lookup category undertone = None ->
                    Some p = palette_lookup "medium" "neutral") /\
                   (forall q, palette_lookup category undertone = Some q ->
                              p = q)).
  { subst p. unfold _get_base_palette.
    destruct (palette_lookup category undertone) as [q |] eqn:E.
    - exists category, undertone.
      split; [exact (palette_lookup_In _ _ _ E) |].
      split; [discriminate |]. intros q' H. congruence.
    - exists "medium", "neutral".
      split; [apply palette_lookup_In; reflexivity |].
      split; [reflexivity | discriminate]. }
  destruct Hsrc as [c [u [Hin [Hnone Hsome]]]].
  clearbody p.
  pose proof all_palettes_ok as Hall.
  rewrite forallb_forall in Hall. specialize (Hall _ Hin).
  unfold palette_ok in Hall. simpl in Hall.
  rewrite !andb_true_iff in Hall.
  destruct Hall as [[[[Hb Ha] Hhb] Hha] Hdis].
  apply Nat.eqb_eq in Hb, Ha.
  split; [exact Hsome |]. split; [exact Hnone |].
  split; [exact Hb |]. split; [exact Ha |].
  split; [exact Hhb |]. split; [exact Hha |].
  split.
  - intro Hne. apply orb_true_iff in Hdis.
    destruct Hdis as [Hd | Hmn]; [exact Hd |].
    apply andb_true_iff in Hmn. destruct Hmn as [Hc Hu].
    apply String.eqb_eq in Hc, Hu. subst c u.
    exfalso. apply Hne.
    unfold all_palettes in Hin. simpl in Hin.
    repeat (destruct Hin as [Hin | Hin];
            [try discriminate Hin;
             injection Hin as <-; reflexivity |]).
    destruct Hin.
  - intro Hmn.
    assert (Hq : exists q, palette_lookup "medium" "neutral" = Some q /\
                           In "#D7CCC8" (best q) /\ In "#D7CCC8" (avoid q)).
    { eexists. split; [reflexivity |]. simpl. split; auto 10. }
    destruct Hq as [q [Eq [H1 H2]]].
    rewrite Eq in Hmn. injection Hmn as ->. split; assumption.
Qed.

Lemma base_palette_is_well_formed_witness :
  palette_lookup "Medium" "warm" = None /\
  Some (_get_base_palette "Medium" "warm") = palette_lookup "medium" "neutral".
Proof.
  assert (H : palette_lookup "Medium" "warm" = None) by reflexivity.
  split; [exact H |].
  exact (proj1 (proj2 (base_palette_is_well_formed "Medium" "warm")) H).
Defined.

(** ** Named colours and outfit combinations *)

Lemma name_colors_hex (names : list string) (tag : string)
  (colors : list string) :
  forall i, map entry_hex (name_colors names tag i colors) = colors.
Proof.
  induction colors as [| c colors IH]; intro i; simpl;
    [reflexivity | rewrite IH; reflexivity].
Qed.

Lemma name_colors_tag (names : list string) (tag : string)
  (colors : list string) :
  forall i, Forall (fun e => entry_category e = tag)
                   (name_colors names tag i colors).
Proof.
  induction colors as [| c colors IH]; intro i; simpl; constructor;
    [reflexivity | apply IH].
Qed.

Lemma skipn_nth {A : Type} (l : list A) (d : A) (i : nat) :
  (i < List.length l)%nat -> skipn i l = nth i l d :: skipn (S i) l.
Proof.
  revert i. induction l as [| x l IH]; intros i H; simpl in H; [lia |].
  destruct i as [| i]; [reflexivity |].
  simpl. apply IH. lia.
Qed.

Lemma name_colors_names (names : list string) (tag : string)
  (colors : list string) :
  forall i, (i + List.length colors <= List.length names)%nat ->
    map entry_name (name_colors names tag i colors)
    = firstn (List.length colors) (skipn i names).
Proof.
  induction colors as [| c colors IH]; intros i H; [reflexivity |].
  simpl in H.
  change (name_colors names tag i (c :: colors))
    with ({| entry_hex := c;
             entry_name := nth (i mod List.length names) names EmptyString;
             entry_category := tag |}
          :: name_colors names tag (S i) colors).
  change (map entry_name (?e :: ?t)) with (entry_name e :: map entry_name t).
  cbn [map entry_name].
  rewrite (IH (S i)) by lia.
  rewrite Nat.mod_small by lia.
  rewrite (skipn_nth names EmptyString i) by lia.
  reflexivity.
Qed.

(** X22.  [_generate_best_colors] lists the first eight best colours of the
    palette in their order, each tagged "best" and named by position from
    the list of colour names ("Navy Blue", "Royal Blue", ...);
    [_generate_avoid_colors] does the same with the colours to avoid, the
    tag "avoid" and the names "Bright Orange", "Neon Yellow", ...  The names
    follow the position, not the colour. *)
Theorem named_colors_follow_the_palette (palette : Palette) (lightness : Q) :
  let bc := _generate_best_colors palette lightness in
  let ac := _generate_avoid_colors palette lightness in
  map entry_hex bc = firstn 8 (best palette) /\
  map entry_name bc = firstn (List.length bc) color_names /\
  Forall (fun e => entry_category e = "best") bc /\
  (List.length bc <= 8)%nat /\
  map entry_hex ac = firstn 8 (avoid palette) /\
  map entry_name ac = firstn (List.length ac) avoid_names /\
  Forall (fun e => entry_category e = "avoid") ac /\
  (List.length ac <= 8)%nat.
Proof.
  intros bc ac. subst bc ac.
  unfold _generate_best_colors, _generate_avoid_colors.
  assert (Hb : (List.length (firstn 8 (best palette)) <= 8)%nat)
    by apply firstn_le_length.
  assert (Ha : (List.length (firstn 8 (avoid palette)) <= 8)%nat)
    by apply firstn_le_length.
  assert (Lb : List.length (name_colors color_names "best" 0
                              (firstn 8 (best palette)))
               = List.length (firstn 8 (best palette))).
  { rewrite <- (length_map entry_hex), name_colors_hex. reflexivity. }
  assert (La : List.length (name_colors avoid_names "avoid" 0
                              (firstn 8 (avoid palette)))
               = List.length (firstn 8 (avoid palette))).
  { rewrite <- (length_map entry_hex), name_colors_hex. reflexivity. }
  split; [apply name_colors_hex |].
  split; [rewrite Lb; apply (name_colors_names color_names "best");
          change (List.length color_names) with 16%nat; lia |].
  split; [apply name_colors_tag |].
  split; [lia |].
  split; [apply name_colors_hex |].
  split; [rewrite La; apply (name_colors_names avoid_names "avoid");
          change (List.length avoid_names) with 8%nat; lia |].
  split; [apply name_colors_tag | lia].
Qed.

(** X23.  [_generate_outfit_combinations] returns, by the number n of best
    colours: nothing for n < 3; the formal combination alone for n = 3; the
    professional and the formal one for n = 4 or 5; the professional, the
    casual and the formal one, in that order, for n >= 6.  Every combination
    has four colours. *)
Theorem outfit_combinations_by_count (best_colors : list ColorEntry)
  (category undertone : string) :
  let n := List.length best_colors in
  let h := hex_at best_colors in
  let professional := [h 0%nat; h 1%nat; h 2%nat; "#FFFFFF"] in
  let casual := [h 2%nat; h 4%nat; h 5%nat; "#F5F5F5"] in
  let formal := ["#000000"; h 0%nat; h 1%nat; "#FFFFFF"] in
  let o := _generate_outfit_combinations best_colors category undertone in
  ((n < 3)%nat -> o = []) /\
  (n = 3%nat -> o = [formal]) /\
  ((4 <= n)%nat -> (n < 6)%nat -> o = [professional; formal]) /\
  ((6 <= n)%nat -> o = [professional; casual; formal]) /\
  Forall (fun combo => List.length combo = 4%nat) o.
Proof.
  intros n h professional casual formal o.
  subst o. unfold _generate_outfit_combinations. fold n.
  destruct (4 <=? n)%nat eqn:E4;
    [apply Nat.leb_le in E4 | apply Nat.leb_gt in E4];
    (destruct (6 <=? n)%nat eqn:E6;
     [apply Nat.leb_le in E6 | apply Nat.leb_gt in E6]);
    (destruct (3 <=? n)%nat eqn:E3;
     [apply Nat.leb_le in E3 | apply Nat.leb_gt in E3]);
    try (exfalso; lia); simpl;
    (split; [| split; [| split; [| split]]]);
    intros; try reflexivity; try (exfalso; lia);
    repeat constructor.
Qed.

Lemma outfit_combinations_by_count_witness :
  (6 <= List.length
          (_generate_best_colors (_get_base_palette "dark" "warm") 50))%nat /\
  _generate_outfit_combinations
    (_generate_best_colors (_get_base_palette "dark" "warm") 50)
    "dark" "warm"
  = [ ["#BF360C"; "#D84315"; "#E64A19"; "#FFFFFF"];
      ["#E64A19"; "#FF5722"; "#FF7043"; "#F5F5F5"];
      ["#000000"; "#BF360C"; "#D84315"; "#FFFFFF"] ].
Proof.
  assert (H : (6 <= List.length
                 (_generate_best_colors (_get_base_palette "dark" "warm")
                    50))%nat) by (vm_compute; lia).
  split; [exact H |].
  rewrite (proj1 (proj2 (proj2 (proj2
             (outfit_combinations_by_count
                (_generate_best_colors (_get_base_palette "dark" "warm") 50)
                "dark" "warm")))) H).
  reflexivity.
Defined.

Lemma base_palette_in_table (category undertone : string) :
  exists c u,
    In (c, u, _get_base_palette category undertone) all_palettes.
Proof.
  unfold _get_base_palette.
  destruct (palette_lookup category undertone) as [q |] eqn:E.
  - exists category, undertone. exact (palette_lookup_In _ _ _ E).
  - exists "medium", "neutral". apply palette_lookup_In. reflexivity.
Qed.

Lemma firstn_8_of_8 {A : Type} (l : list A) :
  List.length l = 8%nat ->
  exists a b c d e f g h, l = [a; b; c; d; e; f; g; h].
Proof.
  intro H.
  destruct l as [| a [| b [| c [| d [| e [| f [| g [| h [| x l]]]]]]]]];
    simpl in H; try discriminate.
  do 8 eexists. reflexivity.
Qed.

(** X24.  Whatever the category and undertone strings (known keys or not),
    the palette that [_get_base_palette] returns yields eight best colours,
    seven colours to avoid and three outfit combinations: professional
    (best 1, 2, 3 and white), casual (best 3, 5, 6 and light grey), formal
    (black, best 1, 2 and white). *)
Theorem recommendations_have_fixed_sizes (category undertone : string)
  (lightness : Q) :
  let p := _get_base_palette category undertone in
  let bc := _generate_best_colors p lightness in
  let ac := _generate_avoid_colors p lightness in
  map entry_hex bc = best p /\
  map entry_hex ac = avoid p /\
  List.length bc = 8%nat /\
  List.length ac = 7%nat /\
  exists b1 b2 b3 b4 b5 b6 b7 b8,
    best p = [b1; b2; b3; b4; b5; b6; b7; b8] /\
    _generate_outfit_combinations bc category undertone
    = [ [b1; b2; b3; "#FFFFFF"];
        [b3; b5; b6; "#F5F5F5"];
        ["#000000"; b1; b2; "#FFFFFF"] ].
Proof.
  intros p bc ac.
  destruct (base_palette_in_table category undertone) as [c [u Hin]].
  fold p in Hin.
  pose proof all_palettes_ok as Hall.
  rewrite forallb_forall in Hall. specialize (Hall _ Hin).
  unfold palette_ok in Hall. simpl in Hall.
  rewrite !andb_true_iff in Hall.
  destruct Hall as [[[[Hb Ha] _] _] _].
  apply Nat.eqb_eq in Hb, Ha.
  clearbody p.
  destruct (firstn_8_of_8 (best p) Hb)
    as [b1 [b2 [b3 [b4 [b5 [b6 [b7 [b8 Eb]]]]]]]].
  assert (Hfb : firstn 8 (best p) = best p)
    by (apply firstn_all2; lia).
  assert (Hfa : firstn 8 (avoid p) = avoid p)
    by (apply firstn_all2; lia).
  assert (Hbc : map entry_hex bc = best p).
  { subst bc. unfold _generate_best_colors.
    rewrite name_colors_hex. exact Hfb. }
  assert (Hac : map entry_hex ac = avoid p).
  { subst ac. unfold _generate_avoid_colors.
    rewrite name_colors_hex. exact Hfa. }
  split; [exact Hbc |]. split; [exact Hac |].
  split; [rewrite <- (length_map entry_hex), Hbc; exact Hb |].
  split; [rewrite <- (length_map entry_hex), Hac; exact Ha |].
  exists b1, b2, b3, b4, b5, b6, b7, b8.
  split; [exact Eb |].
  subst bc. unfold _generate_best_colors. rewrite Hfb, Eb. reflexivity.
Qed.

Lemma recommendations_have_fixed_sizes_witness :
  List.length (_generate_best_colors (_get_base_palette "unknown" "teal") 50)
    = 8%nat /\
  List.length (_generate_avoid_colors (_get_base_palette "unknown" "teal") 50)
    = 7%nat.
Proof.
  destruct (recommendations_have_fixed_sizes "unknown" "teal" 50)
    as [_ [_ [H8 [H7 _]]]].
  split; assumption.
Defined.

(** ** Seasons *)

(** X25.  The season of the analyzer ([get_seasonal_color_palette]) and the
    season of the recommendation service ([_get_seasonal_recommendations])
    agree for the undertones "Cool" (Summer above lightness 60, else Winter)
    and "Warm" (Spring above 60, else Autumn); a lightness of exactly 60
    gives the darker season.  For "Neutral" they differ: the analyzer
    answers "Light Summer" or "Deep Autumn", the service "Universal".  With
    a key missing the analyzer answers "Universal", while the service
    falls back to the undertone "neutral" and the lightness 50. *)
Theorem seasons_of_analyzer_and_service (u : string) (L : Q)
  (c : option string) :
  let sa := {| sa_category := c; sa_undertone := Some u;
               sa_lightness := Some L |} in
  let analyzer := get_seasonal_color_palette sa in
  let service := season (_get_seasonal_recommendations sa) in
  (u = "Cool" ->
   service = analyzer /\
   ((60 < L)%Q -> analyzer = "Summer") /\
   ((L <= 60)%Q -> analyzer = "Winter")) /\
  (u = "Warm" ->
   service = analyzer /\
   ((60 < L)%Q -> analyzer = "Spring") /\
   ((L <= 60)%Q -> analyzer = "Autumn")) /\
  (u = "Neutral" ->
   service = "Universal" /\
   ((60 < L)%Q -> analyzer = "Light Summer") /\
   ((L <= 60)%Q -> analyzer = "Deep Autumn")) /\
  get_seasonal_color_palette
    {| sa_category := c; sa_undertone := Some u; sa_lightness := None |}
    = "Universal" /\
  get_seasonal_color_palette
    {| sa_category := c; sa_undertone := None; sa_lightness := Some L |}
    = "Universal" /\
  season (_get_seasonal_recommendations
            {| sa_category := c; sa_undertone := None;
               sa_lightness := Some L |}) = "Universal" /\
  (u = "Cool" ->
   season (_get_seasonal_recommendations
             {| sa_category := c; sa_undertone := Some u;
                sa_lightness := None |}) = "Winter").
Proof.
  intros sa analyzer service. subst sa analyzer service.
  split; [| split; [| split; [| split; [| split; [| split]]]]];
    try reflexivity.
  - intros ->.
    unfold get_seasonal_color_palette, _get_seasonal_recommendations. simpl.
    destruct (Qltb 60 L) eqn:E;
      [apply Qltb_lt in E | apply Qltb_ge in E]; simpl;
      (split; [reflexivity |]); split; intro H;
      try reflexivity; exfalso; lra.
  - intros ->.
    unfold get_seasonal_color_palette, _get_seasonal_recommendations. simpl.
    destruct (Qltb 60 L) eqn:E;
      [apply Qltb_lt in E | apply Qltb_ge in E]; simpl;
      (split; [reflexivity |]); split; intro H;
      try reflexivity; exfalso; lra.
  - intros ->.
    unfold get_seasonal_color_palette, _get_seasonal_recommendations. simpl.
    destruct (Qltb 60 L) eqn:E;
      [apply Qltb_lt in E | apply Qltb_ge in E]; simpl;
      (split; [reflexivity |]); split; intro H;
      try reflexivity; exfalso; lra.
  - intros ->. reflexivity.
Qed.

Lemma seasons_of_analyzer_and_service_witness :
  (60 < 70)%Q /\
  get_seasonal_color_palette
    {| sa_category := None; sa_undertone := Some "Cool";
       sa_lightness := Some 70%Q |} = "Summer".
Proof.
  assert (H : (60 < 70)%Q) by lra.
  split; [exact H |].
  exact (proj1 (proj2 (proj1 (seasons_of_analyzer_and_service "Cool" 70 None)
                         eq_refl)) H).
Defined.

(* ================================================================== *)
(** * The number of skin pixels that an analysis needs *)

Section FewSkinPixels.
Context {cv : Cv2} {sk : SkLearn} {si : SkImage}.

(** X26.  The analysis asks for five clusters.  With a clustering that
    rejects fewer samples than clusters, an image with skin but fewer than
    five skin pixels makes [analyze_skin_tone] raise a ValueError whose
    message starts with "Skin tone analysis failed: Dominant color
    extraction failed: ". *)
Theorem analysis_needs_five_skin_pixels (image : Image) (skin_mask : Mask)
  (skin_pixels : list Pixel) :
  (forall X n, (List.length X < n)%nat ->
               exists e, KMeans_fit n X = Raise e) ->
  _detect_skin_regions image = Ok skin_mask ->
  np_sum skin_mask <> 0 ->
  bool_index image skin_mask = Ok skin_pixels ->
  (List.length skin_pixels < 5)%nat ->
  exists cause,
    analyze_skin_tone image =
      Raise (Exn ValueError
               ("Skin tone analysis failed: Dominant color extraction failed: "
                ++ cause)).
Proof.
  intros Hval Hdet Hsum Hidx Hlt.
  destruct (Hval skin_pixels 5%nat Hlt) as [e He].
  exists (str e).
  unfold analyze_skin_tone. rewrite Hdet. simpl.
  apply Z.eqb_neq in Hsum. rewrite Hsum, Hidx. simpl.
  unfold _get_dominant_colors. rewrite He. reflexivity.
Qed.

End FewSkinPixels.

Lemma analysis_needs_five_skin_pixels_witness :
  _detect_skin_regions (cv := Cv2_double) mixed_row = Ok [[255; 0]] /\
  bool_index mixed_row [[255; 0]] = Ok [skin_colour] /\
  exists cause,
    analyze_skin_tone (cv := Cv2_double) (sk := SkLearn_double)
      (si := SkImage_double) mixed_row =
      Raise (Exn ValueError
               ("Skin tone analysis failed: Dominant color extraction failed: "
                ++ cause)).
Proof.
  assert (Hd : _detect_skin_regions (cv := Cv2_double) mixed_row
               = Ok [[255; 0]]) by reflexivity.
  assert (Hi : bool_index mixed_row [[255; 0]] = Ok [skin_colour])
    by reflexivity.
  split; [exact Hd |]. split; [exact Hi |].
  apply (analysis_needs_five_skin_pixels (cv := Cv2_double)
           (sk := SkLearn_double) (si := SkImage_double)
           mixed_row [[255; 0]] [skin_colour]).
  - intros X n Hlt. simpl. unfold KMeans_double.
    destruct (n =? 0)%nat; [eexists; reflexivity |].
    apply Nat.ltb_lt in Hlt. rewrite Hlt. eexists; reflexivity.
  - exact Hd.
  - vm_compute. discriminate.
  - exact Hi.
  - simpl. lia.
Defined.

Lemma temperature_bands_witness :
  (fl64 0.1 < red_blue_computed 200 120)%Q /\
  _calculate_color_temperature [200%Q; 150%Q; 120%Q] = "Warm".
Proof.
  assert (H : (fl64 0.1 < red_blue_computed 200 120)%Q)
    by (vm_compute; reflexivity).
  split; [exact H |].
  exact (proj2 (proj1 (temperature_bands 200 150 120)) H).
Defined.
